(** * Digital Alexandria: heritage data collection

    A shallow embedding of [data/data_collection.py] (class
    [HeritageDataCollector]) and the properties of its normalisation,
    deduplication, reporting and orchestration code.

    Conventions of the embedding.
    - A Python [str] is a [string]: the sequence of bytes of its UTF-8
      encoding, so [str.encode()] is the identity, and concatenation and the
      substring test [in] are the byte-level ones.  (A text with a lone
      surrogate has no encoding and is outside the model.)  [str.lower]
      belongs to the interpreter and its Unicode tables: the two
      classifiers that search lowered text for words with an i or a k take
      it as a parameter, and the adapters read it from the environment.
      [int] is modelled on ASCII text.
    - A Python [float] score is an exact rational of [Q].  Museum scores are
      multiples of 0.5 between 5 and 10, which binary floating point
      represents exactly.
    - A JSON member read by the code holds a scalar ([null], a boolean, an
      integer or a string): type [pyval].  Its integers are those
      [json.loads] gives, of at most 4300 digits, which [str] prints.
      Arrays, objects and numbers with a fraction are outside the model.
    - The outside world (HTTP endpoints, the wall clock, failures of the
      SQLite connection, the interpreter's [str.lower]) is an environment
      of oracles, type [env]; the mutable part (the three tables, the
      requests sent so far and the oracle counters) is the [state].  Code
      runs in the monad [M] of state and exceptions.
    - Calls to [logger] change neither the values returned nor the store,
      and are left out.  [time.sleep] is kept for the delays it refuses;
      the time that passes is not modelled. *)

From Stdlib Require Import ZArith List String Ascii Bool Lia.
From Stdlib Require Import QArith Qminmax Lqa Permutation Sorted DecimalString.
Import ListNotations.

Open Scope Z_scope.

(** ** Python values and primitives *)

Module Py.

(** A JSON scalar as Python sees it after [response.json()]: [None], a
    [bool], an [int] (of at most 4300 digits) or a [str]. *)
Inductive pyval : Type :=
| PNone
| PBool (b : bool)
| PInt (z : Z)
| PStr (s : string).

(** Truth value of a scalar, as tested by [if v] and [not v]. *)
Definition truthy (v : pyval) : bool :=
  match v with
  | PNone => false
  | PBool b => b
  | PInt z => negb (z =? 0)
  | PStr s => negb (s =? "")%string
  end.

(** [str(z)] for an integer. *)
Definition string_of_Z (z : Z) : string := NilZero.string_of_int (Z.to_int z).

(** [str(v)], which is what an f-string applies to [v]. *)
Definition py_str (v : pyval) : string :=
  match v with
  | PNone => "None"
  | PBool true => "True"
  | PBool false => "False"
  | PInt z => string_of_Z z
  | PStr s => s
  end.

(** A dict whose values are scalars, as an association list. *)
Definition pydict : Type := list (string * pyval).

Fixpoint lookup (d : pydict) (k : string) : option pyval :=
  match d with
  | [] => None
  | (k', v) :: d' => if (k' =? k)%string then Some v else lookup d' k
  end.

(** [d.get(k, dflt)] *)
Definition get_or (d : pydict) (k : string) (dflt : pyval) : pyval :=
  match lookup d k with
  | Some v => v
  | None => dflt
  end.

(** [d.get(k)] *)
Definition get (d : pydict) (k : string) : pyval := get_or d k PNone.

(** [s.lower()] on ASCII text: the capitals A to Z are lowered.  Other
    bytes are kept.  The only characters beyond ASCII whose lower case has
    an ASCII letter are U+0130 (i) and U+212A (k), so a search of the
    lowered text for a word without i and k cannot tell this function
    from [str.lower]. *)
Definition lower_ascii (c : ascii) : ascii :=
  let n := nat_of_ascii c in
  if ((65 <=? n)%nat && (n <=? 90)%nat)%bool then ascii_of_nat (n + 32) else c.

Fixpoint lower (s : string) : string :=
  match s with
  | EmptyString => EmptyString
  | String c s' => String (lower_ascii c) (lower s')
  end.

(** [needle in hay] for two strings. *)
Fixpoint contains (needle hay : string) : bool :=
  (String.prefix needle hay
   || match hay with
      | EmptyString => false
      | String _ hay' => contains needle hay'
      end)%bool.

(** [any(k in s for k in ks)] *)
Definition any_in (ks : list string) (s : string) : bool :=
  existsb (fun k => contains k s) ks.

Fixpoint mem_ascii (c : ascii) (cs : string) : bool :=
  match cs with
  | EmptyString => false
  | String c' cs' => (Ascii.eqb c c' || mem_ascii c cs')%bool
  end.

Fixpoint lstrip (cs s : string) : string :=
  match s with
  | EmptyString => EmptyString
  | String c s' => if mem_ascii c cs then lstrip cs s' else s
  end.

Fixpoint rstrip (cs s : string) : string :=
  match s with
  | EmptyString => EmptyString
  | String c s' =>
      match rstrip cs s' with
      | EmptyString => if mem_ascii c cs then EmptyString else String c EmptyString
      | r => String c r
      end
  end.

(** [s.strip(cs)] *)
Definition strip (cs s : string) : string := rstrip cs (lstrip cs s).

(** [sep.join(l)] *)
Fixpoint join (sep : string) (l : list string) : string :=
  match l with
  | [] => ""
  | [x] => x
  | x :: l' => x ++ sep ++ join sep l'
  end.

(** Exceptions: a class and the text [str(e)] gives. *)
Inductive exn_class : Type :=
| ConnectionError | HTTPError | JSONDecodeError
| TypeError | AttributeError | ValueError | OverflowError
| SqliteError | IntegrityError.

Record exn : Type := Exn { exn_cls : exn_class; exn_msg : string }.

Inductive result (A : Type) : Type :=
| Ok (a : A)
| Raise (e : exn).
Arguments Ok {A} a.
Arguments Raise {A} e.

(** [s.lower()] where [s] may be any scalar: only a [str] has the method,
    which is [lo]. *)
Definition py_lower (lo : string -> string) (v : pyval) : result string :=
  match v with
  | PStr s => Ok (lo s)
  | _ => Raise (Exn AttributeError "object has no attribute 'lower'")
  end.

(** [any(k in v for k in ks)] where [v] may be any scalar: [in] needs an
    iterable on its right, so a non-empty [ks] raises for a non-string. *)
Definition py_any_in (ks : list string) (v : pyval) : result bool :=
  match v with
  | PStr s => Ok (any_in ks s)
  | _ => match ks with
         | [] => Ok false
         | _ => Raise (Exn TypeError "argument is not iterable")
         end
  end.

(** Decimal digits of [int(s)]: digits, with single underscores between
    them. *)
Definition digit_of (c : ascii) : option Z :=
  let n := nat_of_ascii c in
  if ((48 <=? n)%nat && (n <=? 57)%nat)%bool then Some (Z.of_nat (n - 48)) else None.

(** [prev_digit] tells whether the previous character was a digit. *)
Fixpoint parse_digits (s : string) (acc : Z) (prev_digit : bool) : option Z :=
  match s with
  | EmptyString => if prev_digit then Some acc else None
  | String c s' =>
      match digit_of c with
      | Some d => parse_digits s' (10 * acc + d) true
      | None =>
          if (Ascii.eqb c "_" && prev_digit)%bool
          then parse_digits s' acc false
          else None
      end
  end.

(** The ASCII characters [int] skips around a literal: tab, line feed,
    vertical tab, form feed, carriage return and space. *)
Definition whitespace : string :=
  String (ascii_of_nat 9) (String (ascii_of_nat 10) (String (ascii_of_nat 11)
  (String (ascii_of_nat 12) (String (ascii_of_nat 13)
  (String (ascii_of_nat 32) EmptyString))))).

(** The number of digits of a literal. *)
Fixpoint digit_count (s : string) : Z :=
  match s with
  | EmptyString => 0
  | String c s' =>
      match digit_of c with
      | Some _ => 1 + digit_count s'
      | None => digit_count s'
      end
  end.

(** [sys.get_int_max_str_digits()]: the interpreter's default limit on
    the digits of a literal that [int] converts. *)
Definition max_str_digits : Z := 4300.

(** All the bytes of [s] are ASCII. *)
Fixpoint is_ascii (s : string) : bool :=
  match s with
  | EmptyString => true
  | String c s' => ((nat_of_ascii c <? 128)%nat && is_ascii s')%bool
  end.

(** [int(s)] for an ASCII string, base 10: an optional sign and digits,
    with blanks around; [None] stands for [ValueError].  (Beyond ASCII
    [int] also reads the other decimal digits and blanks of Unicode, which
    this function does not.) *)
Definition int_of_string (s : string) : option Z :=
  let literal := strip whitespace s in
  if max_str_digits <? digit_count literal then None
  else
    match literal with
    | String "-" r => option_map Z.opp (parse_digits r 0 false)
    | String "+" r => parse_digits r 0 false
    | r => parse_digits r 0 false
    end.

(** [int(v)] *)
Definition py_int (v : pyval) : result Z :=
  match v with
  | PNone => Raise (Exn TypeError "int() argument must be a string or a number")
  | PBool b => Ok (if b then 1 else 0)
  | PInt z => Ok z
  | PStr s =>
      match int_of_string s with
      | Some z => Ok z
      | None => Raise (Exn ValueError "invalid literal for int() with base 10")
      end
  end.

(** [min(a, b)] on floats: the first argument unless the second is
    strictly smaller. *)
Definition py_min (a b : Q) : Q := if Qle_bool a b then a else b.

(** [a / b] on two integers overflows when the quotient rounds to 2^1024
    or beyond: the largest float is 2^1024 - 2^971, and the quotients from
    2^1024 - 2^970 on round up. *)
Definition float_overflow_bound : Z := 2 ^ 1024 - 2 ^ 970.

(** [a / 100] for an integer [a], a float. *)
Definition py_div_100 (a : Z) : result Q :=
  if 100 * float_overflow_bound <=? Z.abs a
  then Raise (Exn OverflowError "integer division result too large for a float")
  else Ok (inject_Z a / 100)%Q.

End Py.
Import Py.

(** ** MD5 (RFC 1321), as computed by [hashlib.md5(b).hexdigest()] *)

Module MD5.

Definition mask32 : Z := 0xffffffff.
Definition add32 (a b : Z) : Z := Z.land (a + b) mask32.
Definition not32 (a : Z) : Z := Z.lxor a mask32.
Definition rotl32 (x c : Z) : Z :=
  Z.lor (Z.land (Z.shiftl x c) mask32) (Z.shiftr x (32 - c)).

Definition K : list Z :=
  [ 0xd76aa478; 0xe8c7b756; 0x242070db; 0xc1bdceee;
    0xf57c0faf; 0x4787c62a; 0xa8304613; 0xfd469501;
    0x698098d8; 0x8b44f7af; 0xffff5bb1; 0x895cd7be;
    0x6b901122; 0xfd987193; 0xa679438e; 0x49b40821;
    0xf61e2562; 0xc040b340; 0x265e5a51; 0xe9b6c7aa;
    0xd62f105d; 0x02441453; 0xd8a1e681; 0xe7d3fbc8;
    0x21e1cde6; 0xc33707d6; 0xf4d50d87; 0x455a14ed;
    0xa9e3e905; 0xfcefa3f8; 0x676f02d9; 0x8d2a4c8a;
    0xfffa3942; 0x8771f681; 0x6d9d6122; 0xfde5380c;
    0xa4beea44; 0x4bdecfa9; 0xf6bb4b60; 0xbebfbc70;
    0x289b7ec6; 0xeaa127fa; 0xd4ef3085; 0x04881d05;
    0xd9d4d039; 0xe6db99e5; 0x1fa27cf8; 0xc4ac5665;
    0xf4292244; 0x432aff97; 0xab9423a7; 0xfc93a039;
    0x655b59c3; 0x8f0ccc92; 0xffeff47d; 0x85845dd1;
    0x6fa87e4f; 0xfe2ce6e0; 0xa3014314; 0x4e0811a1;
    0xf7537e82; 0xbd3af235; 0x2ad7d2bb; 0xeb86d391 ].

Definition shift_amounts : list Z :=
  [ 7; 12; 17; 22; 7; 12; 17; 22; 7; 12; 17; 22; 7; 12; 17; 22;
    5; 9; 14; 20; 5; 9; 14; 20; 5; 9; 14; 20; 5; 9; 14; 20;
    4; 11; 16; 23; 4; 11; 16; 23; 4; 11; 16; 23; 4; 11; 16; 23;
    6; 10; 15; 21; 6; 10; 15; 21; 6; 10; 15; 21; 6; 10; 15; 21 ].

Definition bytes_of_string (s : string) : list Z :=
  map (fun c => Z.of_N (N_of_ascii c)) (list_ascii_of_string s).

(** [n] bytes of [x], least significant first. *)
Fixpoint le_bytes (n : nat) (x : Z) : list Z :=
  match n with
  | O => []
  | S n' => Z.land x 0xff :: le_bytes n' (Z.shiftr x 8)
  end.

Definition pad (msg : list Z) : list Z :=
  let len := Z.of_nat (List.length msg) in
  msg ++ [0x80] ++ repeat 0 (Z.to_nat ((55 - len) mod 64))
      ++ le_bytes 8 (Z.land (8 * len) 0xffffffffffffffff).

Fixpoint word_of_le (bs : list Z) : Z :=
  match bs with
  | [] => 0
  | b :: bs' => b + 256 * word_of_le bs'
  end.

(** The sixteen little-endian words of a 64-byte block. *)
Fixpoint words (n : nat) (block : list Z) : list Z :=
  match n with
  | O => []
  | S n' => word_of_le (firstn 4 block) :: words n' (skipn 4 block)
  end.

Definition state : Type := (Z * Z * Z * Z)%type.

Definition step (m : list Z) (st : state) (i : nat) : state :=
  let '(a, b, c, d) := st in
  let zi := Z.of_nat i in
  let '(f, g) :=
    match (i / 16)%nat with
    | 0%nat => (Z.lor (Z.land b c) (Z.land (not32 b) d), zi)
    | 1%nat => (Z.lor (Z.land d b) (Z.land (not32 d) c), (5 * zi + 1) mod 16)
    | 2%nat => (Z.lxor (Z.lxor b c) d, (3 * zi + 5) mod 16)
    | _ => (Z.lxor c (Z.lor b (not32 d)), (7 * zi) mod 16)
    end in
  let f' := add32 (add32 (add32 f a) (nth i K 0)) (nth (Z.to_nat g) m 0) in
  (d, add32 b (rotl32 f' (nth i shift_amounts 0)), b, c).

Definition process_block (st : state) (block : list Z) : state :=
  let m := words 16 block in
  let '(a, b, c, d) := fold_left (step m) (seq 0 64) st in
  let '(a0, b0, c0, d0) := st in
  (add32 a0 a, add32 b0 b, add32 c0 c, add32 d0 d).

(** The successive 64-byte blocks of the padded message. *)
Fixpoint blocks (n : nat) (bs : list Z) : list (list Z) :=
  match n with
  | O => []
  | S n' => firstn 64 bs :: blocks n' (skipn 64 bs)
  end.

Definition init : state := (0x67452301, 0xefcdab89, 0x98badcfe, 0x10325476).

Definition digest (msg : list Z) : list Z :=
  let p := pad msg in
  let '(a, b, c, d) :=
    fold_left process_block (blocks (List.length p / 64) p) init in
  le_bytes 4 a ++ le_bytes 4 b ++ le_bytes 4 c ++ le_bytes 4 d.

Definition hex_digit (n : Z) : ascii :=
  if n <? 10 then ascii_of_nat (Z.to_nat (48 + n)) else ascii_of_nat (Z.to_nat (87 + n)).

Fixpoint hex (bs : list Z) : string :=
  match bs with
  | [] => EmptyString
  | b :: bs' => String (hex_digit (b / 16)) (String (hex_digit (b mod 16)) (hex bs'))
  end.

(** [hashlib.md5(s.encode()).hexdigest()] *)
Definition hexdigest (s : string) : string := hex (digest (bytes_of_string s)).

End MD5.

(** ** Data model *)

(** [datetime.datetime]: the naive local time read by [datetime.now()]. *)
Record datetime : Type := DateTime {
  dt_year : Z; dt_month : Z; dt_day : Z;
  dt_hour : Z; dt_minute : Z; dt_second : Z; dt_microsecond : Z }.

(** The dataclass [HeritageItem].  Its [name], [type] and [period] are
    annotated [str] but are filled straight from payload members, so they
    hold whatever scalar the payload has. *)
Record HeritageItem : Type := {
  name : pyval;
  location : string;
  type : pyval;
  period : pyval;
  significance_score : Q;
  threat_level : string;
  last_updated : datetime;
  source : string;
  metadata : pydict }.

(** The configuration dict after [_load_config]. *)
Record config : Type := {
  met_museum_api : string;
  unesco_api : string;
  news_api_key : pyval;
  rate_limit_delay : Q;
  batch_size : Z;
  database_path : string }.

(** *** The persisted schema *)

(** A row of [heritage_items].  [col_location] is a nullable TEXT column;
    [col_metadata] holds the mapping whose [json.dumps] text is stored. *)
Record heritage_row : Type := {
  col_id : Z;
  col_name : pyval;
  col_location : option string;
  col_type : pyval;
  col_period : pyval;
  col_significance_score : Q;
  col_threat_level : string;
  col_last_updated : datetime;
  col_source : string;
  col_metadata : pydict;
  col_hash_id : string }.

(** A row of [threat_monitoring]. *)
Record threat_row : Type := {
  tcol_id : Z;
  tcol_heritage_item_id : option Z;
  tcol_threat_type : pyval;
  tcol_severity : pyval;
  tcol_description : pyval;
  tcol_detected_date : datetime;
  tcol_source : pyval }.

(** A row of [collection_stats]. *)
Record stats_row : Type := {
  scol_id : Z;
  scol_collection_date : datetime;
  scol_source : string;
  scol_total_items : nat;
  scol_new_items : nat;
  scol_updated_items : nat;
  scol_errors : nat }.

Record database : Type := {
  heritage_items : list heritage_row;
  threat_monitoring : list threat_row;
  collection_stats : list stats_row }.

Definition empty_database : database :=
  {| heritage_items := []; threat_monitoring := []; collection_stats := [] |}.

(** *** The outside world *)

(** A query parameter: a text, or the ISO text of a clock reading moved
    back by a number of days. *)
Inductive param_value : Type :=
| PV (v : string)
| PV_days_before (days : Z) (t : datetime).

Record request : Type := {
  req_url : string;
  req_params : list (string * param_value) }.

(** What [session.get] does: raise, or hand back a response with a status
    code and a body that is valid JSON of the endpoint's shape or not. *)
Inductive reply (A : Type) : Type :=
| NetRaise (msg : string)
| Response (status : Z) (body : option A).
Arguments NetRaise {A} msg.
Arguments Response {A} status body.

(** The member [objectIDs] of the museum's object listing. *)
Inductive ids_field : Type :=
| IdsAbsent
| IdsNull
| Ids (ids : list Z).

(** The member [source] of a news article. *)
Inductive source_field : Type :=
| SourceAbsent
| SourceNull
| Source (d : pydict).

Record article : Type := {
  article_fields : pydict;
  article_source : source_field }.

(** The member [articles] of a news search result. *)
Inductive articles_field : Type :=
| ArticlesAbsent
| ArticlesNull
| Articles (l : list article).

(** The environment: the reply of each endpoint to the [n]-th request of
    the session, the [n]-th reading of the clock, whether the [n]-th
    [sqlite3.connect] fails (with which message), and the interpreter's
    [str.lower]. *)
Record env : Type := {
  met_objects : nat -> request -> reply ids_field;
  met_object : nat -> request -> reply pydict;
  unesco_list : nat -> request -> reply (list pydict);
  news_everything : nat -> request -> reply articles_field;
  clock : nat -> datetime;
  db_fault : nat -> option string;
  str_lower : string -> string }.

Record state : Type := {
  db : database;
  sent : list request;
  ticks : nat;
  connects : nat }.

Definition set_db (d : database) (s : state) : state :=
  {| db := d; sent := sent s; ticks := ticks s; connects := connects s |}.

(** ** The monad of state and exceptions *)

(** [SE V A]: a computation over the world state and the local variables
    [V] of the enclosing function.  Both survive a raised exception. *)
Definition SE (V A : Type) : Type := env -> state * V -> result A * (state * V).

Definition M (A : Type) : Type := SE unit A.

Definition ret {V A} (a : A) : SE V A := fun _ s => (Ok a, s).

Definition bind {V A B} (m : SE V A) (k : A -> SE V B) : SE V B :=
  fun e s =>
    match m e s with
    | (Ok a, s') => k a e s'
    | (Raise ex, s') => (Raise ex, s')
    end.

Definition raise {V A} (ex : exn) : SE V A := fun _ s => (Raise ex, s).

(** [try: m  except Exception as e: h e] *)
Definition try_catch {V A} (m : SE V A) (h : exn -> SE V A) : SE V A :=
  fun e s =>
    match m e s with
    | (Ok a, s') => (Ok a, s')
    | (Raise ex, s') => h ex e s'
    end.

Notation "x <- m ;; k" := (bind m (fun x => k))
  (at level 61, m at next level, right associativity).
Notation "m ;;; k" := (bind m (fun _ => k))
  (at level 61, right associativity).

(** A pure step that may raise. *)
Definition lift_result {V A} (r : result A) : SE V A := fun _ s => (r, s).

(** Reading and writing the local variables. *)
Definition get_local {V} : SE V V := fun _ s => (Ok (snd s), s).
Definition set_local {V} (v : V) : SE V unit := fun _ s => (Ok tt, (fst s, v)).

(** Calling a method from inside a function body: the callee has no access
    to the caller's local variables. *)
Definition call {V A} (m : M A) : SE V A :=
  fun e s =>
    match m e (fst s, tt) with
    | (r, (s', _)) => (r, (s', snd s))
    end.

(** Running a function body with its local variables initialised to [v0];
    the final locals are handed back with the result. *)
Definition with_locals {V A} (v0 : V) (body : SE V A) : M (A * V) :=
  fun e s =>
    match body e (fst s, v0) with
    | (Ok a, (s', v)) => (Ok (a, v), (s', tt))
    | (Raise ex, (s', _)) => (Raise ex, (s', tt))
    end.

(** [for x in l: body x] *)
Fixpoint for_each {V A} (l : list A) (body : A -> SE V unit) : SE V unit :=
  match l with
  | [] => ret tt
  | x :: l' => body x ;;; for_each l' body
  end.

(** Bind for pure code that may raise. *)
Definition rbind {A B} (r : result A) (k : A -> result B) : result B :=
  match r with
  | Ok a => k a
  | Raise ex => Raise ex
  end.

Notation "'let?' x := r 'in' k" := (rbind r (fun x => k))
  (at level 10, x name, r at level 100, k at level 200).

(** *** Primitive effects *)

(** [str.lower], as the interpreter has it. *)
Definition lowering {V} : SE V (string -> string) :=
  fun e s => (Ok (str_lower e), s).

(** [time.sleep(d)].  The delay is counted in nanoseconds on 64 bits: a
    delay beyond that range is refused, and so is a negative one (the
    delay of exactly 2^63 nanoseconds wraps to a negative count).  The
    time that passes is not modelled. *)
Definition sleep {V} (d : Q) : SE V unit :=
  let ns := (d * inject_Z (10 ^ 9))%Q in
  if (negb (Qle_bool (inject_Z (- 2 ^ 63)) ns) || negb (Qle_bool ns (inject_Z (2 ^ 63))))%bool
  then raise (Exn OverflowError "timestamp too large to convert to C _PyTime_t")
  else if (negb (Qle_bool 0 d) || Qle_bool (inject_Z (2 ^ 63)) ns)%bool
  then raise (Exn ValueError "sleep length must be non-negative")
  else ret tt.

(** [datetime.now()] *)
Definition now {V} : SE V datetime :=
  fun e s =>
    let st := fst s in
    (Ok (clock e (ticks st)),
     ({| db := db st; sent := sent st; ticks := S (ticks st); connects := connects st |},
      snd s)).

(** An HTTP response as the code uses it. *)
Record response (A : Type) : Type := {
  status_code : Z;
  body : option A }.
Arguments status_code {A} r.
Arguments body {A} r.

(** [self.session.get(url, params=params)] against one endpoint. *)
Definition session_get {V A} (endpoint : env -> nat -> request -> reply A)
    (r : request) : SE V (response A) :=
  fun e s =>
    let st := fst s in
    let s' := ({| db := db st; sent := sent st ++ [r];
                  ticks := ticks st; connects := connects st |}, snd s) in
    match endpoint e (List.length (sent st)) r with
    | NetRaise msg => (Raise (Exn ConnectionError msg), s')
    | Response code b => (Ok {| status_code := code; body := b |}, s')
    end.

(** [response.raise_for_status()] *)
Definition raise_for_status {V A} (r : response A) : SE V unit :=
  if ((400 <=? status_code r) && (status_code r <? 600))%bool
  then raise (Exn HTTPError (string_of_Z (status_code r) ++ " Error"))
  else ret tt.

(** [response.json()] *)
Definition json {V A} (r : response A) : SE V A :=
  match body r with
  | Some b => ret b
  | None => raise (Exn JSONDecodeError "Expecting value")
  end.

(** [with sqlite3.connect(self.db_path) as conn: body; conn.commit()]:
    the connection may fail to open; an exception inside the block rolls
    the tables back. *)
Definition with_connection {V A} (body : SE V A) : SE V A :=
  fun e s =>
    let st := fst s in
    let s0 := ({| db := db st; sent := sent st; ticks := ticks st;
                  connects := S (connects st) |}, snd s) in
    match db_fault e (connects st) with
    | Some msg => (Raise (Exn SqliteError msg), s0)
    | None =>
        match body e s0 with
        | (Ok a, s1) => (Ok a, s1)
        | (Raise ex, s1) => (Raise ex, (set_db (db st) (fst s1), snd s1))
        end
    end.

(** Reading and writing the tables through the open connection. *)
Definition get_db {V} : SE V database := fun _ s => (Ok (db (fst s)), s).
Definition put_db {V} (d : database) : SE V unit :=
  fun _ s => (Ok tt, (set_db d (fst s), snd s)).

(** ** Normalizer and scorer *)

Definition famous_artists : list string :=
  [ "Leonardo da Vinci"; "Michelangelo"; "Vincent van Gogh";
    "Pablo Picasso"; "Claude Monet"; "Rembrandt"; "Auguste Rodin" ]%string.

Definition age_markers : list string := [ "bc"; "century"; "dynasty" ]%string.

(** [_calculate_significance_score].  The lowered date is searched for
    bc, century and dynasty, words without i and k, so [lower] stands for
    [str.lower] here. *)
Definition _calculate_significance_score (data : pydict) : result Q :=
  let score := 5%Q in
  let artist := get_or data "artistDisplayName" (PStr "") in
  let? famous := py_any_in famous_artists artist in
  let score := if famous then (score + 2)%Q else score in
  let object_date := get_or data "objectDate" (PStr "") in
  let? lowered := py_lower lower object_date in
  let score := if any_in age_markers lowered then (score + 1.5)%Q else score in
  let score := if truthy (get data "isPublicDomain") then (score + 0.5)%Q else score in
  let score := if truthy (get data "primaryImage") then (score + 0.5)%Q else score in
  let score := if truthy (get data "isOnView") then (score + 0.5)%Q else score in
  Ok (py_min score 10).

Definition high_risk_locations : list string :=
  [ "Syria"; "Iraq"; "Afghanistan"; "Yemen"; "Libya";
    "Ukraine"; "Myanmar"; "Mali" ]%string.

(** [_assess_threat_level], with [str.lower] as [lo]. *)
Definition _assess_threat_level (lo : string -> string) (data : pydict)
  : result string :=
  let? location := py_lower lo (get_or data "country" (PStr "")) in
  if any_in (map lo high_risk_locations) location then Ok "High"%string
  else if truthy (get_or data "isOnView" (PBool false)) then Ok "Low"%string
  else Ok "Medium"%string.

(** ** Threat classifier *)

Definition high_severity_keywords : list string :=
  [ "destroyed"; "burned"; "demolished"; "stolen"; "looted" ]%string.

Definition medium_severity_keywords : list string :=
  [ "damaged"; "vandalized"; "threatened"; "at risk" ]%string.

(** The text [_assess_threat_severity] searches, with [str.lower] as
    [lo]. *)
Definition severity_content (lo : string -> string) (article : pydict) : string :=
  lo (py_str (get_or article "title" (PStr "")) ++ " "
      ++ py_str (get_or article "description" (PStr "")))%string.

(** [_assess_threat_severity], with [str.lower] as [lo]. *)
Definition _assess_threat_severity (lo : string -> string) (article : pydict)
  : string :=
  let content := severity_content lo article in
  if any_in high_severity_keywords content then "High"
  else if any_in medium_severity_keywords content then "Medium"
  else "Low".

(** ** Deduplicator and store *)

(** The text hashed for deduplication: [f"{name}_{location}_{source}"]. *)
Definition item_data (item : HeritageItem) : string :=
  py_str (name item) ++ "_" ++ location item ++ "_" ++ source item.

(** The identity key [hash_id] of an item. *)
Definition hash_id (item : HeritageItem) : string :=
  MD5.hexdigest (item_data item).

(** [SELECT id FROM heritage_items WHERE hash_id = ?] then [fetchone()] *)
Definition select_id (h : string) (rows : list heritage_row) : option Z :=
  option_map col_id (find (fun r => (col_hash_id r =? h)%string) rows).

(** [UPDATE heritage_items SET significance_score, threat_level,
    last_updated, metadata WHERE hash_id = ?] *)
Definition update_row (item : HeritageItem) (h : string) (r : heritage_row)
  : heritage_row :=
  if (col_hash_id r =? h)%string then
    {| col_id := col_id r; col_name := col_name r;
       col_location := col_location r; col_type := col_type r;
       col_period := col_period r;
       col_significance_score := significance_score item;
       col_threat_level := threat_level item;
       col_last_updated := last_updated item;
       col_source := col_source r;
       col_metadata := metadata item;
       col_hash_id := col_hash_id r |}
  else r.

(** The id an AUTOINCREMENT key gives the next row: one more than the
    largest id so far (rows are never deleted). *)
Definition next_id (ids : list Z) : Z := 1 + fold_right Z.max 0 ids.

(** [INSERT INTO heritage_items (...) VALUES (...)] *)
Definition insert_row (item : HeritageItem) (h : string)
    (rows : list heritage_row) : list heritage_row :=
  rows ++ [ {| col_id := next_id (map col_id rows);
               col_name := name item;
               col_location := Some (location item);
               col_type := type item;
               col_period := period item;
               col_significance_score := significance_score item;
               col_threat_level := threat_level item;
               col_last_updated := last_updated item;
               col_source := source item;
               col_metadata := metadata item;
               col_hash_id := h |} ].

(** Binding a Python value to a parameter of a statement: an [int] has
    to fit the 64 bits of an SQLite INTEGER. *)
Definition bind_value (v : pyval) : result unit :=
  match v with
  | PInt z =>
      if ((- 2 ^ 63 <=? z) && (z <? 2 ^ 63))%bool then Ok tt
      else Raise (Exn OverflowError "Python int too large to convert to SQLite INTEGER")
  | _ => Ok tt
  end.

(** The parameters are bound one after the other. *)
Fixpoint bind_values (vs : list pyval) : result unit :=
  match vs with
  | [] => Ok tt
  | v :: vs' => let? _ := bind_value v in bind_values vs'
  end.

(** The constraint [NOT NULL] of a column. *)
Definition not_null (column : string) (v : pyval) : result unit :=
  match v with
  | PNone => Raise (Exn IntegrityError ("NOT NULL constraint failed: " ++ column))
  | _ => Ok tt
  end.

(** What [cursor.execute] may raise on the INSERT of an item, before any
    row is written: the members [name], [type] and [period] are bound as
    the payload had them ([location], [threat_level], [source], the
    metadata text and [hash_id] are strings, the score is a float), and
    [name] is declared [NOT NULL]. *)
Definition insert_row_check (item : HeritageItem) : result unit :=
  let? _ := bind_values [name item; type item; period item] in
  not_null "heritage_items.name" (name item).

(** One turn of the loop of [save_to_database] on the table and the two
    counters. *)
Definition save_item (item : HeritageItem)
    (acc : list heritage_row * (nat * nat))
  : result (list heritage_row * (nat * nat)) :=
  let '(rows, (new_items, updated_items)) := acc in
  let h := hash_id item in
  match select_id h rows with
  | Some _ => Ok (map (update_row item h) rows, (new_items, S updated_items))
  | None =>
      let? _ := insert_row_check item in
      Ok (insert_row item h rows, (S new_items, updated_items))
  end.

(** The loop of [save_to_database], from given counters. *)
Fixpoint save_loop (items : list HeritageItem)
    (acc : list heritage_row * (nat * nat))
  : result (list heritage_row * (nat * nat)) :=
  match items with
  | [] => Ok acc
  | item :: items' => let? acc' := save_item item acc in save_loop items' acc'
  end.

Definition save_items (items : list HeritageItem) (rows : list heritage_row)
  : result (list heritage_row * (nat * nat)) :=
  save_loop items (rows, (0%nat, 0%nat)).

Definition set_heritage_items (rows : list heritage_row) (d : database) : database :=
  {| heritage_items := rows;
     threat_monitoring := threat_monitoring d;
     collection_stats := collection_stats d |}.

(** [save_to_database]: returns [(new_items, updated_items)].  A
    statement that raises ends the block, and the connection rolls the
    rows written so far back. *)
Definition save_to_database (items : list HeritageItem) : M (nat * nat) :=
  with_connection
    (d <- get_db ;;
     saved <- lift_result (save_items items (heritage_items d)) ;;
     put_db (set_heritage_items (fst saved) d) ;;;
     ret (snd saved)).

(** What [cursor.execute] may raise on the INSERT of a threat: its four
    members are bound as the article had them. *)
Definition insert_threat_check (threat : pydict) : result unit :=
  bind_values [ get_or threat "keyword" (PStr "unknown");
                get_or threat "severity" (PStr "unknown");
                get_or threat "title" (PStr "");
                get_or threat "source" (PStr "news") ].

(** [INSERT INTO threat_monitoring (threat_type, severity, description,
    detected_date, source) VALUES (...)] *)
Definition insert_threat (threat : pydict) (t : datetime) (d : database) : database :=
  {| heritage_items := heritage_items d;
     threat_monitoring :=
       threat_monitoring d ++
       [ {| tcol_id := next_id (map tcol_id (threat_monitoring d));
            tcol_heritage_item_id := None;
            tcol_threat_type := get_or threat "keyword" (PStr "unknown");
            tcol_severity := get_or threat "severity" (PStr "unknown");
            tcol_description := get_or threat "title" (PStr "");
            tcol_detected_date := t;
            tcol_source := get_or threat "source" (PStr "news") |} ];
     collection_stats := collection_stats d |}.

(** [save_threats_to_database]: returns the number of rows written. *)
Definition save_threats_to_database (threats : list pydict) : M nat :=
  r <- with_locals 0%nat
         (with_connection
            (for_each threats (fun threat =>
               t <- now ;;
               lift_result (insert_threat_check threat) ;;;
               d <- get_db ;;
               put_db (insert_threat threat t d) ;;;
               saved_threats <- get_local ;;
               set_local (S saved_threats)))) ;;
  ret (snd r).

(** ** Source adapters *)

Definition plain_request (url : string) : request :=
  {| req_url := url; req_params := [] |}.

(** The body of the loop of [_process_met_batch] for one object id, inside
    its [try]. *)
Definition process_met_object (cfg : config) (obj_id : Z)
  : SE (list HeritageItem) unit :=
  let obj_url := (met_museum_api cfg ++ "/objects/" ++ string_of_Z obj_id)%string in
  resp <- session_get met_object (plain_request obj_url) ;;
  raise_for_status resp ;;;
  data <- json resp ;;
  if (negb (truthy (get data "title")) || negb (truthy (get data "isPublicDomain")))%bool
  then ret tt
  else
    significance <- lift_result (_calculate_significance_score data) ;;
    lo <- lowering ;;
    threat <- lift_result (_assess_threat_level lo data) ;;
    t <- now ;;
    let item :=
      {| name := get_or data "title" (PStr "Unknown");
         location :=
           strip ", " (py_str (get_or data "city" (PStr "")) ++ ", "
                       ++ py_str (get_or data "country" (PStr "")));
         type := get_or data "classification" (PStr "artwork");
         period := get_or data "period" (get_or data "dynasty" (PStr "Unknown"));
         significance_score := significance;
         threat_level := threat;
         last_updated := t;
         source := "Metropolitan Museum";
         metadata :=
           [ ("object_id", PInt obj_id);
             ("artist", get data "artistDisplayName");
             ("date", get data "objectDate");
             ("medium", get data "medium");
             ("dimensions", get data "dimensions");
             ("department", get data "department");
             ("accession_number", get data "accessionNumber");
             ("public_domain", get data "isPublicDomain");
             ("primary_image", get data "primaryImage");
             ("gallery_number", get data "GalleryNumber") ]%string |} in
    items <- get_local ;;
    set_local (items ++ [item]).

(** [_process_met_batch] *)
Definition _process_met_batch (cfg : config) (object_ids : list Z)
  : M (list HeritageItem) :=
  r <- with_locals []
         (for_each object_ids (fun obj_id =>
            try_catch (process_met_object cfg obj_id) (fun _ => ret tt))) ;;
  ret (snd r).

(** [range(0, stop, step)] *)
Definition py_range (stop step : Z) : result (list Z) :=
  if step =? 0 then Raise (Exn ValueError "range() arg 3 must not be zero")
  else if (step <? 0) || (stop <=? 0) then Ok []
  else Ok (map (fun k => Z.of_nat k * step)
               (seq 0 (Z.to_nat ((stop + step - 1) / step)))).

(** [l[i:j]] for [0 <= i]. *)
Definition slice {A} (l : list A) (i j : Z) : list A :=
  firstn (Z.to_nat (j - i)) (skipn (Z.to_nat i) l).

(** The [try] block of [collect_met_museum_data]. *)
Definition collect_met_museum_body (cfg : config) (department_ids : option (list Z))
  : SE (list HeritageItem) unit :=
  let objects_url := (met_museum_api cfg ++ "/objects")%string in
  resp <-
    match department_ids with
    | Some ((_ :: _) as ids) =>
        session_get met_objects
          {| req_url := objects_url;
             req_params := [ ("departmentIds"%string,
                              PV (join "|" (map string_of_Z ids))) ] |}
    | _ => session_get met_objects (plain_request objects_url)
    end ;;
  raise_for_status resp ;;;
  data <- json resp ;;
  object_ids <-
    match data with
    | IdsAbsent => ret []
    | Ids ids => ret ids
    | IdsNull => raise (Exn TypeError "object of type 'NoneType' has no len()")
    end ;;
  let n := Z.min (Z.of_nat (List.length object_ids)) 1000 in
  starts <- lift_result (py_range n (batch_size cfg)) ;;
  for_each starts (fun i =>
    let batch_ids := slice object_ids i (i + batch_size cfg) in
    batch_items <- call (_process_met_batch cfg batch_ids) ;;
    heritage_items <- get_local ;;
    set_local (heritage_items ++ batch_items) ;;;
    sleep (rate_limit_delay cfg)).

(** [collect_met_museum_data]: whatever the [try] block raises is caught,
    and the items gathered so far are returned. *)
Definition collect_met_museum_data (cfg : config) (department_ids : option (list Z))
  : M (list HeritageItem) :=
  r <- with_locals []
         (try_catch (collect_met_museum_body cfg department_ids) (fun _ => ret tt)) ;;
  ret (snd r).

(** The registry score of one site:
    [min(9.0 + (2024 - int(site.get('date_inscribed', 2024))) / 100, 10.0)]. *)
Definition unesco_significance (site : pydict) : result Q :=
  let? inscribed := py_int (get_or site "date_inscribed" (PInt 2024)) in
  let? age := py_div_100 (2024 - inscribed) in
  Ok (py_min (9 + age) 10).

(** [v == '1'] *)
Definition is_one (v : pyval) : bool :=
  match v with
  | PStr s => (s =? "1")%string
  | _ => false
  end.

(** The body of the loop of [collect_unesco_data] for one site. *)
Definition process_unesco_site (site : pydict) : SE (list HeritageItem) unit :=
  significance <- lift_result (unesco_significance site) ;;
  let threat := if is_one (get_or site "danger" (PStr "0")) then "High"%string else "Medium"%string in
  t <- now ;;
  let item :=
    {| name := get_or site "site" (PStr "Unknown Site");
       location := py_str (get_or site "states" (PStr ""));
       type := PStr "heritage_site";
       period := get_or site "date_inscribed" (PStr "Unknown");
       significance_score := significance;
       threat_level := threat;
       last_updated := t;
       source := "UNESCO";
       metadata :=
         [ ("unique_number", get site "unique_number");
           ("criteria", get site "criteria");
           ("category", get site "category");
           ("short_description", get site "short_description");
           ("longitude", get site "longitude");
           ("latitude", get site "latitude");
           ("area_hectares", get site "area_hectares");
           ("danger_list", PBool (is_one (get_or site "danger" (PStr "0"))));
           ("transboundary", PBool (is_one (get_or site "transboundary" (PStr "0")))) ]%string |} in
  heritage_items <- get_local ;;
  set_local (heritage_items ++ [item]).

(** The [try] block of [collect_unesco_data]. *)
Definition collect_unesco_body (cfg : config) : SE (list HeritageItem) unit :=
  resp <- session_get unesco_list (plain_request (unesco_api cfg)) ;;
  raise_for_status resp ;;;
  data <- json resp ;;
  for_each data process_unesco_site.

(** [collect_unesco_data] *)
Definition collect_unesco_data (cfg : config) : M (list HeritageItem) :=
  r <- with_locals []
         (try_catch (collect_unesco_body cfg) (fun _ => ret tt)) ;;
  ret (snd r).

Definition default_keywords : list string :=
  [ "museum destroyed"; "cultural heritage damage"; "art theft";
    "monument vandalized"; "archaeological site damaged";
    "library burned"; "statue toppled"; "heritage site threatened" ]%string.

(** [article.get('source', {}).get('name')] *)
Definition article_source_name (a : article) : result pyval :=
  match article_source a with
  | SourceAbsent => Ok PNone
  | Source d => Ok (get d "name")
  | SourceNull => Raise (Exn AttributeError "'NoneType' object has no attribute 'get'")
  end.

(** The body of the inner loop of [monitor_cultural_threats]. *)
Definition process_article (keyword : string) (a : article) : SE (list pydict) unit :=
  src <- lift_result (article_source_name a) ;;
  lo <- lowering ;;
  let threat :=
    [ ("title", get (article_fields a) "title");
      ("description", get (article_fields a) "description");
      ("source", src);
      ("published_at", get (article_fields a) "publishedAt");
      ("url", get (article_fields a) "url");
      ("keyword", PStr keyword);
      ("severity", PStr (_assess_threat_severity lo (article_fields a))) ]%string in
  threats <- get_local ;;
  set_local (threats ++ [threat]).

(** [(t - timedelta(days=30)).isoformat()]: the date thirty days before a
    reading of the clock, which does not exist for a reading in the first
    thirty days of the year 1. *)
Definition thirty_days_before (t : datetime) : result param_value :=
  if ((dt_year t <? 1)
      || ((dt_year t =? 1) && (dt_month t =? 1) && (dt_day t <=? 30)))%bool
  then Raise (Exn OverflowError "date value out of range")
  else Ok (PV_days_before 30 t).

(** The body of the outer loop of [monitor_cultural_threats]. *)
Definition search_keyword (cfg : config) (keyword : string) : SE (list pydict) unit :=
  t <- now ;;
  from <- lift_result (thirty_days_before t) ;;
  let params :=
    [ ("q", PV keyword);
      ("language", PV "en");
      ("sortBy", PV "relevancy");
      ("from", from);
      ("apiKey", PV (py_str (news_api_key cfg))) ]%string in
  resp <- session_get news_everything
            {| req_url := "https://newsapi.org/v2/everything"; req_params := params |} ;;
  raise_for_status resp ;;;
  data <- json resp ;;
  articles <-
    match data with
    | ArticlesAbsent => ret []
    | Articles l => ret l
    | ArticlesNull => raise (Exn TypeError "'NoneType' object is not iterable")
    end ;;
  for_each articles (process_article keyword) ;;;
  sleep (rate_limit_delay cfg).

(** [monitor_cultural_threats] *)
Definition monitor_cultural_threats (cfg : config) (keywords : option (list string))
  : M (list pydict) :=
  if negb (truthy (news_api_key cfg)) then ret []
  else
    let keywords :=
      match keywords with
      | None => default_keywords
      | Some ks => ks
      end in
    r <- with_locals []
           (try_catch (for_each keywords (search_keyword cfg)) (fun _ => ret tt)) ;;
    ret (snd r).

(** ** Aggregator: the [top_locations] query *)

(** [WHERE location IS NOT NULL AND location != ''] *)
Definition located (rows : list heritage_row) : list string :=
  flat_map (fun r =>
              match col_location r with
              | Some l => if (l =? "")%string then [] else [l]
              | None => []
              end) rows.

(** [SELECT location, COUNT( * ) ... GROUP BY location]: one pair for each
    distinct location, in some order. *)
Definition location_groups (rows : list heritage_row) : list (string * nat) :=
  let locs := located rows in
  map (fun l => (l, count_occ string_dec locs l)) (nodup string_dec locs).

(** [ORDER BY count DESC] *)
Definition count_desc (p q : string * nat) : Prop := (snd q <= snd p)%nat.

(** What [cursor.fetchall()] may return for the query
    [SELECT location, COUNT( * ) AS count FROM heritage_items
     WHERE location IS NOT NULL AND location != ''
     GROUP BY location ORDER BY count DESC LIMIT 10]:
    the first ten of the groups put in an order of descending count.  The
    query names no other sort key, so any such order is a possible answer
    of the engine. *)
Definition top_locations_query (rows : list heritage_row)
    (fetched : list (string * nat)) : Prop :=
  exists ordered,
    Permutation ordered (location_groups rows) /\
    Sorted count_desc ordered /\
    fetched = firstn 10 ordered.

(** [d[k] = v] on an insertion-ordered dict. *)
Fixpoint dict_set {A} (d : list (string * A)) (k : string) (v : A) : list (string * A) :=
  match d with
  | [] => [(k, v)]
  | (k', v') :: d' =>
      if (k' =? k)%string then (k', v) :: d' else (k', v') :: dict_set d' k v
  end.

(** [{loc: count for loc, count in top_locations}] *)
Definition dict_of_pairs {A} (l : list (string * A)) : list (string * A) :=
  fold_left (fun d p => dict_set d (fst p) (snd p)) l [].

(** The member [top_locations] of the report of
    [generate_collection_report]. *)
Definition report_top_locations (d : database) (top : list (string * nat)) : Prop :=
  exists fetched,
    top_locations_query (heritage_items d) fetched /\ top = dict_of_pairs fetched.

(** One engine: groups in order of last sighting, sorted by a stable
    insertion sort. *)
Fixpoint insert_desc (p : string * nat) (l : list (string * nat)) : list (string * nat) :=
  match l with
  | [] => [p]
  | q :: l' => if (snd q <? snd p)%nat then p :: q :: l' else q :: insert_desc p l'
  end.

Definition sort_desc (l : list (string * nat)) : list (string * nat) :=
  fold_right insert_desc [] l.

Definition top_locations_stable (rows : list heritage_row) : list (string * nat) :=
  firstn 10 (sort_desc (location_groups rows)).

(** ** Aggregator: the counts by source and by threat level *)

Definition Qsum (l : list Q) : Q := fold_right Qplus 0%Q l.

(** [SELECT source, COUNT( * ) AS count, AVG(significance_score) AS
    avg_significance FROM heritage_items GROUP BY source]: one triple for
    each distinct source. *)
Definition source_groups (rows : list heritage_row) : list (string * nat * Q) :=
  map (fun src =>
         let scores :=
           map col_significance_score
               (filter (fun r => (col_source r =? src)%string) rows) in
         (src, List.length scores,
          (Qsum scores / inject_Z (Z.of_nat (List.length scores)))%Q))
      (nodup string_dec (map col_source rows)).

(** What [cursor.fetchall()] may return for that query: the groups in some
    order. *)
Definition sources_query (rows : list heritage_row)
    (fetched : list (string * nat * Q)) : Prop :=
  Permutation fetched (source_groups rows).

(** [sum(count for _, count, _ in sources)] *)
Definition total_items (sources : list (string * nat * Q)) : nat :=
  fold_left (fun acc p => (acc + snd (fst p))%nat) sources 0%nat.

(** [SELECT threat_level, COUNT( * ) AS count FROM heritage_items
    GROUP BY threat_level] *)
Definition threat_groups (rows : list heritage_row) : list (string * nat) :=
  map (fun lvl =>
         (lvl, List.length (filter (fun r => (col_threat_level r =? lvl)%string) rows)))
      (nodup string_dec (map col_threat_level rows)).

Definition threats_query (rows : list heritage_row)
    (fetched : list (string * nat)) : Prop :=
  Permutation fetched (threat_groups rows).

(** The members [total_items], [sources] and [threat_distribution] of the
    report of [generate_collection_report]. *)
Record report_counts : Type := {
  report_total_items : nat;
  report_sources : list (string * (nat * Q));
  report_threat_distribution : list (string * nat) }.

Definition report_counts_of (d : database) (r : report_counts) : Prop :=
  exists sources threats,
    sources_query (heritage_items d) sources
    /\ threats_query (heritage_items d) threats
    /\ report_total_items r = total_items sources
    /\ report_sources r
       = dict_of_pairs (map (fun p => (fst (fst p), (snd (fst p), snd p))) sources)
    /\ report_threat_distribution r = dict_of_pairs threats.

(** ** Collection orchestrator *)

(** The dict [results] of [run_full_collection]; [duration_minutes], a
    function of the two times, is left out. *)
Record run_results : Type := {
  start_time : datetime;
  sources_processed : list string;
  total_items_collected : nat;
  new_items : nat;
  updated_items : nat;
  threats_detected : nat;
  errors : list string;
  end_time : option datetime }.

Definition initial_results (t : datetime) : run_results :=
  {| start_time := t; sources_processed := []; total_items_collected := 0;
     new_items := 0; updated_items := 0; threats_detected := 0;
     errors := []; end_time := None |}.

(** The four updates after a source was collected and saved. *)
Definition record_source (label : string) (collected new updated : nat)
    (r : run_results) : run_results :=
  {| start_time := start_time r;
     sources_processed := sources_processed r ++ [label];
     total_items_collected := total_items_collected r + collected;
     new_items := new_items r + new;
     updated_items := updated_items r + updated;
     threats_detected := threats_detected r;
     errors := errors r;
     end_time := end_time r |}.

(** The two updates after the threats were saved. *)
Definition record_threats (threat_count : nat) (r : run_results) : run_results :=
  {| start_time := start_time r;
     sources_processed := sources_processed r ++ ["Threat Monitoring"%string];
     total_items_collected := total_items_collected r;
     new_items := new_items r;
     updated_items := updated_items r;
     threats_detected := threat_count;
     errors := errors r;
     end_time := end_time r |}.

(** [results['errors'].append(error_msg)] *)
Definition record_error (error_msg : string) (r : run_results) : run_results :=
  {| start_time := start_time r;
     sources_processed := sources_processed r;
     total_items_collected := total_items_collected r;
     new_items := new_items r;
     updated_items := updated_items r;
     threats_detected := threats_detected r;
     errors := errors r ++ [error_msg];
     end_time := end_time r |}.

Definition record_end (t : datetime) (r : run_results) : run_results :=
  {| start_time := start_time r;
     sources_processed := sources_processed r;
     total_items_collected := total_items_collected r;
     new_items := new_items r;
     updated_items := updated_items r;
     threats_detected := threats_detected r;
     errors := errors r;
     end_time := Some t |}.

(** The [except] clause of each of the three blocks. *)
Definition on_failure (what : string) (ex : exn) : SE run_results unit :=
  results <- get_local ;;
  set_local (record_error (what ++ " failed: " ++ exn_msg ex) results).

(** A [try] block that collects one heritage source and saves it. *)
Definition heritage_stage (label what : string) (collect : M (list HeritageItem))
  : SE run_results unit :=
  try_catch
    (items <- call collect ;;
     counts <- call (save_to_database items) ;;
     results <- get_local ;;
     set_local (record_source label (List.length items) (fst counts) (snd counts) results))
    (on_failure what).

(** The [try] block of threat monitoring. *)
Definition threat_stage (cfg : config) : SE run_results unit :=
  try_catch
    (threats <- call (monitor_cultural_threats cfg None) ;;
     threat_count <- call (save_threats_to_database threats) ;;
     results <- get_local ;;
     set_local (record_threats threat_count results))
    (on_failure "Threat monitoring").

(** [INSERT INTO collection_stats (...) VALUES (...)] *)
Definition insert_stats (r : run_results) (d : database) : database :=
  {| heritage_items := heritage_items d;
     threat_monitoring := threat_monitoring d;
     collection_stats :=
       collection_stats d ++
       [ {| scol_id := next_id (map scol_id (collection_stats d));
            scol_collection_date := start_time r;
            scol_source := "full_collection";
            scol_total_items := total_items_collected r;
            scol_new_items := new_items r;
            scol_updated_items := updated_items r;
            scol_errors := List.length (errors r) |} ] |}.

(** The statements of [run_full_collection] after [results] is created. *)
Definition run_full_collection_body (cfg : config) : SE run_results unit :=
  heritage_stage "Metropolitan Museum" "Met Museum collection"
    (collect_met_museum_data cfg (Some [1; 11; 21])) ;;;
  heritage_stage "UNESCO" "UNESCO collection" (collect_unesco_data cfg) ;;;
  threat_stage cfg ;;;
  with_connection
    (results <- get_local ;;
     d <- get_db ;;
     put_db (insert_stats results d)) ;;;
  t <- now ;;
  results <- get_local ;;
  set_local (record_end t results).

(** [run_full_collection] *)
Definition run_full_collection (cfg : config) : M run_results :=
  t <- now ;;
  r <- with_locals (initial_results t) (run_full_collection_body cfg) ;;
  ret (snd r).

(** Running a method on a state. *)
Definition run {A} (m : M A) (e : env) (s : state) : result A * state :=
  let '(r, (s', _)) := m e (s, tt) in (r, s').

(** ** The claimed registry formula, in the spec's words *)


(** ** Sample worlds *)

Definition sample_config : config :=
  {| met_museum_api := "https://collectionapi.metmuseum.org/public/collection/v1";
     unesco_api := "https://whc.unesco.org/en/list/json/";
     news_api_key := PNone;
     rate_limit_delay := 1;
     batch_size := 100;
     database_path := "heritage_data.db" |}.

Definition initial_state : state :=
  {| db := empty_database; sent := []; ticks := 0; connects := 0 |}.

(** A clock in the year [y] whose successive readings are a second apart. *)
Definition clock_in (y : Z) (n : nat) : datetime :=
  DateTime y 11 3 12 0 (Z.of_nat n) 0.

(** A world where every request fails to connect. *)
Definition offline_env : env :=
  {| met_objects := fun _ _ => NetRaise "connection refused";
     met_object := fun _ _ => NetRaise "connection refused";
     unesco_list := fun _ _ => NetRaise "connection refused";
     news_everything := fun _ _ => NetRaise "connection refused";
     clock := clock_in 2026;
     db_fault := fun _ => None;
     str_lower := lower |}.

(** ** Sample inputs *)

Definition noon : datetime := clock_in 2026 0.

(** The end-to-end scenario of the specification: one work sighted on
    display, then in storage. *)
Definition mona_on_display : HeritageItem :=
  {| name := PStr "Mona Lisa"; location := "Paris, France";
     type := PStr "Paintings"; period := PStr "Renaissance";
     significance_score := 6; threat_level := "Low";
     last_updated := noon; source := "Metropolitan Museum";
     metadata := [("public_domain"%string, PBool true)] |}.

Definition mona_in_storage : HeritageItem :=
  {| name := PStr "Mona Lisa"; location := "Paris, France";
     type := PStr "Paintings"; period := PStr "Renaissance";
     significance_score := 5.5; threat_level := "Medium";
     last_updated := clock_in 2026 60; source := "Metropolitan Museum";
     metadata := [("public_domain"%string, PBool true);
                  ("gallery_number"%string, PNone)] |}.

Definition mona_elsewhere : HeritageItem :=
  {| name := PStr "Mona Lisa"; location := "Florence, Italy";
     type := PStr "Paintings"; period := PStr "Renaissance";
     significance_score := 6; threat_level := "Low";
     last_updated := noon; source := "Metropolitan Museum";
     metadata := [] |}.

Definition after_first_sighting : state :=
  snd (run (save_to_database [mona_on_display]) offline_env initial_state).

Definition after_second_sighting : state :=
  snd (run (save_to_database [mona_in_storage]) offline_env after_first_sighting).

Definition after_double_sighting : state :=
  snd (run (save_to_database [mona_on_display; mona_in_storage])
           offline_env initial_state).

(** A museum payload the filter accepts. *)
Definition mona_payload : pydict :=
  [ ("title"%string, PStr "Mona Lisa"); ("city"%string, PStr "Paris");
    ("country"%string, PStr "France"); ("isPublicDomain"%string, PBool true);
    ("isOnView"%string, PBool true) ].

(** Registry payloads. *)
Definition site_1978 : pydict :=
  [ ("site"%string, PStr "Galapagos Islands"); ("states"%string, PStr "Ecuador");
    ("date_inscribed"%string, PStr "1978"); ("danger"%string, PStr "0") ].

Definition site_far_future : pydict :=
  [ ("site"%string, PStr "Lunar Archive"); ("states"%string, PStr "Nowhere");
    ("date_inscribed"%string, PStr "3000") ].

(** A world whose registry lists [sites], read in the year 2026; the other
    endpoints are down. *)
Definition registry_env (sites : list pydict) : env :=
  {| met_objects := fun _ _ => NetRaise "connection refused";
     met_object := fun _ _ => NetRaise "connection refused";
     unesco_list := fun _ _ => Response 200 (Some sites);
     news_everything := fun _ _ => NetRaise "connection refused";
     clock := clock_in 2026;
     db_fault := fun _ => None;
     str_lower := lower |}.

(** The first two statements of the registry block of
    [run_full_collection]. *)
Definition collect_and_save_unesco (cfg : config) : M (nat * nat) :=
  items <- collect_unesco_data cfg ;;
  save_to_database items.

(** The first two statements of the museum block and of the threat
    block. *)
Definition collect_and_save_met (cfg : config) : M (nat * nat) :=
  items <- collect_met_museum_data cfg (Some [1; 11; 21]) ;;
  save_to_database items.

Definition monitor_and_save_threats (cfg : config) : M nat :=
  threats <- monitor_cultural_threats cfg None ;;
  save_threats_to_database threats.

Definition far_future_store : state :=
  snd (run (collect_and_save_unesco sample_config)
           (registry_env [site_far_future]) initial_state).

(** Eleven works, each alone in its city. *)
Definition place (loc : string) : HeritageItem :=
  {| name := PStr "Stele"; location := loc;
     type := PStr "Sculpture"; period := PStr "Unknown";
     significance_score := 5.5; threat_level := "Medium";
     last_updated := noon; source := "Metropolitan Museum";
     metadata := [] |}.

Definition eleven_places : list HeritageItem :=
  map place [ "Athens"; "Berlin"; "Cairo"; "Delhi"; "Edinburgh"; "Florence";
              "Geneva"; "Hanoi"; "Istanbul"; "Jakarta"; "Kyoto" ]%string.

Definition eleven_store : state :=
  snd (run (save_to_database eleven_places) offline_env initial_state).

(** The partial-failure scenario of the specification: the museum is
    unreachable and the registry lists three sites. *)
Definition three_sites : list pydict :=
  [ site_1978;
    [ ("site"%string, PStr "Old City of Sana'a"); ("states"%string, PStr "Yemen");
      ("date_inscribed"%string, PInt 1986); ("danger"%string, PStr "1") ];
    [ ("site"%string, PStr "Rapa Nui National Park"); ("states"%string, PStr "Chile") ] ].

Definition museum_down_env : env := registry_env three_sites.


(** A configuration with a news API key. *)
Definition keyed_config : config :=
  {| met_museum_api := met_museum_api sample_config;
     unesco_api := unesco_api sample_config;
     news_api_key := PStr "0123456789abcdef";
     rate_limit_delay := 1;
     batch_size := 100;
     database_path := "heritage_data.db" |}.

(** A world where the store cannot be opened for the final statistics. *)
Definition stats_down_env : env :=
  {| met_objects := fun _ _ => NetRaise "connection refused";
     met_object := fun _ _ => NetRaise "connection refused";
     unesco_list := fun _ _ => Response 200 (Some three_sites);
     news_everything := fun _ _ => NetRaise "connection refused";
     clock := clock_in 2026;
     db_fault := fun n => if (n =? 3)%nat then Some "unable to open database file"%string
                          else if (n =? 1)%nat then Some "database is locked"%string
                          else None;
     str_lower := lower |}.


Definition headline_both : pydict :=
  [ ("title"%string, PStr "Temple DESTROYED, museum damaged");
    ("description"%string, PNone) ].

Definition headline_medium : pydict :=
  [ ("title"%string, PStr "Fresco Vandalized overnight") ].

Definition headline_low : pydict :=
  [ ("title"%string, PStr "New gallery opens");
    ("description"%string, PStr "A quiet week") ].

(** ** Vocabulary of the properties *)

(** [s] occurs in [t]. *)
Definition Substring (s t : string) : Prop :=
  exists pre post, t = (pre ++ s ++ post)%string.

(** Two different texts with the same MD5 digest. *)
Definition md5_collision (x y : string) : Prop :=
  x <> y /\ MD5.hexdigest x = MD5.hexdigest y.

(** Exactly one of the three texts that enter the identity key differs
    between [a] and [b]. *)
Definition one_component_changed (a b : HeritageItem) : Prop :=
  (py_str (name a) <> py_str (name b)
   /\ location a = location b /\ source a = source b)
  \/ (py_str (name a) = py_str (name b)
      /\ location a <> location b /\ source a = source b)
  \/ (py_str (name a) = py_str (name b)
      /\ location a = location b /\ source a <> source b).

(** The filter of [_process_met_batch]: a title and the public-domain
    flag. *)
Definition accepted (data : pydict) : bool :=
  (truthy (get data "title") && truthy (get data "isPublicDomain"))%bool.

(** The postcondition [Q] holds of the outcome of [m] run from [s]. *)
Definition wp {V A} (m : SE V A) (e : env) (s : state * V)
    (Q : result A -> state * V -> Prop) : Prop :=
  Q (fst (m e s)) (snd (m e s)).

(** The tables and the count of connections are those of [s0]. *)
Definition same_store (s0 s : state) : Prop :=
  db s = db s0 /\ connects s = connects s0.

(** The year a registry item was scored with: the integer read from its
    [date_inscribed] member, kept in [period], or 2024 when the payload
    has no such member. *)
Definition inscription_year (item : HeritageItem) (y : Z) : Prop :=
  (period item = PStr "Unknown" /\ y = 2024) \/ py_int (period item) = Ok y.

(** An item scored by the registry rule. *)
Definition registry_scored (item : HeritageItem) : Prop :=
  exists y, inscription_year item y
            /\ significance_score item = py_min (9 + inject_Z (2024 - y) / 100) 10.

(** An item scored by the museum rule on an accepted payload. *)
Definition museum_scored (item : HeritageItem) : Prop :=
  exists data, accepted data = true
               /\ _calculate_significance_score data = Ok (significance_score item).

(** The text [str(e)] of the exception a call ended with, if it
    raised. *)
Definition failure {A} (r : result A) : option string :=
  match r with
  | Ok _ => None
  | Raise ex => Some (exn_msg ex)
  end.

(** What the save step of a heritage block ends with when it is given
    [items] in the state [s]: the fault of its connection, or else the
    first statement of its loop that raises. *)
Definition save_failure (e : env) (s : state) (items : list HeritageItem)
  : option string :=
  match db_fault e (connects s) with
  | Some msg => Some msg
  | None => failure (save_items items (heritage_items (db s)))
  end.

(** The same for the threats: the first INSERT that cannot bind its
    parameters. *)
Fixpoint insert_threats_check (threats : list pydict) : result unit :=
  match threats with
  | [] => Ok tt
  | threat :: threats' =>
      let? _ := insert_threat_check threat in insert_threats_check threats'
  end.

Definition save_threats_failure (e : env) (s : state) (threats : list pydict)
  : option string :=
  match db_fault e (connects s) with
  | Some msg => Some msg
  | None => failure (insert_threats_check threats)
  end.

(** What a block of [run_full_collection] adds to [errors] and to
    [sources_processed], given what its statements ended with. *)
Definition stage_errors (what : string) (fault : option string) : list string :=
  match fault with
  | Some msg => [(what ++ " failed: " ++ msg)%string]
  | None => []
  end.

Definition stage_label (label : string) (fault : option string) : list string :=
  match fault with
  | Some _ => []
  | None => [label]
  end.

(** The table and the counters after a turn of the loop of
    [save_to_database] in which no statement raises. *)
Definition upsert (item : HeritageItem)
    (acc : list heritage_row * (nat * nat)) : list heritage_row * (nat * nat) :=
  let '(rows, (new_items, updated_items)) := acc in
  let h := hash_id item in
  match select_id h rows with
  | Some _ => (map (update_row item h) rows, (new_items, S updated_items))
  | None => (insert_row item h rows, (S new_items, updated_items))
  end.

(** The table and the counters after the whole loop, when no statement
    raises. *)
Definition upsert_all (items : list HeritageItem) (rows : list heritage_row)
  : list heritage_row * (nat * nat) :=
  fold_left (fun acc item => upsert item acc) items (rows, (0%nat, 0%nat)).

(** The rows stored under an identity key. *)
Definition keyed (h : string) (rows : list heritage_row) : list heritage_row :=
  filter (fun r => (col_hash_id r =? h)%string) rows.

(** The uniqueness constraint of the column [hash_id]. *)
Definition unique_hash_id (rows : list heritage_row) : Prop :=
  NoDup (map col_hash_id rows).

(** The keys of [keys] that are not among [stored], each listed once. *)
Definition first_sightings (stored keys : list string) : list string :=
  nodup string_dec (filter (fun h => negb (existsb (String.eqb h) stored)) keys).

(** ** Further vocabulary *)

(** A member that is a text. *)
Definition is_text (v : pyval) : bool :=
  match v with
  | PStr _ => true
  | _ => false
  end.

(** The sum of the museum rules before the cap. *)
Definition museum_rules_total (famous aged public_domain image on_view : bool) : Q :=
  (5 + (if famous then 2 else 0) + (if aged then 1.5 else 0)
   + (if public_domain then 0.5 else 0) + (if image then 0.5 else 0)
   + (if on_view then 0.5 else 0))%Q.

(** The columns of [heritage_items] that no UPDATE of the program
    names. *)
Definition immutable_columns (r : heritage_row)
  : Z * pyval * option string * pyval * pyval * string * string :=
  (col_id r, col_name r, col_location r, col_type r, col_period r,
   col_source r, col_hash_id r).

(** The last item of a list that bears the key [h]. *)
Definition last_with_key (h : string) (items : list HeritageItem) : option HeritageItem :=
  find (fun i => (hash_id i =? h)%string) (rev items).

(** The columns an UPDATE of [save_to_database] sets. *)
Definition mutable_columns (r : heritage_row) : Q * string * datetime * pydict :=
  (col_significance_score r, col_threat_level r, col_last_updated r, col_metadata r).

Definition item_mutable_columns (i : HeritageItem) : Q * string * datetime * pydict :=
  (significance_score i, threat_level i, last_updated i, metadata i).

(** What a threat dict puts in a row of [threat_monitoring], and what a
    row holds of it. *)
Definition threat_values (threat : pydict) : pyval * pyval * pyval * pyval :=
  (get_or threat "keyword" (PStr "unknown"), get_or threat "severity" (PStr "unknown"),
   get_or threat "title" (PStr ""), get_or threat "source" (PStr "news")).

Definition threat_row_values (r : threat_row) : pyval * pyval * pyval * pyval :=
  (tcol_threat_type r, tcol_severity r, tcol_description r, tcol_source r).

(** Two items that differ by where a text sits around the separator. *)
Definition vase_a : HeritageItem :=
  {| name := PStr "Vase_A"; location := "Paris";
     type := PStr "Ceramics"; period := PStr "Unknown";
     significance_score := 5.5; threat_level := "Medium";
     last_updated := noon; source := "Metropolitan Museum"; metadata := [] |}.

Definition vase_b : HeritageItem :=
  {| name := PStr "Vase"; location := "A_Paris";
     type := PStr "Ceramics"; period := PStr "Unknown";
     significance_score := 7; threat_level := "Low";
     last_updated := noon; source := "Metropolitan Museum"; metadata := [] |}.

(** A stored row after the updates of the items of a list that bear its
    key: only the last one shows. *)
Definition apply_last (items : list HeritageItem) (r : heritage_row) : heritage_row :=
  match last_with_key (col_hash_id r) items with
  | Some i => update_row i (hash_id i) r
  | None => r
  end.

(** The report counts an engine gives when it answers in the order of the
    groups. *)
Definition report_counts_in_order (d : database) : report_counts :=
  {| report_total_items := total_items (source_groups (heritage_items d));
     report_sources :=
       dict_of_pairs (map (fun p => (fst (fst p), (snd (fst p), snd p)))
                          (source_groups (heritage_items d)));
     report_threat_distribution := dict_of_pairs (threat_groups (heritage_items d)) |}.

(** The counters of a run result agree: every item counted as collected
    was counted as new or as updated. *)
Definition balanced (r : run_results) : Prop :=
  (new_items r + updated_items r = total_items_collected r)%nat.

(** The row of [collection_stats] that records a run result. *)
Definition records_run (row : stats_row) (r : run_results) : Prop :=
  scol_collection_date row = start_time r
  /\ scol_source row = "full_collection"%string
  /\ scol_total_items row = total_items_collected r
  /\ scol_new_items row = new_items r
  /\ scol_updated_items row = updated_items r
  /\ scol_errors row = List.length (errors r).

(** The result of a call, or [d] when it raised. *)
Definition result_or {A} (d : A) (r : result A) : A :=
  match r with
  | Ok a => a
  | Raise _ => d
  end.

(** The run of the partial-failure scenario. *)
Definition museum_down_result : run_results :=
  result_or (initial_results noon)
            (fst (run (run_full_collection sample_config) museum_down_env initial_state)).

Definition museum_down_final : state :=
  snd (run (run_full_collection sample_config) museum_down_env initial_state).

(** The request [_process_met_batch] sends for an object id. *)
Definition object_request (cfg : config) (obj_id : Z) : request :=
  plain_request (met_museum_api cfg ++ "/objects/" ++ string_of_Z obj_id).

(** The string [s] neither starts nor ends with a character of [cs]. *)
Definition clean_ends (cs s : string) : Prop :=
  (forall c rest, s = String c rest -> mem_ascii c cs = false)
  /\ (forall pre c, s = (pre ++ String c "")%string -> mem_ascii c cs = false).

(** What every item of the museum adapter satisfies. *)
Definition met_item_ok (item : HeritageItem) : Prop :=
  source item = "Metropolitan Museum"%string
  /\ truthy (name item) = true
  /\ In (threat_level item) ["High"; "Low"; "Medium"]%string
  /\ (5.5 <= significance_score item)%Q /\ (significance_score item <= 10)%Q
  /\ clean_ends ", " (location item)
  /\ truthy (get (metadata item) "public_domain") = true.

(** A site whose registry score can be computed: [int] reads its
    [date_inscribed] member, and the year is within the range of the
    division. *)
Definition date_readable (site : pydict) : bool :=
  match unesco_significance site with
  | Ok _ => true
  | Raise _ => false
  end.

(** A site whose [date_inscribed] member is not a text with a character
    beyond ASCII (such a text [int] may read where [int_of_string] does
    not). *)
Definition ascii_date (site : pydict) : bool :=
  match get_or site "date_inscribed" (PInt 2024) with
  | PStr s => is_ascii s
  | _ => true
  end.


(** The sites before the first one whose date cannot be read. *)
Fixpoint readable_prefix (sites : list pydict) : list pydict :=
  match sites with
  | [] => []
  | site :: rest => if date_readable site then site :: readable_prefix rest else []
  end.

(** What every item of the registry adapter satisfies. *)
Definition unesco_item_ok (item : HeritageItem) : Prop :=
  source item = "UNESCO"%string
  /\ type item = PStr "heritage_site"
  /\ In (threat_level item) ["High"; "Medium"]%string
  /\ (threat_level item = "High"%string
      <-> get (metadata item) "danger_list" = PBool true)
  /\ (significance_score item <= 10)%Q
  /\ forall y, inscription_year item y -> y <= 2024 -> (9 <= significance_score item)%Q.

(** What every threat of [monitor_cultural_threats] satisfies, searched
    with [keywords]. *)
Definition threat_ok (keywords : list string) (threat : pydict) : Prop :=
  map fst threat
  = ["title"; "description"; "source"; "published_at"; "url"; "keyword"; "severity"]%string
  /\ (exists k, In k keywords /\ get threat "keyword" = PStr k)
  /\ In (get threat "severity") [PStr "High"; PStr "Medium"; PStr "Low"].

(** Two works in Paris and one in Florence. *)
Definition two_cities_store : state :=
  snd (run (save_to_database [mona_on_display; mona_elsewhere; place "Paris, France"])
           offline_env initial_state).


(** A registry answer whose second site has no name. *)
Definition nameless_sites : list pydict :=
  [ site_1978;
    [ ("site"%string, PNone); ("states"%string, PStr "Nowhere");
      ("date_inscribed"%string, PStr "1990") ] ].

(** A registry answer whose second site has no readable date. *)
Definition broken_sites : list pydict :=
  [ site_1978;
    [ ("site"%string, PStr "Somewhere"); ("date_inscribed"%string, PStr "c. 1990") ];
    site_far_future ].

(** The request [collect_met_museum_data] starts with. *)
Definition listing_request (cfg : config) (department_ids : option (list Z)) : request :=
  match department_ids with
  | Some ((_ :: _) as ids) =>
      {| req_url := met_museum_api cfg ++ "/objects";
         req_params := [ ("departmentIds"%string,
                          PV (join "|" (map string_of_Z ids))) ] |}
  | _ => plain_request (met_museum_api cfg ++ "/objects")
  end.

(** A payload the filter rejects: not in the public domain. *)
Definition restricted_payload : pydict :=
  [ ("title"%string, PStr "Untitled"); ("isPublicDomain"%string, PBool false) ].

(** A world whose museum lists three objects: the first is accepted, the
    second is rejected by the filter, the third cannot be fetched. *)
Definition museum_env : env :=
  {| met_objects := fun _ _ => Response 200 (Some (Ids [436535; 2; 3]));
     met_object := fun n _ =>
       match n with
       | 1%nat => Response 200 (Some mona_payload)
       | 2%nat => Response 200 (Some restricted_payload)
       | _ => NetRaise "connection reset"
       end;
     unesco_list := fun _ _ => NetRaise "connection refused";
     news_everything := fun _ _ => NetRaise "connection refused";
     clock := clock_in 2026;
     db_fault := fun _ => None;
     str_lower := lower |}.

(** A world whose museum lists 1200 objects, none of which can be
    fetched, and a configuration with batches of 300. *)
Definition large_museum_env : env :=
  {| met_objects := fun _ _ => Response 200 (Some (Ids (map Z.of_nat (seq 1 1200))));
     met_object := fun _ _ => NetRaise "connection reset";
     unesco_list := fun _ _ => NetRaise "connection refused";
     news_everything := fun _ _ => NetRaise "connection refused";
     clock := clock_in 2026;
     db_fault := fun _ => None;
     str_lower := lower |}.

Definition batches_of_300 : config :=
  {| met_museum_api := met_museum_api sample_config;
     unesco_api := unesco_api sample_config;
     news_api_key := PNone;
     rate_limit_delay := 1;
     batch_size := 300;
     database_path := "heritage_data.db" |}.

Definition no_batches : config :=
  {| met_museum_api := met_museum_api sample_config;
     unesco_api := unesco_api sample_config;
     news_api_key := PNone;
     rate_limit_delay := 1;
     batch_size := 0;
     database_path := "heritage_data.db" |}.

(** The name [collect_unesco_data] gives the item of a site. *)
Definition site_name (site : pydict) : pyval := get_or site "site" (PStr "Unknown Site").

(** The keywords [monitor_cultural_threats] searches for. *)
Definition keywords_used (keywords : option (list string)) : list string :=
  match keywords with
  | None => default_keywords
  | Some ks => ks
  end.

(** A world whose news source answers the first search with two articles
    and then goes down. *)
Definition news_env : env :=
  {| met_objects := fun _ _ => NetRaise "connection refused";
     met_object := fun _ _ => NetRaise "connection refused";
     unesco_list := fun _ _ => NetRaise "connection refused";
     news_everything := fun n _ =>
       match n with
       | 0%nat =>
           Response 200
             (Some (Articles
                      [ {| article_fields := headline_both;
                           article_source := Source [("name"%string, PStr "Daily")] |};
                        {| article_fields := headline_low;
                           article_source := SourceAbsent |} ]))
       | _ => NetRaise "connection reset"
       end;
     clock := clock_in 2026;
     db_fault := fun _ => None;
     str_lower := lower |}.

(** * Properties *)

(** ** MD5 test vectors *)

Example md5_empty : MD5.hexdigest "" = "d41d8cd98f00b204e9800998ecf8427e"%string.
Proof. vm_compute. reflexivity. Qed.

Example md5_abc : MD5.hexdigest "abc" = "900150983cd24fb0d6963f7d28e17f72"%string.
Proof. vm_compute. reflexivity. Qed.

Example md5_two_blocks :
  MD5.hexdigest "xxxxxxxxxxxxxxxxxxxxxxxxxxxxxxxxxxxxxxxxxxxxxxxxxxxxxxxx"
  = "668a72d5ba17f08e62dabcafad6db14b"%string.
Proof. vm_compute. reflexivity. Qed.

Example md5_mona :
  MD5.hexdigest "Mona Lisa_Paris, France_Metropolitan Museum"
  = "35094c97cffbdbce4ae7de837f4e774e"%string.
Proof. vm_compute. reflexivity. Qed.

(** ** Strings *)

Section StringFacts.

Open Scope string_scope.

Lemma append_assoc (a b c : string) : (a ++ b) ++ c = a ++ (b ++ c).
Proof. induction a as [|x a IH]; simpl; [reflexivity | now rewrite IH]. Qed.

Lemma append_empty_r (a : string) : a ++ "" = a.
Proof. induction a as [|x a IH]; simpl; [reflexivity | now rewrite IH]. Qed.

Lemma append_length (a b : string) :
  String.length (a ++ b) = (String.length a + String.length b)%nat.
Proof. induction a as [|x a IH]; simpl; [reflexivity | now rewrite IH]. Qed.

Lemma append_cancel_l (a x y : string) : a ++ x = a ++ y -> x = y.
Proof.
  induction a as [|c a IH]; simpl; intros H; [exact H|].
  injection H as H. now apply IH.
Qed.

Lemma append_cancel_r (a : string) : forall x y, x ++ a = y ++ a -> x = y.
Proof.
  induction x as [|c x IH]; intros [|d y] H; simpl in H.
  - reflexivity.
  - apply (f_equal String.length) in H. simpl in H.
    rewrite append_length in H. lia.
  - apply (f_equal String.length) in H. simpl in H.
    rewrite append_length in H. lia.
  - injection H as Hc H. subst d. f_equal. now apply IH.
Qed.

(** [String.prefix] is the prefix relation. *)
Lemma prefix_spec (p s : string) :
  String.prefix p s = true <-> exists post, s = p ++ post.
Proof.
  revert p. induction s as [|d s IH]; intros [|c p]; simpl.
  - split; [intros _; now exists "" | reflexivity].
  - split; [discriminate | intros [post H]; discriminate].
  - split; [intros _; now exists (String d s) | reflexivity].
  - destruct (ascii_dec c d) as [->|Hne].
    + rewrite IH. split; intros [post H]; exists post.
      * now rewrite H.
      * now injection H.
    + split; [discriminate|].
      intros [post H]. injection H as H1 H2. congruence.
Qed.

Lemma contains_nil (needle : string) :
  contains needle "" = String.prefix needle "".
Proof. unfold contains. apply orb_false_r. Qed.

Lemma contains_cons (needle : string) (c : ascii) (hay : string) :
  contains needle (String c hay)
  = (String.prefix needle (String c hay) || contains needle hay)%bool.
Proof. reflexivity. Qed.

(** [contains] decides the substring relation. *)
Lemma contains_spec (needle : string) : forall hay,
  contains needle hay = true <-> Substring needle hay.
Proof.
  induction hay as [|c hay IH].
  - rewrite contains_nil, prefix_spec. split.
    + intros [post H]. now exists "", post.
    + intros [[|d pre] [post H]]; [now exists post | discriminate].
  - rewrite contains_cons, orb_true_iff, IH, prefix_spec. split.
    + intros [[post H] | [pre [post H]]].
      * now exists "", post.
      * exists (String c pre), post. simpl. now rewrite H.
    + intros [[|d pre] [post H]].
      * left. now exists post.
      * right. simpl in H. injection H as _ H. now exists pre, post.
Qed.

Lemma any_in_spec (ks : list string) (s : string) :
  any_in ks s = true <-> exists k, In k ks /\ Substring k s.
Proof.
  unfold any_in. rewrite existsb_exists.
  split; intros [k [Hin H]]; exists k; split; auto; now apply contains_spec.
Qed.

Lemma lower_append (a b : string) : lower (a ++ b) = lower a ++ lower b.
Proof. induction a as [|c a IH]; simpl; [reflexivity | now rewrite IH]. Qed.

(** Lower-casing keeps an occurrence of a text that is in lower case
    already. *)
Lemma lower_keeps_substring (k s : string) :
  lower k = k -> Substring k s -> Substring k (lower s).
Proof.
  intros Hk [pre [post ->]].
  exists (lower pre), (lower post).
  now rewrite !lower_append, Hk.
Qed.

End StringFacts.

(** ** Threat severity *)

(** C4.  The severity of an article is decided on the lower-cased text
    made of its title, a space and its description, in strict precedence:
    High as soon as one of destroyed, burned, demolished, stolen, looted
    occurs; otherwise Medium as soon as one of damaged, vandalized,
    threatened, at risk occurs; otherwise Low.  An article with both
    destroyed and damaged is High.  The lowering [lo] is [str.lower];
    the property does not depend on what it maps a text to, so it holds
    of every title and description, in ASCII or not. *)
Theorem threat_severity_precedence (lo : string -> string) (article : pydict) :
  let content :=
    lo (py_str (get_or article "title" (PStr "")) ++ " "
        ++ py_str (get_or article "description" (PStr "")))%string in
  let high := exists k,
    In k ["destroyed"; "burned"; "demolished"; "stolen"; "looted"]%string
    /\ Substring k content in
  let medium := exists k,
    In k ["damaged"; "vandalized"; "threatened"; "at risk"]%string
    /\ Substring k content in
  (high -> _assess_threat_severity lo article = "High"%string)
  /\ (~ high -> medium -> _assess_threat_severity lo article = "Medium"%string)
  /\ (~ high -> ~ medium -> _assess_threat_severity lo article = "Low"%string)
  /\ (Substring "destroyed" content -> Substring "damaged" content ->
      _assess_threat_severity lo article = "High"%string).
Proof.
  intros content high medium.
  assert (Hh : any_in high_severity_keywords (severity_content lo article) = true <-> high)
    by apply any_in_spec.
  assert (Hm : any_in medium_severity_keywords (severity_content lo article) = true <-> medium)
    by apply any_in_spec.
  unfold _assess_threat_severity.
  destruct (any_in high_severity_keywords (severity_content lo article)) eqn:Eh;
    destruct (any_in medium_severity_keywords (severity_content lo article)) eqn:Em.
  all: repeat split; intros; try reflexivity.
  all: try (exfalso; tauto).
  all: try (assert (false = true) by (apply Hh; exists "destroyed"%string;
              split; [simpl; tauto | assumption]); discriminate).
  all: intuition discriminate.
Qed.

Lemma threat_severity_precedence_witness :
  Substring "destroyed" (severity_content lower headline_both)
  /\ Substring "damaged" (severity_content lower headline_both)
  /\ _assess_threat_severity lower headline_both = "High"%string.
Proof.
  assert (H1 : Substring "destroyed" (severity_content lower headline_both))
    by (apply contains_spec; reflexivity).
  assert (H2 : Substring "damaged" (severity_content lower headline_both))
    by (apply contains_spec; reflexivity).
  split; [exact H1|]. split; [exact H2|].
  exact (proj2 (proj2 (proj2 (threat_severity_precedence lower headline_both))) H1 H2).
Defined.

(** The three outcomes are reached. *)
Example severity_samples :
  _assess_threat_severity lower headline_both = "High"%string
  /\ _assess_threat_severity lower headline_medium = "Medium"%string
  /\ _assess_threat_severity lower headline_low = "Low"%string.
Proof. repeat split; reflexivity. Qed.

(** Occurrences in the raw text of a title survive the lower-casing of
    ASCII text. *)
Lemma severity_of_raw_title (article : pydict) (title k : string) :
  get_or article "title" (PStr "") = PStr title ->
  Substring k title -> In k high_severity_keywords ->
  _assess_threat_severity lower article = "High"%string.
Proof.
  intros Ht [pre [post ->]] Hin.
  assert (Hh : any_in high_severity_keywords (severity_content lower article) = true).
  { apply any_in_spec. exists k. split; [exact Hin|].
    unfold severity_content. rewrite Ht. cbn [py_str].
    apply lower_keeps_substring.
    - simpl in Hin. intuition (subst; reflexivity).
    - exists pre, (post ++ " " ++ py_str (get_or article "description" (PStr "")))%string.
      now rewrite !append_assoc. }
  unfold _assess_threat_severity. now rewrite Hh.
Qed.

(** ** The identity key *)

Lemma item_data_eq (a b : HeritageItem) :
  py_str (name a) = py_str (name b) -> location a = location b ->
  source a = source b -> item_data a = item_data b.
Proof. unfold item_data. now intros -> -> ->. Qed.

Lemma hash_id_eq (a b : HeritageItem) :
  name a = name b -> location a = location b -> source a = source b ->
  hash_id a = hash_id b.
Proof.
  intros Hn Hl Hs. unfold hash_id. f_equal.
  apply item_data_eq; congruence.
Qed.

(** The hashed text is injective in each of its three parts. *)
Lemma item_data_one_component (a b : HeritageItem) :
  one_component_changed a b -> item_data a <> item_data b.
Proof.
  unfold item_data.
  intros [(Hn & Hl & Hs) | [(Hn & Hl & Hs) | (Hn & Hl & Hs)]] H.
  - rewrite Hl, Hs in H. apply append_cancel_r in H. contradiction.
  - rewrite Hn, Hs in H. apply append_cancel_l in H.
    apply (append_cancel_l "_") in H.
    apply append_cancel_r in H. contradiction.
  - rewrite Hn, Hl in H. do 3 apply append_cancel_l in H.
    apply (append_cancel_l "_") in H. contradiction.
Qed.

(** C2.  [hash_id] is the MD5 digest of a text built from the triple
    (name, location, source) alone: equal triples give equal keys, and
    when exactly one of the three parts is changed the keys differ, unless
    the two hashed texts, which are different, collide under MD5.  (A
    name enters the key as the text [str(name)]; for a name that is a
    string, as the dataclass declares, that is the name itself.) *)
Theorem hash_id_of_triple (a b : HeritageItem) :
  hash_id a
  = MD5.hexdigest (py_str (name a) ++ "_" ++ location a ++ "_" ++ source a)
  /\ (name a = name b -> location a = location b -> source a = source b ->
      hash_id a = hash_id b)
  /\ (one_component_changed a b ->
      hash_id a <> hash_id b \/ md5_collision (item_data a) (item_data b)).
Proof.
  split; [reflexivity|]. split; [apply hash_id_eq|].
  intros H. apply item_data_one_component in H.
  destruct (string_dec (hash_id a) (hash_id b)) as [E|N].
  - right. split; assumption.
  - now left.
Qed.

Lemma hash_id_of_triple_witness :
  hash_id mona_on_display = hash_id mona_in_storage
  /\ (hash_id mona_on_display <> hash_id mona_elsewhere
      \/ md5_collision (item_data mona_on_display) (item_data mona_elsewhere)).
Proof.
  split.
  - apply (proj1 (proj2 (hash_id_of_triple mona_on_display mona_in_storage)));
      reflexivity.
  - apply (proj2 (proj2 (hash_id_of_triple mona_on_display mona_elsewhere))).
    right. left. split; [reflexivity | split; [discriminate | reflexivity]].
Defined.

(** The key of the sample item, as Python computes it. *)
Example hash_id_mona :
  hash_id mona_on_display = "35094c97cffbdbce4ae7de837f4e774e"%string.
Proof. vm_compute. reflexivity. Qed.

(** ** Significance scores *)

Section Scores.

Open Scope Q_scope.

Lemma py_min_le_l (a b : Q) : py_min a b <= a.
Proof.
  unfold py_min. destruct (Qle_bool a b) eqn:E; [lra|].
  apply not_true_iff_false in E. rewrite Qle_bool_iff in E. lra.
Qed.

Lemma py_min_le_r (a b : Q) : py_min a b <= b.
Proof.
  unfold py_min. destruct (Qle_bool a b) eqn:E; [|lra].
  now apply Qle_bool_iff.
Qed.

Lemma py_min_glb (a b c : Q) : c <= a -> c <= b -> c <= py_min a b.
Proof. unfold py_min. now destruct (Qle_bool a b). Qed.

Lemma py_min_Qmin (a b : Q) : py_min a b == Qmin a b.
Proof.
  unfold py_min. destruct (Qle_bool a b) eqn:E.
  - apply Qle_bool_iff in E. symmetry. now apply Q.min_l.
  - apply not_true_iff_false in E. rewrite Qle_bool_iff in E.
    symmetry. apply Q.min_r. lra.
Qed.

(** The museum score starts at 5, only grows, and is cut at 10. *)
Lemma museum_score_range (data : pydict) (s : Q) :
  _calculate_significance_score data = Ok s -> 5 <= s /\ s <= 10.
Proof.
  unfold _calculate_significance_score, rbind.
  destruct (py_any_in famous_artists _) as [famous|]; [|discriminate].
  destruct (py_lower _) as [lowered|]; [|discriminate].
  destruct famous, (any_in age_markers lowered),
    (truthy (get data "isPublicDomain")), (truthy (get data "primaryImage")),
    (truthy (get data "isOnView")).
  all: intros H; injection H as <-; split; [|apply py_min_le_r].
  all: apply py_min_glb; lra.
Qed.

(** The score is computed as soon as the artist and the date of the
    payload are texts or missing. *)
Lemma museum_score_defined (data : pydict) (artist date : string) :
  get_or data "artistDisplayName" (PStr "") = PStr artist ->
  get_or data "objectDate" (PStr "") = PStr date ->
  exists s, _calculate_significance_score data = Ok s.
Proof.
  intros Ha Hd. unfold _calculate_significance_score, rbind.
  rewrite Ha, Hd. simpl. eexists. reflexivity.
Qed.

(** A computed registry score is the formula at the year read from the
    payload, which is within the range of the division. *)
Lemma registry_score_inv (site : pydict) (s : Q) :
  unesco_significance site = Ok s ->
  exists y, py_int (get_or site "date_inscribed" (PInt 2024)) = Ok y
            /\ (Z.abs (2024 - y) < 100 * float_overflow_bound)%Z
            /\ s = py_min (9 + inject_Z (2024 - y) / 100) 10.
Proof.
  unfold unesco_significance, rbind, py_div_100.
  destruct (py_int _) as [y|]; [|discriminate].
  destruct (Z.leb_spec (100 * float_overflow_bound) (Z.abs (2024 - y))) as [Hge|Hlt];
    [discriminate|].
  intros H. exists y. split; [reflexivity|]. split; [exact Hlt | congruence].
Qed.

(** The registry score never exceeds 10. *)
Lemma registry_score_le_10 (site : pydict) (s : Q) :
  unesco_significance site = Ok s -> s <= 10.
Proof.
  intros H. apply registry_score_inv in H as (y & _ & _ & ->). apply py_min_le_r.
Qed.


Lemma registry_term_sign (y : Z) :
  (y <= 2924)%Z <-> 0 <= 9 + inject_Z (2024 - y) / 100.
Proof.
  assert (E : (y <= 2924)%Z <-> inject_Z (-900) <= inject_Z (2024 - y))
    by (rewrite <- Zle_Qle; lia).
  rewrite E. change (inject_Z (-900)) with (-900).
  unfold Qdiv. change (/ 100) with (1 # 100).
  split; intros H; lra.
Qed.

End Scores.

(** ** Reasoning about computations *)

Section Wp.

Context {V : Type}.
Variable e : env.

Lemma wp_conseq {A} (m : SE V A) s (Q Q' : result A -> state * V -> Prop) :
  wp m e s Q -> (forall r s', Q r s' -> Q' r s') -> wp m e s Q'.
Proof. unfold wp. auto. Qed.

Lemma wp_ret {A} (a : A) s (Q : result A -> state * V -> Prop) :
  Q (Ok a) s -> wp (ret a) e s Q.
Proof. exact (fun H => H). Qed.

Lemma wp_raise {A} ex s (Q : result A -> state * V -> Prop) :
  Q (Raise ex) s -> wp (raise ex) e s Q.
Proof. exact (fun H => H). Qed.

Lemma wp_bind {A B} (m : SE V A) (k : A -> SE V B) s Q :
  wp m e s (fun r s' =>
              match r with
              | Ok a => wp (k a) e s' Q
              | Raise ex => Q (Raise ex) s'
              end) ->
  wp (bind m k) e s Q.
Proof. unfold wp, bind. now destruct (m e s) as [[a|ex] s']. Qed.

Lemma wp_try_catch {A} (m : SE V A) (h : exn -> SE V A) s Q :
  wp m e s (fun r s' =>
              match r with
              | Ok a => Q (Ok a) s'
              | Raise ex => wp (h ex) e s' Q
              end) ->
  wp (try_catch m h) e s Q.
Proof. unfold wp, try_catch. now destruct (m e s) as [[a|ex] s']. Qed.

Lemma wp_lift_result {A} (r : result A) s (Q : result A -> state * V -> Prop) :
  Q r s -> wp (lift_result r) e s Q.
Proof. exact (fun H => H). Qed.

Lemma wp_get_local s (Q : result V -> state * V -> Prop) :
  Q (Ok (snd s)) s -> wp get_local e s Q.
Proof. exact (fun H => H). Qed.

Lemma wp_set_local v s (Q : result unit -> state * V -> Prop) :
  Q (Ok tt) (fst s, v) -> wp (set_local v) e s Q.
Proof. exact (fun H => H). Qed.

Lemma wp_get_db s (Q : result database -> state * V -> Prop) :
  Q (Ok (db (fst s))) s -> wp get_db e s Q.
Proof. exact (fun H => H). Qed.

Lemma wp_put_db d s (Q : result unit -> state * V -> Prop) :
  Q (Ok tt) (set_db d (fst s), snd s) -> wp (put_db d) e s Q.
Proof. exact (fun H => H). Qed.

Lemma wp_now s (Q : result datetime -> state * V -> Prop) :
  Q (Ok (clock e (ticks (fst s))))
    ({| db := db (fst s); sent := sent (fst s);
        ticks := S (ticks (fst s)); connects := connects (fst s) |}, snd s) ->
  wp now e s Q.
Proof. exact (fun H => H). Qed.

Lemma wp_lowering s (Q : result (string -> string) -> state * V -> Prop) :
  Q (Ok (str_lower e)) s -> wp lowering e s Q.
Proof. exact (fun H => H). Qed.

Lemma wp_sleep (d : Q) s (P : result unit -> state * V -> Prop) :
  (forall res, P res s) -> wp (sleep d) e s P.
Proof.
  intros H. unfold wp, sleep. cbv zeta.
  destruct (_ || _)%bool; [apply H|]. destruct (_ || _)%bool; apply H.
Qed.

Lemma wp_session_get {A} (endpoint : env -> nat -> request -> reply A) r s
    (Q : result (response A) -> state * V -> Prop) :
  (forall res,
     Q res ({| db := db (fst s); sent := sent (fst s) ++ [r];
               ticks := ticks (fst s); connects := connects (fst s) |}, snd s)) ->
  wp (session_get endpoint r) e s Q.
Proof.
  intros H. unfold wp, session_get.
  destruct (endpoint e _ r); apply H.
Qed.

Lemma wp_raise_for_status {A} (r : response A) s
    (Q : result unit -> state * V -> Prop) :
  (forall res, Q res s) -> wp (raise_for_status r) e s Q.
Proof.
  intros H. unfold wp, raise_for_status.
  destruct (_ && _)%bool; apply H.
Qed.

Lemma wp_json {A} (r : response A) s (Q : result A -> state * V -> Prop) :
  (forall res, Q res s) -> wp (json r) e s Q.
Proof. intros H. unfold wp, json. destruct (body r); apply H. Qed.

(** A loop keeps an invariant that each turn keeps, whether the turn
    ends normally or raises. *)
Lemma wp_for_each {A} (l : list A) (body : A -> SE V unit)
    (I : state * V -> Prop) :
  (forall x s, In x l -> I s -> wp (body x) e s (fun _ s' => I s')) ->
  forall s, I s -> wp (for_each l body) e s (fun _ s' => I s').
Proof.
  induction l as [|x l IH]; intros Hb s Hs; simpl.
  - exact Hs.
  - apply wp_bind.
    apply (wp_conseq (body x) s (fun _ s' => I s')).
    + apply Hb; [now left | exact Hs].
    + intros [[]|ex] s' Hs'; [|exact Hs'].
      apply IH; [|exact Hs']. intros y s0 Hy. apply Hb. now right.
Qed.

(** A loop whose turns never raise does not raise. *)
Lemma wp_for_each_ok {A} (l : list A) (body : A -> SE V unit)
    (I : state * V -> Prop) :
  (forall x s, In x l -> I s -> wp (body x) e s (fun r s' => r = Ok tt /\ I s')) ->
  forall s, I s -> wp (for_each l body) e s (fun r s' => r = Ok tt /\ I s').
Proof.
  induction l as [|x l IH]; intros Hb s Hs; simpl.
  - split; [reflexivity | exact Hs].
  - apply wp_bind.
    apply (wp_conseq (body x) s (fun r s' => r = Ok tt /\ I s')).
    + apply Hb; [now left | exact Hs].
    + intros r s' [-> Hs'].
      apply IH; [|exact Hs']. intros y s0 Hy. apply Hb. now right.
Qed.

Lemma wp_call {A} (m : M A) s (Q : result A -> state * V -> Prop) :
  wp m e (fst s, tt) (fun r s' => Q r (fst s', snd s)) -> wp (call m) e s Q.
Proof.
  unfold wp, call. destruct (m e (fst s, tt)) as [r [s' u]]. exact (fun H => H).
Qed.

Lemma wp_with_connection {A} (body : SE V A) s
    (Q : result A -> state * V -> Prop) :
  let s0 := ({| db := db (fst s); sent := sent (fst s); ticks := ticks (fst s);
                connects := S (connects (fst s)) |}, snd s) in
  match db_fault e (connects (fst s)) with
  | Some msg => Q (Raise (Exn SqliteError msg)) s0
  | None =>
      wp body e s0 (fun r s1 =>
                      match r with
                      | Ok a => Q (Ok a) s1
                      | Raise ex => Q (Raise ex) (set_db (db (fst s)) (fst s1), snd s1)
                      end)
  end ->
  wp (with_connection body) e s Q.
Proof.
  unfold wp, with_connection. cbv zeta.
  destruct (db_fault e (connects (fst s))); [exact (fun H => H)|].
  now destruct (body e _) as [[a|ex] s1].
Qed.

End Wp.

Lemma wp_with_locals {V A} (e : env) (v0 : V) (body : SE V A) s
    (Q : result (A * V) -> state * unit -> Prop) :
  wp body e (fst s, v0)
     (fun r s' =>
        match r with
        | Ok a => Q (Ok (a, snd s')) (fst s', tt)
        | Raise ex => Q (Raise ex) (fst s', tt)
        end) ->
  wp (with_locals v0 body) e s Q.
Proof.
  unfold wp, with_locals.
  now destruct (body e (fst s, v0)) as [[a|ex] [s' v]].
Qed.

Lemma wp_and {V A} (e : env) (m : SE V A) s (Q1 Q2 : result A -> state * V -> Prop) :
  wp m e s Q1 -> wp m e s Q2 -> wp m e s (fun r s' => Q1 r s' /\ Q2 r s').
Proof. unfold wp. now split. Qed.

(** From a postcondition to the outcome of [run]. *)
Lemma wp_run {A} (m : M A) (e : env) (s : state) (Q : result A -> state * unit -> Prop) :
  wp m e (s, tt) Q -> Q (fst (run m e s)) (snd (run m e s), tt).
Proof.
  unfold wp, run. now destruct (m e (s, tt)) as [r [s' []]].
Qed.

Lemma same_store_refl (s : state) : same_store s s.
Proof. now split. Qed.

Ltac wp_step :=
  lazymatch goal with
  | |- wp (bind _ _) _ _ _ => apply wp_bind
  | |- wp (try_catch _ _) _ _ _ => apply wp_try_catch
  | |- wp (ret _) _ _ _ => apply wp_ret
  | |- wp (raise _) _ _ _ => apply wp_raise
  | |- wp (lift_result _) _ _ _ => apply wp_lift_result
  | |- wp get_local _ _ _ => apply wp_get_local
  | |- wp (set_local _) _ _ _ => apply wp_set_local
  | |- wp now _ _ _ => apply wp_now
  | |- wp lowering _ _ _ => apply wp_lowering
  | |- wp (sleep _) _ _ _ => apply wp_sleep; intros [[]|?ex]
  | |- wp get_db _ _ _ => apply wp_get_db
  | |- wp (put_db _) _ _ _ => apply wp_put_db
  | |- wp (call _) _ _ _ => apply wp_call
  | |- wp (with_locals _ _) _ _ _ => apply wp_with_locals
  | |- wp (session_get _ _) _ _ _ => apply wp_session_get; intros [?resp|?ex]
  | |- wp (raise_for_status _) _ _ _ => apply wp_raise_for_status; intros [[]|?ex]
  | |- wp (json _) _ _ _ => apply wp_json; intros [?data|?ex]
  end;
  cbv beta iota zeta.

(** ** The source adapters *)

Lemma process_unesco_site_spec (e : env) (s0 : state) (site : pydict) s :
  same_store s0 (fst s) /\ Forall registry_scored (snd s) ->
  wp (process_unesco_site site) e s
     (fun _ s' => same_store s0 (fst s') /\ Forall registry_scored (snd s')).
Proof.
  intros [Hs Hi]. unfold process_unesco_site.
  wp_step. wp_step.
  destruct (unesco_significance site) as [sig|ex] eqn:Esig; [|now split].
  wp_step. wp_step. wp_step. wp_step. wp_step.
  split; [exact Hs|].
  apply Forall_app. split; [exact Hi|].
  constructor; [|constructor].
  apply registry_score_inv in Esig as (y & Ey & _ & ->).
  exists y. split; [|reflexivity].
  unfold inscription_year. cbn [period].
  unfold get_or in *. destruct (lookup site "date_inscribed") as [v|].
  - now right.
  - left. split; [reflexivity|]. now injection Ey.
Qed.

Ltac store_ok :=
  unfold same_store in *; cbn [db connects fst snd set_db] in *;
  try tauto; try (intuition congruence).

Lemma collect_unesco_body_spec (e : env) (s0 : state) (cfg : config) s :
  same_store s0 (fst s) /\ Forall registry_scored (snd s) ->
  wp (collect_unesco_body cfg) e s
     (fun _ s' => same_store s0 (fst s') /\ Forall registry_scored (snd s')).
Proof.
  intros H. unfold collect_unesco_body.
  wp_step. wp_step; [|store_ok].
  wp_step. wp_step; [|store_ok].
  wp_step. wp_step; [|store_ok].
  apply (wp_for_each e data process_unesco_site
           (fun s' => same_store s0 (fst s') /\ Forall registry_scored (snd s'))).
  - intros site s1 _ H1. now apply process_unesco_site_spec.
  - store_ok.
Qed.

(** [collect_unesco_data] never raises and leaves the store alone; each
    item it returns was scored by the registry rule. *)
Lemma collect_unesco_data_spec (e : env) (cfg : config) (s : state) :
  wp (collect_unesco_data cfg) e (s, tt)
     (fun r s' => same_store s (fst s')
                  /\ exists items, r = Ok items /\ Forall registry_scored items).
Proof.
  unfold collect_unesco_data.
  wp_step. wp_step. wp_step.
  apply (wp_conseq e (collect_unesco_body cfg) _
           (fun _ s' => same_store s (fst s') /\ Forall registry_scored (snd s'))).
  - apply collect_unesco_body_spec. split; [apply same_store_refl | constructor].
  - intros [[]|ex] s' [Hs Hi]; repeat wp_step; cbn [fst snd];
      (split; [exact Hs | eexists; split; [reflexivity | exact Hi]]).
Qed.

Lemma process_met_object_spec (e : env) (s0 : state) (cfg : config) (obj_id : Z) s :
  same_store s0 (fst s) /\ Forall museum_scored (snd s) ->
  wp (process_met_object cfg obj_id) e s
     (fun _ s' => same_store s0 (fst s') /\ Forall museum_scored (snd s')).
Proof.
  intros H. unfold process_met_object.
  wp_step. wp_step; [|store_ok].
  wp_step. wp_step; [|store_ok].
  wp_step. wp_step; [|store_ok].
  destruct (negb (truthy (get data "title"))
            || negb (truthy (get data "isPublicDomain")))%bool eqn:Efilter.
  - wp_step. store_ok.
  - wp_step. wp_step.
    destruct (_calculate_significance_score data) as [sig|ex] eqn:Esig; [|store_ok].
    wp_step. wp_step. wp_step. wp_step.
    destruct (_assess_threat_level (str_lower e) data) as [threat|ex]; [|store_ok].
    wp_step. wp_step. wp_step. wp_step. wp_step.
    cbn [fst snd]. split; [store_ok|].
    apply Forall_app. split; [apply H|].
    constructor; [|constructor].
    exists data. split; [|exact Esig].
    unfold accepted. apply orb_false_iff in Efilter as [H1 H2].
    apply negb_false_iff in H1, H2. now rewrite H1, H2.
Qed.

(** [_process_met_batch] never raises. *)
Lemma _process_met_batch_spec (e : env) (cfg : config) (ids : list Z) (s : state) :
  wp (_process_met_batch cfg ids) e (s, tt)
     (fun r s' => same_store s (fst s')
                  /\ exists items, r = Ok items /\ Forall museum_scored items).
Proof.
  unfold _process_met_batch.
  wp_step. wp_step.
  apply (wp_conseq e _ _
           (fun r s' => r = Ok tt
                        /\ same_store s (fst s') /\ Forall museum_scored (snd s'))).
  - apply (wp_for_each_ok e ids _
             (fun s' => same_store s (fst s') /\ Forall museum_scored (snd s'))).
    + intros obj_id s1 _ H1. wp_step.
      apply (wp_conseq e _ _ _ _ (process_met_object_spec e s cfg obj_id s1 H1)).
      intros [[]|ex] s' H'; [|wp_step]; now split.
    + split; [apply same_store_refl | constructor].
  - intros r s' (-> & Hs & Hi). wp_step. cbn [fst snd].
    split; [exact Hs | eexists; split; [reflexivity | exact Hi]].
Qed.

Lemma collect_met_museum_body_spec (e : env) (s0 : state) (cfg : config) ids s :
  same_store s0 (fst s) /\ Forall museum_scored (snd s) ->
  wp (collect_met_museum_body cfg ids) e s
     (fun _ s' => same_store s0 (fst s') /\ Forall museum_scored (snd s')).
Proof.
  intros H. unfold collect_met_museum_body. cbv zeta.
  wp_step.
  apply (wp_conseq e _ _ (fun _ s' => same_store s0 (fst s') /\ Forall museum_scored (snd s'))).
  { destruct ids as [[|i ids]|]; apply wp_session_get; intros res; store_ok. }
  intros [resp|ex] s1 H1; [|exact H1].
  wp_step. wp_step; [|store_ok].
  wp_step. wp_step; [|store_ok].
  wp_step.
  apply (wp_conseq e _ _ (fun _ s' => same_store s0 (fst s') /\ Forall museum_scored (snd s'))).
  { destruct data; wp_step; exact H1. }
  intros [object_ids|ex] s2 H2; [|exact H2].
  wp_step. wp_step.
  destruct (py_range _ _) as [starts|ex]; [|exact H2].
  apply (wp_for_each e starts _
           (fun s' => same_store s0 (fst s') /\ Forall museum_scored (snd s'))); [|exact H2].
  intros i s3 _ H3.
  wp_step. wp_step.
  apply (wp_conseq e _ _ _ _ (_process_met_batch_spec e cfg _ (fst s3))).
  intros r s4 (Hs4 & items & -> & Hitems).
  wp_step. wp_step. wp_step. wp_step. wp_step. cbn [fst snd].
  all: (split; [destruct H3; store_ok|]).
  all: apply Forall_app; split; [apply H3 | exact Hitems].
Qed.

(** [collect_met_museum_data] never raises and leaves the store alone;
    each item it returns was scored by the museum rule on an accepted
    payload. *)
Lemma collect_met_museum_data_spec (e : env) (cfg : config) ids (s : state) :
  wp (collect_met_museum_data cfg ids) e (s, tt)
     (fun r s' => same_store s (fst s')
                  /\ exists items, r = Ok items /\ Forall museum_scored items).
Proof.
  unfold collect_met_museum_data.
  wp_step. wp_step. wp_step.
  apply (wp_conseq e (collect_met_museum_body cfg ids) _
           (fun _ s' => same_store s (fst s') /\ Forall museum_scored (snd s'))).
  - apply collect_met_museum_body_spec. split; [apply same_store_refl | constructor].
  - intros [[]|ex] s' [Hs Hi]; repeat wp_step; cbn [fst snd];
      (split; [exact Hs | eexists; split; [reflexivity | exact Hi]]).
Qed.

Lemma process_article_spec (e : env) (s0 : state) (keyword : string) (a : article)
    (s : state * list pydict) :
  same_store s0 (fst s) ->
  wp (process_article keyword a) e s (fun _ s' => same_store s0 (fst s')).
Proof.
  intros H. unfold process_article.
  wp_step. wp_step.
  destruct (article_source_name a); [|exact H].
  repeat wp_step. exact H.
Qed.

Lemma wp_sleep_keeps {V} (e : env) (d : Q) (s : state * V) (I : state * V -> Prop) :
  I s -> wp (sleep d) e s (fun _ s' => I s').
Proof. intros H. apply wp_sleep. intros _. exact H. Qed.

Lemma search_keyword_spec (e : env) (s0 : state) (cfg : config) (keyword : string)
    (s : state * list pydict) :
  same_store s0 (fst s) ->
  wp (search_keyword cfg keyword) e s (fun _ s' => same_store s0 (fst s')).
Proof.
  intros H. unfold search_keyword.
  wp_step. wp_step. wp_step. wp_step.
  destruct (thirty_days_before _) as [from|ex]; [|store_ok].
  cbv zeta.
  wp_step. wp_step; [|store_ok].
  wp_step. wp_step; [|store_ok].
  wp_step. wp_step; [|store_ok].
  wp_step.
  apply (wp_conseq e _ _ (fun _ s' => same_store s0 (fst s'))).
  { destruct data; wp_step; store_ok. }
  intros [articles|ex] s1 H1; [|exact H1].
  wp_step.
  eapply wp_conseq.
  - apply (wp_for_each e articles _ (fun s' => same_store s0 (fst s'))); [|exact H1].
    intros a s2 _ H2. now apply process_article_spec.
  - intros [[]|ex] s2 H2; [|exact H2]. now apply wp_sleep_keeps.
Qed.

(** [monitor_cultural_threats] never raises and leaves the store alone. *)
Lemma monitor_cultural_threats_spec (e : env) (cfg : config) keywords (s : state) :
  wp (monitor_cultural_threats cfg keywords) e (s, tt)
     (fun r s' => same_store s (fst s') /\ exists threats, r = Ok threats).
Proof.
  unfold monitor_cultural_threats.
  destruct (negb (truthy (news_api_key cfg))).
  - wp_step. split; [apply same_store_refl | now eexists].
  - cbv zeta. wp_step. wp_step. wp_step.
    apply (wp_conseq e _ _ (fun _ s' => same_store s (fst s'))).
    + apply (wp_for_each e _ _ (fun s' => same_store s (fst s')));
        [|apply same_store_refl].
      intros k s1 _ H1. now apply search_keyword_spec.
    + intros [[]|ex] s' Hs; repeat wp_step; cbn [fst snd];
        (split; [exact Hs | now eexists]).
Qed.

(** ** The store *)

(** A turn that completes has the effect [upsert]; so has the loop. *)
Lemma save_item_ok (item : HeritageItem) acc acc' :
  save_item item acc = Ok acc' -> acc' = upsert item acc.
Proof.
  unfold save_item, upsert, rbind. destruct acc as [rows [n u]].
  destruct (select_id (hash_id item) rows); [congruence|].
  destruct (insert_row_check item); [congruence | discriminate].
Qed.

Lemma save_loop_ok (items : list HeritageItem) : forall acc out,
  save_loop items acc = Ok out ->
  out = fold_left (fun acc item => upsert item acc) items acc.
Proof.
  induction items as [|item items IH]; intros acc out; cbn [save_loop fold_left].
  - congruence.
  - unfold rbind. destruct (save_item item acc) as [acc'|ex] eqn:E; [|discriminate].
    apply save_item_ok in E. subst acc'. apply IH.
Qed.

Lemma save_items_ok (items : list HeritageItem) (rows : list heritage_row) out :
  save_items items rows = Ok out -> out = upsert_all items rows.
Proof. apply save_loop_ok. Qed.

(** What [save_to_database] does, given whether its connection opens and
    whether a statement of its loop raises. *)
Lemma save_to_database_spec (e : env) (items : list HeritageItem) (s : state) :
  wp (save_to_database items) e (s, tt)
     (fun r s' =>
        connects (fst s') = S (connects s)
        /\ sent (fst s') = sent s /\ ticks (fst s') = ticks s
        /\ threat_monitoring (db (fst s')) = threat_monitoring (db s)
        /\ collection_stats (db (fst s')) = collection_stats (db s)
        /\ match db_fault e (connects s) with
           | Some msg => r = Raise (Exn SqliteError msg) /\ db (fst s') = db s
           | None =>
               match save_items items (heritage_items (db s)) with
               | Ok saved =>
                   r = Ok (snd saved)
                   /\ db (fst s') = set_heritage_items (fst saved) (db s)
               | Raise ex => r = Raise ex /\ db (fst s') = db s
               end
           end).
Proof.
  unfold save_to_database. apply wp_with_connection. cbv zeta. cbn [fst snd].
  destruct (db_fault e (connects s)) as [msg|].
  - cbn [connects sent ticks db fst]. repeat split; reflexivity.
  - wp_step. wp_step. cbn [fst db]. wp_step. wp_step.
    destruct (save_items items (heritage_items (db s))) as [saved|ex].
    + wp_step. wp_step. wp_step.
      cbn [fst snd set_db connects sent ticks db threat_monitoring collection_stats
           set_heritage_items].
      repeat split; reflexivity.
    + cbn [fst snd set_db connects sent ticks db]. repeat split; reflexivity.
Qed.

(** The loop of [save_threats_to_database]: the rows it adds when it
    completes; in any case it touches the threat table alone. *)
Lemma save_threats_loop_rows (e : env) (threats : list pydict) : forall s (k : nat),
  wp (for_each threats (fun threat =>
        t <- now ;;
        lift_result (insert_threat_check threat) ;;;
        d <- get_db ;;
        put_db (insert_threat threat t d) ;;;
        saved_threats <- get_local ;;
        set_local (S saved_threats))) e (s, k)
     (fun r s' =>
        connects (fst s') = connects s
        /\ sent (fst s') = sent s
        /\ heritage_items (db (fst s')) = heritage_items (db s)
        /\ collection_stats (db (fst s')) = collection_stats (db s)
        /\ (r = Ok tt ->
            snd s' = (k + List.length threats)%nat
            /\ exists added,
                 threat_monitoring (db (fst s')) = threat_monitoring (db s) ++ added
                 /\ map threat_row_values added = map threat_values threats
                 /\ map tcol_detected_date added
                    = map (clock e) (seq (ticks s) (List.length threats)))).
Proof.
  induction threats as [|threat threats IH]; intros s k; simpl for_each.
  - wp_step. cbn [fst snd List.length]. repeat split; auto with arith.
    exists []. now rewrite app_nil_r.
  - wp_step. wp_step. wp_step. wp_step. wp_step.
    destruct (insert_threat_check threat) as [[]|ex].
    + repeat wp_step. cbn [fst snd set_db].
      eapply wp_conseq; [apply IH|].
      intros r s' (Hn & Hs & Hh & Hc & Hok).
      cbn [db set_db heritage_items collection_stats threat_monitoring insert_threat
           ticks connects sent] in *.
      repeat split; auto.
      * destruct (Hok H) as [Hk _]. rewrite Hk. cbn [List.length]. lia.
      * destruct (Hok H) as (_ & added & Ht & Hv & Hd).
        eexists (_ :: added). rewrite Ht, <- app_assoc. split; [reflexivity|].
        cbn [map List.length seq]. rewrite Hv, Hd. split; reflexivity.
    + cbn [fst snd connects sent db].
      split; [reflexivity|]. split; [reflexivity|]. split; [reflexivity|].
      split; [reflexivity | discriminate].
Qed.

(** What [save_threats_to_database] does. *)
Lemma save_threats_to_database_spec (e : env) (threats : list pydict) (s : state) :
  wp (save_threats_to_database threats) e (s, tt)
     (fun r s' =>
        connects (fst s') = S (connects s)
        /\ sent (fst s') = sent s
        /\ heritage_items (db (fst s')) = heritage_items (db s)
        /\ collection_stats (db (fst s')) = collection_stats (db s)
        /\ match r with
           | Ok n =>
               n = List.length threats
               /\ exists added,
                    threat_monitoring (db (fst s')) = threat_monitoring (db s) ++ added
                    /\ map threat_row_values added = map threat_values threats
           | Raise ex => db (fst s') = db s
           end).
Proof.
  unfold save_threats_to_database.
  wp_step. wp_step. apply wp_with_connection. cbv zeta. cbn [fst snd].
  destruct (db_fault e (connects s)) as [msg|].
  - cbn [fst snd connects sent db]. repeat split; reflexivity.
  - eapply wp_conseq; [apply save_threats_loop_rows|].
    intros r s' (Hn & Hs & Hh & Hc & Hok). cbn [connects sent db fst snd] in *.
    destruct r as [[]|ex].
    + wp_step. cbn [fst snd]. destruct (Hok eq_refl) as (Hk & added & Ht & Hv & _).
      repeat split; auto. now exists added.
    + cbn [fst snd set_db connects sent db]. repeat split; auto.
Qed.

Lemma existsb_eqb_In (h : string) (l : list string) :
  existsb (String.eqb h) l = true <-> In h l.
Proof.
  rewrite existsb_exists. split.
  - intros [x [Hin E]]. apply String.eqb_eq in E. now subst.
  - intros Hin. exists h. split; [exact Hin | apply String.eqb_refl].
Qed.

Lemma select_id_none (h : string) (rows : list heritage_row) :
  select_id h rows = None <-> ~ In h (map col_hash_id rows).
Proof.
  unfold select_id. induction rows as [|r rows IH]; simpl.
  - tauto.
  - destruct (String.eqb_spec (col_hash_id r) h) as [E|N]; simpl.
    + split; [discriminate | intros H; exfalso; apply H; now left].
    + rewrite IH. tauto.
Qed.

Lemma update_row_hash (item : HeritageItem) (h : string) (r : heritage_row) :
  col_hash_id (update_row item h r) = col_hash_id r.
Proof. unfold update_row. now destruct (col_hash_id r =? h)%string. Qed.

Lemma update_rows_hashes (item : HeritageItem) (h : string) (rows : list heritage_row) :
  map col_hash_id (map (update_row item h) rows) = map col_hash_id rows.
Proof.
  rewrite map_map. apply map_ext. intros r. apply update_row_hash.
Qed.

Lemma keyed_update (item : HeritageItem) (h : string) (rows : list heritage_row) :
  keyed h (map (update_row item h) rows) = map (update_row item h) (keyed h rows).
Proof.
  unfold keyed. induction rows as [|r rows IH]; simpl; [reflexivity|].
  rewrite update_row_hash.
  destruct (col_hash_id r =? h)%string; simpl; now rewrite IH.
Qed.

Lemma keyed_absent (h : string) (rows : list heritage_row) :
  ~ In h (map col_hash_id rows) -> keyed h rows = [].
Proof.
  unfold keyed. induction rows as [|r rows IH]; simpl; intros H; [reflexivity|].
  destruct (String.eqb_spec (col_hash_id r) h) as [E|N]; [tauto|].
  apply IH. tauto.
Qed.

(** Under the uniqueness constraint a stored key has one row. *)
Lemma keyed_unique (h : string) (rows : list heritage_row) :
  unique_hash_id rows -> In h (map col_hash_id rows) ->
  exists r, keyed h rows = [r].
Proof.
  unfold unique_hash_id, keyed. induction rows as [|r rows IH]; simpl; intros Hnd Hin.
  - contradiction.
  - inversion Hnd as [|x l Hx Hnd']; subst.
    destruct (String.eqb_spec (col_hash_id r) h) as [E|N].
    + exists r. f_equal. apply keyed_absent. now rewrite <- E.
    + destruct Hin as [E|Hin]; [contradiction|]. now apply IH.
Qed.

(** One turn of the loop keeps the uniqueness constraint. *)
Lemma save_item_unique (item : HeritageItem) rows counts :
  unique_hash_id rows -> unique_hash_id (fst (upsert item (rows, counts))).
Proof.
  unfold unique_hash_id, upsert. destruct counts as [n u].
  destruct (select_id (hash_id item) rows) eqn:E; cbn [fst]; intros Hnd.
  - now rewrite update_rows_hashes.
  - apply select_id_none in E. unfold insert_row.
    rewrite map_app. cbn [map col_hash_id].
    apply NoDup_app; [exact Hnd | repeat constructor; simpl; tauto |].
    intros x Hx [<-|[]]. contradiction.
Qed.

Lemma save_items_fold_unique (items : list HeritageItem) : forall acc,
  unique_hash_id (fst acc) ->
  unique_hash_id (fst (fold_left (fun acc item => upsert item acc) items acc)).
Proof.
  induction items as [|item items IH]; intros [rows counts] H; simpl; [exact H|].
  apply IH. now apply save_item_unique.
Qed.

(** [save_to_database] keeps the uniqueness constraint of the table. *)
Lemma save_items_unique (items : list HeritageItem) (rows : list heritage_row) :
  unique_hash_id rows -> unique_hash_id (fst (upsert_all items rows)).
Proof. intros H. unfold upsert_all. now apply save_items_fold_unique. Qed.

(** The outcome of a successful [save_to_database] is that of its loop. *)
Lemma save_to_database_ok (e : env) (items : list HeritageItem) (s s' : state) counts :
  run (save_to_database items) e s = (Ok counts, s') ->
  counts = snd (upsert_all items (heritage_items (db s)))
  /\ heritage_items (db s') = fst (upsert_all items (heritage_items (db s))).
Proof.
  intros H.
  pose proof (wp_run _ e s _ (save_to_database_spec e items s)) as W.
  rewrite H in W. cbn [fst snd] in W. destruct W as (_ & _ & _ & _ & _ & W).
  destruct (db_fault e (connects s)); [destruct W as [W1 W2]; discriminate|].
  destruct (save_items items (heritage_items (db s))) as [saved|ex] eqn:E;
    destruct W as [W1 W2]; [|discriminate].
  apply save_items_ok in E. subst saved.
  injection W1 as ->. rewrite W2. now split.
Qed.

Lemma select_id_some (h : string) (rows : list heritage_row) :
  In h (map col_hash_id rows) -> exists i, select_id h rows = Some i.
Proof.
  intros Hin. destruct (select_id h rows) as [i|] eqn:E; [now exists i|].
  apply select_id_none in E. contradiction.
Qed.

(** After its turn an item's key is stored. *)
Lemma save_item_stored (item : HeritageItem) rows counts :
  In (hash_id item) (map col_hash_id (fst (upsert item (rows, counts)))).
Proof.
  unfold upsert. destruct counts as [n u].
  destruct (select_id (hash_id item) rows) eqn:E; cbn [fst].
  - rewrite update_rows_hashes.
    destruct (in_dec string_dec (hash_id item) (map col_hash_id rows)) as [H|H];
      [exact H|].
    apply select_id_none in H. congruence.
  - unfold insert_row. rewrite map_app. apply in_or_app. right. now left.
Qed.

(** The columns an update writes. *)
Lemma update_row_written (item : HeritageItem) (r : heritage_row) :
  col_hash_id r = hash_id item ->
  let r' := update_row item (hash_id item) r in
  col_significance_score r' = significance_score item
  /\ col_threat_level r' = threat_level item
  /\ col_metadata r' = metadata item
  /\ col_last_updated r' = last_updated item
  /\ col_id r' = col_id r /\ col_name r' = col_name r
  /\ col_location r' = col_location r /\ col_source r' = col_source r.
Proof.
  intros E. unfold update_row. rewrite E, String.eqb_refl. cbn. tauto.
Qed.

Lemma save_items_one (item : HeritageItem) (rows : list heritage_row) :
  upsert_all [item] rows = upsert item (rows, (0, 0)%nat).
Proof. reflexivity. Qed.

(** C1.  Saving an item and then a second item with the same name,
    location and source leaves one row under their identity key; the
    second call returns (0, 1), that is one update and nothing new; and
    the row carries the score, the threat level and the metadata of the
    second item.  The table is under its uniqueness constraint on
    [hash_id]. *)
Theorem upsert_idempotent (e : env) (s s1 s2 : state) (a b : HeritageItem)
    (c1 c2 : nat * nat) :
  unique_hash_id (heritage_items (db s)) ->
  name a = name b -> location a = location b -> source a = source b ->
  run (save_to_database [a]) e s = (Ok c1, s1) ->
  run (save_to_database [b]) e s1 = (Ok c2, s2) ->
  c2 = (0, 1)%nat
  /\ exists r,
       filter (fun r => (col_hash_id r =? hash_id b)%string) (heritage_items (db s2)) = [r]
       /\ col_significance_score r = significance_score b
       /\ col_threat_level r = threat_level b
       /\ col_metadata r = metadata b.
Proof.
  intros Hu Hn Hl Hs R1 R2.
  apply save_to_database_ok in R1 as [_ R1], R2 as [C2 R2].
  assert (Hh : hash_id a = hash_id b) by now apply hash_id_eq.
  set (rows1 := heritage_items (db s1)) in *.
  assert (Hin : In (hash_id b) (map col_hash_id rows1)).
  { rewrite R1, <- Hh, save_items_one. apply save_item_stored. }
  assert (Hu1 : unique_hash_id rows1).
  { rewrite R1. now apply save_items_unique. }
  destruct (select_id_some _ _ Hin) as [i Hsel].
  destruct (keyed_unique _ _ Hu1 Hin) as [r1 Hr1].
  rewrite save_items_one in C2, R2.
  unfold upsert in C2, R2. rewrite Hsel in C2, R2. cbn [fst snd] in C2, R2.
  split; [exact C2|].
  exists (update_row b (hash_id b) r1).
  fold (keyed (hash_id b) (heritage_items (db s2))).
  rewrite R2, keyed_update, Hr1. split; [reflexivity|].
  assert (Hk : col_hash_id r1 = hash_id b).
  { assert (Hm : In r1 (keyed (hash_id b) rows1)) by (rewrite Hr1; now left).
    apply filter_In in Hm as [_ Hm]. now apply String.eqb_eq. }
  destruct (update_row_written b r1 Hk) as (H1 & H2 & H3 & _). auto.
Qed.

Lemma upsert_idempotent_witness :
  exists r,
    filter (fun r => (col_hash_id r =? hash_id mona_in_storage)%string)
           (heritage_items (db after_second_sighting)) = [r]
    /\ col_significance_score r = 5.5%Q
    /\ col_threat_level r = "Medium"%string
    /\ col_metadata r = metadata mona_in_storage.
Proof.
  refine (proj2 (upsert_idempotent offline_env initial_state
                   after_first_sighting after_second_sighting
                   mona_on_display mona_in_storage (1, 0)%nat (0, 1)%nat
                   _ eq_refl eq_refl eq_refl _ _)).
  - constructor.
  - vm_compute. reflexivity.
  - vm_compute. reflexivity.
Defined.

(** The end-to-end scenario: one row, first Low with score 6, then Medium. *)
Example mona_scenario :
  map (fun r => (col_id r, col_threat_level r, col_hash_id r))
      (heritage_items (db after_first_sighting))
  = [(1, "Low", "35094c97cffbdbce4ae7de837f4e774e")%string]
  /\ map (fun r => (col_id r, col_threat_level r, col_hash_id r))
         (heritage_items (db after_second_sighting))
     = [(1, "Medium", "35094c97cffbdbce4ae7de837f4e774e")%string].
Proof. vm_compute. split; reflexivity. Qed.

(** ** Counting new and updated items *)

Lemma first_sightings_stored (stored keys : list string) (h : string) :
  In h stored -> first_sightings stored (h :: keys) = first_sightings stored keys.
Proof.
  intros Hin. unfold first_sightings. simpl filter.
  apply existsb_eqb_In in Hin. now rewrite Hin.
Qed.

Lemma first_sightings_In (stored keys : list string) (x : string) :
  In x (first_sightings stored keys) <-> In x keys /\ ~ In x stored.
Proof.
  unfold first_sightings. rewrite nodup_In, filter_In.
  rewrite negb_true_iff, <- not_true_iff_false, existsb_eqb_In. tauto.
Qed.

Lemma first_sightings_fresh (stored keys : list string) (h : string) :
  ~ In h stored ->
  List.length (first_sightings stored (h :: keys))
  = S (List.length (first_sightings (stored ++ [h]) keys)).
Proof.
  intros Hn.
  change (S (List.length (first_sightings (stored ++ [h]) keys)))
    with (List.length (h :: first_sightings (stored ++ [h]) keys)).
  apply Permutation_length, NoDup_Permutation.
  - apply NoDup_nodup.
  - constructor; [|apply NoDup_nodup].
    rewrite first_sightings_In, in_app_iff. simpl. tauto.
  - intros x. simpl. rewrite !first_sightings_In, in_app_iff. simpl.
    destruct (string_dec h x) as [->|N]; tauto.
Qed.

Lemma save_items_fold_counts (items : list HeritageItem) :
  forall rows n0 u0,
    let out := fold_left (fun acc item => upsert item acc) items (rows, (n0, u0)) in
    (fst (snd out)
     = n0 + List.length (first_sightings (map col_hash_id rows) (map hash_id items)))%nat
    /\ (fst (snd out) + snd (snd out) = n0 + u0 + List.length items)%nat.
Proof.
  induction items as [|item items IH]; intros rows n0 u0; cbv zeta.
  - simpl. unfold first_sightings. simpl. lia.
  - cbn [fold_left map]. unfold upsert at 2 4 6.
    destruct (select_id (hash_id item) rows) as [i|] eqn:E.
    + specialize (IH (map (update_row item (hash_id item)) rows) n0 (S u0)).
      cbv zeta in IH. destruct IH as [IH1 IH2].
      rewrite update_rows_hashes in IH1.
      rewrite first_sightings_stored.
      * simpl List.length. split; [exact IH1 | lia].
      * destruct (in_dec string_dec (hash_id item) (map col_hash_id rows)) as [H|H];
          [exact H|]. apply select_id_none in H. congruence.
    + apply select_id_none in E.
      specialize (IH (insert_row item (hash_id item) rows) (S n0) u0).
      cbv zeta in IH. destruct IH as [IH1 IH2].
      unfold insert_row in IH1 at 2. rewrite map_app in IH1. cbn [map col_hash_id] in IH1.
      rewrite (first_sightings_fresh _ _ _ E).
      simpl List.length. split; lia.
Qed.

(** C10.  The pair returned by [save_to_database] splits the input:
    new_items + updated_items is the number of items passed.  An item is
    new when its key is neither stored nor borne by an earlier item of the
    list, so new_items counts the distinct keys of the list that were not
    stored; in particular two items with one key not yet stored count one
    new and one updated. *)
Theorem save_counts_partition (e : env) (s s' : state) (items : list HeritageItem)
    (new updated : nat) :
  run (save_to_database items) e s = (Ok (new, updated), s') ->
  let stored := map col_hash_id (heritage_items (db s)) in
  (new + updated = List.length items)%nat
  /\ new = List.length (first_sightings stored (map hash_id items))
  /\ (forall a b, items = [a; b] -> hash_id a = hash_id b ->
      ~ In (hash_id a) stored -> new = 1%nat /\ updated = 1%nat).
Proof.
  intros R stored. apply save_to_database_ok in R as [C _].
  destruct (save_items_fold_counts items (heritage_items (db s)) 0 0) as [H1 H2].
  fold (upsert_all items (heritage_items (db s))) in H1, H2.
  rewrite <- C in H1, H2. cbn [fst snd] in H1, H2.
  assert (Hnew : new = List.length (first_sightings stored (map hash_id items)))
    by exact H1.
  split; [lia|]. split; [exact Hnew|].
  intros a b -> Hab Hfresh.
  assert (new = 1%nat); [|simpl in H2; lia].
  rewrite Hnew. cbn [map].
  rewrite (first_sightings_fresh _ _ _ Hfresh), first_sightings_stored.
  - reflexivity.
  - rewrite <- Hab. apply in_or_app. right. now left.
Qed.

Lemma save_counts_partition_witness :
  (1 + 1 = List.length [mona_on_display; mona_in_storage])%nat
  /\ 1%nat = List.length (first_sightings [] (map hash_id [mona_on_display; mona_in_storage])).
Proof.
  assert (R : run (save_to_database [mona_on_display; mona_in_storage])
                  offline_env initial_state
              = (Ok (1, 1)%nat, after_double_sighting))
    by (vm_compute; reflexivity).
  pose proof (save_counts_partition offline_env initial_state after_double_sighting
                [mona_on_display; mona_in_storage] 1 1 R) as H.
  cbv zeta in H. split; [exact (proj1 H) | exact (proj1 (proj2 H))].
Defined.

(** ** Bounds on the scores *)

(** C9.  The score computed for a museum payload that passes the filter
    (a title and the public-domain flag) is at least 5 and at most 10. *)
Theorem museum_score_at_least_5 (data : pydict) (s : Q) :
  accepted data = true ->
  _calculate_significance_score data = Ok s ->
  (5 <= s)%Q /\ (s <= 10)%Q.
Proof. intros _. apply museum_score_range. Qed.

Lemma museum_score_at_least_5_witness :
  exists s, _calculate_significance_score mona_payload = Ok s
            /\ (s == 6)%Q /\ (5 <= s)%Q /\ (s <= 10)%Q.
Proof.
  exists (600 # 100)%Q.
  assert (E : _calculate_significance_score mona_payload = Ok (600 # 100)%Q)
    by (vm_compute; reflexivity).
  split; [exact E|]. split; [reflexivity|].
  exact (museum_score_at_least_5 mona_payload (600 # 100)%Q eq_refl E).
Defined.

(** Every turn of the loop of [save_to_database] leaves in each row the
    score it had or the score of the item of that turn. *)
Lemma save_item_scores (item : HeritageItem) rows counts (r : heritage_row) :
  In r (fst (upsert item (rows, counts))) ->
  (exists r0, In r0 rows /\ col_significance_score r = col_significance_score r0)
  \/ col_significance_score r = significance_score item.
Proof.
  unfold upsert. destruct counts as [n u].
  destruct (select_id (hash_id item) rows); cbn [fst]; intros Hin.
  - apply in_map_iff in Hin as [r0 [<- Hin]]. unfold update_row.
    destruct (col_hash_id r0 =? hash_id item)%string; [now right|].
    left. now exists r0.
  - unfold insert_row in Hin. apply in_app_or in Hin as [Hin|[<-|[]]].
    + left. now exists r.
    + now right.
Qed.

Lemma save_items_fold_scores (items : list HeritageItem) : forall acc r,
  In r (fst (fold_left (fun acc item => upsert item acc) items acc)) ->
  (exists r0, In r0 (fst acc) /\ col_significance_score r = col_significance_score r0)
  \/ (exists item, In item items /\ col_significance_score r = significance_score item).
Proof.
  induction items as [|item items IH]; intros [rows counts] r; simpl.
  - intros Hin. left. now exists r.
  - intros Hin. apply IH in Hin as [[r0 [Hin E]]|[i [Hin E]]].
    + apply save_item_scores in Hin as [[r1 [Hin E1]]|E1].
      * left. exists r1. split; [exact Hin | congruence].
      * right. exists item. split; [now left | congruence].
    + right. exists i. split; [now right | exact E].
Qed.

(** The scores in the table after [save_to_database] are those that were
    there and those of the items saved, as they were computed. *)
Lemma save_to_database_scores (e : env) (s s' : state) items counts (r : heritage_row) :
  run (save_to_database items) e s = (Ok counts, s') ->
  In r (heritage_items (db s')) ->
  (exists r0, In r0 (heritage_items (db s))
              /\ col_significance_score r = col_significance_score r0)
  \/ (exists item, In item items /\ col_significance_score r = significance_score item).
Proof.
  intros R Hin. apply save_to_database_ok in R as [_ R]. rewrite R in Hin.
  now apply save_items_fold_scores in Hin.
Qed.

Lemma inscription_year_unique (item : HeritageItem) (y y' : Z) :
  inscription_year item y -> inscription_year item y' -> y = y'.
Proof.
  unfold inscription_year.
  intros [[E ->]|E] [[E' ->]|E'].
  - reflexivity.
  - rewrite E in E'. vm_compute in E'. discriminate.
  - rewrite E' in E. vm_compute in E. discriminate.
  - congruence.
Qed.

Lemma collect_met_museum_data_ok (e : env) (cfg : config) ids (s s' : state) r :
  run (collect_met_museum_data cfg ids) e s = (r, s') ->
  same_store s s' /\ exists items, r = Ok items /\ Forall museum_scored items.
Proof.
  intros R.
  pose proof (wp_run _ e s _ (collect_met_museum_data_spec e cfg ids s)) as W.
  now rewrite R in W.
Qed.

Lemma collect_unesco_data_ok (e : env) (cfg : config) (s s' : state) r :
  run (collect_unesco_data cfg) e s = (r, s') ->
  same_store s s' /\ exists items, r = Ok items /\ Forall registry_scored items.
Proof.
  intros R.
  pose proof (wp_run _ e s _ (collect_unesco_data_spec e cfg s)) as W.
  now rewrite R in W.
Qed.

(** C3, as the code has it.  The score computed for an accepted museum
    payload lies in [0, 10], and so does every score of the items the
    museum adapter returns.  Every score of the items the registry adapter
    returns is at most 10, and is at least 0 when the inscription year is
    at most 2924.  [save_to_database] writes the scores of the items as
    they are. *)
Theorem collected_scores_bounded (e : env) (cfg : config) (s : state) :
  (forall data sc,
     accepted data = true -> _calculate_significance_score data = Ok sc ->
     (0 <= sc)%Q /\ (sc <= 10)%Q)
  /\ (forall ids r s',
        run (collect_met_museum_data cfg ids) e s = (r, s') ->
        exists items,
          r = Ok items
          /\ Forall (fun i => (0 <= significance_score i)%Q
                              /\ (significance_score i <= 10)%Q) items)
  /\ (forall r s',
        run (collect_unesco_data cfg) e s = (r, s') ->
        exists items,
          r = Ok items
          /\ Forall (fun i => (significance_score i <= 10)%Q
                              /\ forall y, inscription_year i y -> y <= 2924 ->
                                           (0 <= significance_score i)%Q) items)
  /\ (forall items counts s' r,
        run (save_to_database items) e s = (Ok counts, s') ->
        In r (heritage_items (db s')) ->
        (exists r0, In r0 (heritage_items (db s))
                    /\ col_significance_score r = col_significance_score r0)
        \/ (exists item, In item items
                         /\ col_significance_score r = significance_score item)).
Proof.
  split; [|split; [|split]].
  - intros data sc _ H. apply museum_score_range in H. split; [lra | tauto].
  - intros ids r s' R.
    apply collect_met_museum_data_ok in R as (_ & items & -> & Hi).
    exists items. split; [reflexivity|].
    eapply Forall_impl; [|exact Hi].
    intros i (data & _ & H). apply museum_score_range in H. split; [lra | tauto].
  - intros r s' R.
    apply collect_unesco_data_ok in R as (_ & items & -> & Hi).
    exists items. split; [reflexivity|].
    eapply Forall_impl; [|exact Hi].
    intros i (y0 & Hy0 & ->). split; [apply py_min_le_r|].
    intros y Hy Hle. rewrite (inscription_year_unique _ _ _ Hy Hy0) in Hle.
    apply py_min_glb; [now apply registry_term_sign | lra].
  - intros items counts s' r. apply save_to_database_scores.
Qed.

Lemma collected_scores_bounded_witness :
  (0 <= 600 # 100)%Q /\ (600 # 100 <= 10)%Q.
Proof.
  refine (proj1 (collected_scores_bounded offline_env sample_config initial_state)
                mona_payload (600 # 100)%Q eq_refl _).
  vm_compute. reflexivity.
Defined.

(** C3 as stated fails: a registry site inscribed in the year 3000 is
    stored with the score -0.76. *)
Lemma registry_score_below_zero :
  exists r, heritage_items (db far_future_store) = [r]
            /\ col_source r = "UNESCO"%string
            /\ col_period r = PStr "3000"
            /\ (col_significance_score r == -0.76)%Q
            /\ (col_significance_score r < 0)%Q.
Proof.
  eexists. split; [vm_compute; reflexivity|].
  cbn [col_source col_period col_significance_score].
  repeat split; reflexivity.
Qed.

(** ** The registry formula *)

(** The literals [int_of_string] reads are ASCII. *)
Lemma parse_digits_ascii (s : string) : forall acc prev z,
  parse_digits s acc prev = Some z -> is_ascii s = true.
Proof.
  induction s as [|c s IH]; intros acc prev z; cbn [parse_digits is_ascii].
  - reflexivity.
  - unfold digit_of.
    destruct ((48 <=? nat_of_ascii c)%nat && (nat_of_ascii c <=? 57)%nat)%bool eqn:Ed.
    + intros H. apply IH in H. rewrite H.
      apply andb_true_iff in Ed as [_ Ed]. apply Nat.leb_le in Ed.
      rewrite andb_true_r. apply Nat.ltb_lt. lia.
    + destruct (Ascii.eqb_spec c "_") as [->|N]; [|discriminate].
      destruct prev; [|discriminate]. cbn [andb].
      intros H. apply IH in H. now rewrite H.
Qed.

Lemma is_ascii_lstrip (cs s : string) :
  is_ascii cs = true -> is_ascii (lstrip cs s) = true -> is_ascii s = true.
Proof.
  intros Hcs. induction s as [|c s IH]; cbn [lstrip is_ascii]; [reflexivity|].
  destruct (mem_ascii c cs) eqn:E; [|exact (fun H => H)].
  intros H. rewrite (IH H), andb_true_r.
  clear IH H. induction cs as [|d cs IHc]; [discriminate|].
  cbn [mem_ascii is_ascii] in *. apply andb_true_iff in Hcs as [Hd Hcs].
  destruct (Ascii.eqb_spec c d) as [->|N]; [exact Hd | now apply IHc].
Qed.

Lemma mem_ascii_is_ascii (c : ascii) (cs : string) :
  is_ascii cs = true -> mem_ascii c cs = true -> (nat_of_ascii c <? 128)%nat = true.
Proof.
  induction cs as [|d cs IH]; [discriminate|].
  cbn [mem_ascii is_ascii]. intros Hcs H. apply andb_true_iff in Hcs as [Hd Hcs].
  destruct (Ascii.eqb_spec c d) as [->|N]; [exact Hd | now apply IH].
Qed.

Lemma is_ascii_rstrip (cs s : string) :
  is_ascii cs = true -> is_ascii (rstrip cs s) = true -> is_ascii s = true.
Proof.
  intros Hcs. induction s as [|c s IH]; cbn [rstrip is_ascii]; [reflexivity|].
  destruct (rstrip cs s) as [|b r] eqn:E.
  - destruct (mem_ascii c cs) eqn:Ec.
    + intros _. rewrite (mem_ascii_is_ascii _ _ Hcs Ec). now apply IH.
    + cbn [is_ascii]. rewrite andb_true_r. intros H. rewrite H. now apply IH.
  - cbn [is_ascii]. intros H. apply andb_true_iff in H as [H1 H2].
    rewrite H1. apply IH. exact H2.
Qed.

Lemma int_of_string_ascii (s : string) (z : Z) :
  int_of_string s = Some z -> is_ascii s = true.
Proof.
  unfold int_of_string, strip. cbv zeta.
  destruct (max_str_digits <? _); [discriminate|].
  intros H.
  apply (is_ascii_lstrip whitespace); [reflexivity|].
  apply (is_ascii_rstrip whitespace); [reflexivity|].
  destruct (rstrip whitespace (lstrip whitespace s)) as [|c r]; [reflexivity|].
  destruct (Ascii.eqb_spec c "-") as [->|Nm].
  - destruct (parse_digits r 0 false) as [v|] eqn:E; [|discriminate].
    cbn [is_ascii]. now rewrite (parse_digits_ascii _ _ _ _ E).
  - destruct (Ascii.eqb_spec c "+") as [->|Np].
    + cbn [is_ascii]. now rewrite (parse_digits_ascii _ _ _ _ H).
    + assert (E : parse_digits (String c r) 0 false = Some z).
      { revert H. destruct c as [[] [] [] [] [] [] [] []]; try exact (fun H => H);
          exfalso; first [now apply Nm | now apply Np]. }
      exact (parse_digits_ascii _ _ _ _ E).
Qed.



(** Where [int] does not read the member, or the year is out of the range
    of the division, no score is computed: the site raises. *)
Lemma registry_score_undefined (site : pydict) :
  (forall y, py_int (get_or site "date_inscribed" (PInt 2024)) = Ok y ->
             100 * float_overflow_bound <= Z.abs (2024 - y)) ->
  exists ex, unesco_significance site = Raise ex.
Proof.
  intros H. destruct (unesco_significance site) as [sc|ex] eqn:E; [|now exists ex].
  apply registry_score_inv in E as (y & Hy & Hr & _). specialize (H y Hy). lia.
Qed.

(** A date that starts with the control character U+001F, which [int]
    does not skip, and a year of 401 digits: no score. *)
Example registry_score_unreadable :
  (exists ex, unesco_significance
                [("date_inscribed"%string, PStr (String (ascii_of_nat 31) "1978"))]
              = Raise ex)
  /\ (exists ex, unesco_significance [("date_inscribed"%string, PInt (10 ^ 400))]
                 = Raise ex).
Proof. split; eexists; vm_compute; reflexivity. Qed.


(** ** The report: top locations *)

Lemma insert_desc_perm (p : string * nat) (l : list (string * nat)) :
  Permutation (p :: l) (insert_desc p l).
Proof.
  induction l as [|q l IH]; simpl; [apply Permutation_refl|].
  destruct (snd q <? snd p)%nat; [apply Permutation_refl|].
  eapply perm_trans; [apply perm_swap|]. now apply perm_skip.
Qed.

Lemma sort_desc_perm (l : list (string * nat)) : Permutation (sort_desc l) l.
Proof.
  induction l as [|p l IH]; simpl; [constructor|].
  eapply perm_trans; [apply Permutation_sym, insert_desc_perm|].
  now apply perm_skip.
Qed.

Lemma insert_desc_sorted (p : string * nat) (l : list (string * nat)) :
  Sorted count_desc l -> Sorted count_desc (insert_desc p l).
Proof.
  induction l as [|q l IH]; simpl; intros Hs.
  - repeat constructor.
  - destruct (Nat.ltb_spec (snd q) (snd p)) as [Hlt|Hge].
    + constructor; [exact Hs|]. constructor. unfold count_desc. lia.
    + inversion Hs as [|q' l' Hs' Hhd]; subst.
      constructor; [now apply IH|].
      destruct l as [|r l]; simpl.
      * constructor. exact Hge.
      * destruct (snd r <? snd p)%nat; constructor; [exact Hge|].
        now inversion Hhd.
Qed.

Lemma sort_desc_sorted (l : list (string * nat)) : Sorted count_desc (sort_desc l).
Proof.
  induction l as [|p l IH]; simpl; [constructor | now apply insert_desc_sorted].
Qed.

Lemma Sorted_firstn {A} (R : A -> A -> Prop) (n : nat) : forall l,
  Sorted R l -> Sorted R (firstn n l).
Proof.
  induction n as [|n IH]; intros [|x l] Hs; simpl; try constructor.
  - apply IH. now inversion Hs.
  - inversion Hs as [|x' l' Hs' Hhd]; subst.
    destruct l as [|y l]; destruct n; simpl; constructor. now inversion Hhd.
Qed.

Lemma NoDup_firstn {A} (n : nat) : forall l : list A, NoDup l -> NoDup (firstn n l).
Proof.
  induction n as [|n IH]; intros [|x l] Hnd; simpl; try constructor.
  - inversion Hnd as [|x' l' Hx Hnd']; subst.
    intros Hin. apply Hx. rewrite <- (firstn_skipn n l). apply in_or_app. now left.
  - apply IH. now inversion Hnd.
Qed.

Lemma In_firstn {A} (n : nat) (x : A) : forall l, In x (firstn n l) -> In x l.
Proof.
  intros l Hin. rewrite <- (firstn_skipn n l). apply in_or_app. now left.
Qed.

(** The stable engine gives a possible answer: the query has answers. *)
Lemma top_locations_stable_admissible (rows : list heritage_row) :
  top_locations_query rows (top_locations_stable rows).
Proof.
  exists (sort_desc (location_groups rows)).
  split; [apply sort_desc_perm|]. split; [apply sort_desc_sorted | reflexivity].
Qed.

Lemma located_nonempty (rows : list heritage_row) (loc : string) :
  In loc (located rows) -> loc <> ""%string.
Proof.
  unfold located. rewrite in_flat_map. intros [r [_ Hin]].
  destruct (col_location r) as [l|]; [|contradiction].
  destruct (String.eqb_spec l "") as [E|N]; [contradiction|].
  destruct Hin as [<-|[]]. exact N.
Qed.

(** The groups: the non-empty locations, once each, with their number of
    rows. *)
Lemma location_groups_In (rows : list heritage_row) (loc : string) (n : nat) :
  In (loc, n) (location_groups rows) <->
  In loc (located rows) /\ n = count_occ string_dec (located rows) loc.
Proof.
  unfold location_groups. cbv zeta. rewrite in_map_iff. split.
  - intros [l [E Hin]]. injection E as -> <-. now rewrite nodup_In in Hin.
  - intros [Hin ->]. exists loc. split; [reflexivity | now apply nodup_In].
Qed.

Lemma location_groups_keys (rows : list heritage_row) :
  NoDup (map fst (location_groups rows)).
Proof.
  unfold location_groups. cbv zeta. rewrite map_map. cbn [fst].
  rewrite map_id. apply NoDup_nodup.
Qed.

Lemma dict_set_fresh {A} (d : list (string * A)) (k : string) (v : A) :
  ~ In k (map fst d) -> dict_set d k v = d ++ [(k, v)].
Proof.
  induction d as [|[k' v'] d IH]; simpl; intros Hn; [reflexivity|].
  destruct (String.eqb_spec k' k) as [E|N]; [tauto|].
  rewrite IH; tauto.
Qed.

Lemma dict_of_pairs_fold {A} (l : list (string * A)) : forall d,
  NoDup (map fst (d ++ l)) ->
  fold_left (fun d p => dict_set d (fst p) (snd p)) l d = d ++ l.
Proof.
  induction l as [|[k v] l IH]; intros d Hnd; simpl.
  - now rewrite app_nil_r.
  - rewrite dict_set_fresh.
    + rewrite IH; rewrite <- app_assoc; [reflexivity | exact Hnd].
    + rewrite map_app in Hnd. simpl in Hnd.
      apply NoDup_remove_2 in Hnd. intros Hin. apply Hnd.
      apply in_or_app. now left.
Qed.

(** A comprehension over pairs with distinct keys keeps them as they
    come. *)
Lemma dict_of_pairs_distinct {A} (l : list (string * A)) :
  NoDup (map fst l) -> dict_of_pairs l = l.
Proof. intros H. unfold dict_of_pairs. now rewrite dict_of_pairs_fold. Qed.

Lemma top_locations_query_keys (rows : list heritage_row) fetched :
  top_locations_query rows fetched -> NoDup (map fst fetched).
Proof.
  intros (ordered & Hp & _ & ->).
  rewrite <- firstn_map. apply NoDup_firstn.
  eapply Permutation_NoDup; [apply Permutation_sym, Permutation_map, Hp|].
  apply location_groups_keys.
Qed.

(** X24.  The report has a [top_locations] member for every store.  It
    has at most 10 entries; each is a non-empty location with the number
    of rows at that location; no location comes twice; and the counts
    descend.  This holds of whatever the engine answers to the query. *)
Theorem top_locations_shape (d : database) :
  (exists top, report_top_locations d top)
  /\ forall top,
       report_top_locations d top ->
       (List.length top <= 10)%nat
       /\ (forall loc n,
             In (loc, n) top ->
             loc <> ""%string
             /\ n = count_occ string_dec (located (heritage_items d)) loc
             /\ (1 <= n)%nat)
       /\ NoDup (map fst top)
       /\ Sorted count_desc top.
Proof.
  split.
  - exists (dict_of_pairs (top_locations_stable (heritage_items d))).
    eexists. split; [apply top_locations_stable_admissible | reflexivity].
  - intros top (fetched & Hq & ->).
    pose proof (top_locations_query_keys _ _ Hq) as Hk.
    rewrite (dict_of_pairs_distinct _ Hk).
    destruct Hq as (ordered & Hp & Hs & ->).
    split; [apply firstn_le_length|]. split; [|split].
    + intros loc n Hin. apply In_firstn in Hin.
      apply (Permutation_in _ Hp), location_groups_In in Hin as [Hin ->].
      split; [now apply (located_nonempty (heritage_items d))|].
      split; [reflexivity|]. now apply count_occ_In.
    + exact Hk.
    + now apply Sorted_firstn.
Qed.

Lemma top_locations_shape_witness :
  (List.length (dict_of_pairs (top_locations_stable (heritage_items (db eleven_store))))
   <= 10)%nat.
Proof.
  refine (proj1 (proj2 (top_locations_shape (db eleven_store)) _ _)).
  eexists. split; [apply top_locations_stable_admissible | reflexivity].
Defined.

(** Two lists in the same descending order that hold the same elements,
    no two of which are equivalent in the order, are equal. *)
Lemma sorted_permutation_unique {A} (R : A -> A -> Prop) (l1 : list A) :
  forall l2,
    (forall x y, In x l1 -> In y l1 -> R x y -> R y x -> x = y) ->
    Permutation l1 l2 -> StronglySorted R l1 -> StronglySorted R l2 -> l1 = l2.
Proof.
  induction l1 as [|a l1 IH]; intros l2 Hanti Hp H1 H2.
  - apply Permutation_nil in Hp. now subst.
  - destruct l2 as [|b l2]; [apply Permutation_sym, Permutation_nil in Hp; discriminate|].
    inversion H1 as [|a' l1' S1 F1]; subst.
    inversion H2 as [|b' l2' S2 F2]; subst.
    rewrite Forall_forall in F1, F2.
    assert (Eab : a = b).
    { assert (Ha : In a (b :: l2)) by (apply (Permutation_in _ Hp); now left).
      assert (Hb : In b (a :: l1))
        by (apply (Permutation_in _ (Permutation_sym Hp)); now left).
      destruct Ha as [Ha|Ha]; [now symmetry|].
      destruct Hb as [Hb|Hb]; [exact Hb|].
      apply Hanti; [now left | now right | now apply F1 | now apply F2]. }
    subst b. f_equal. apply Permutation_cons_inv in Hp.
    apply IH; auto. intros x y Hx Hy. apply Hanti; now right.
Qed.

Lemma NoDup_map_injective {A B} (f : A -> B) (l : list A) (x y : A) :
  NoDup (map f l) -> In x l -> In y l -> f x = f y -> x = y.
Proof.
  induction l as [|a l IH]; cbn [map]; intros Hnd Hx Hy E; [contradiction|].
  inversion Hnd as [|a' l' Ha Hnd']; subst.
  destruct Hx as [->|Hx], Hy as [->|Hy].
  - reflexivity.
  - exfalso. apply Ha. rewrite E. now apply in_map.
  - exfalso. apply Ha. rewrite <- E. now apply in_map.
  - now apply IH.
Qed.

Lemma count_desc_transitive : Relations_1.Transitive count_desc.
Proof. unfold Relations_1.Transitive, count_desc. intros x y z. lia. Qed.

(** X25.  Where no two locations of the store have the same number of
    rows the report is reproducible: whatever the engine answers to the
    query, [top_locations] is the same list.  (Between locations with
    equal counts the query names no order, and the code adds none.) *)
Theorem top_locations_determined_without_ties (d : database)
    (top top' : list (string * nat)) :
  NoDup (map snd (location_groups (heritage_items d))) ->
  report_top_locations d top ->
  report_top_locations d top' ->
  top = top'.
Proof.
  intros Hnd (f1 & (o1 & P1 & S1 & ->) & ->) (f2 & (o2 & P2 & S2 & ->) & ->).
  assert (E : o1 = o2); [|now rewrite E].
  apply (sorted_permutation_unique count_desc).
  - intros x y Hx Hy Rxy Ryx. unfold count_desc in Rxy, Ryx.
    apply (NoDup_map_injective snd o1).
    + eapply Permutation_NoDup; [apply Permutation_sym, Permutation_map, P1 | exact Hnd].
    + exact Hx.
    + exact Hy.
    + lia.
  - eapply perm_trans; [exact P1 | now apply Permutation_sym].
  - now apply (Sorted_StronglySorted count_desc_transitive).
  - now apply (Sorted_StronglySorted count_desc_transitive).
Qed.

Lemma top_locations_determined_without_ties_witness :
  dict_of_pairs (top_locations_stable (heritage_items (db two_cities_store)))
  = dict_of_pairs
      (firstn 10 [("Paris, France", 2%nat); ("Florence, Italy", 1%nat)]%string).
Proof.
  refine (top_locations_determined_without_ties (db two_cities_store) _ _ _ _ _).
  - vm_compute. repeat (constructor; [simpl; intuition discriminate|]). constructor.
  - eexists. split; [apply top_locations_stable_admissible | reflexivity].
  - eexists. split; [|reflexivity].
    exists [("Paris, France", 2%nat); ("Florence, Italy", 1%nat)]%string.
    split; [vm_compute; apply perm_swap|]. split; [|reflexivity].
    repeat constructor.
Defined.

(** Two works in Paris, one in Florence: Paris comes first. *)
Example two_cities_report :
  top_locations_stable (heritage_items (db two_cities_store))
  = [("Paris, France", 2%nat); ("Florence, Italy", 1%nat)]%string.
Proof. vm_compute. reflexivity. Qed.

(** ** Threat monitoring without a key *)

(** C7.  When the configuration has no news API key ([None] or an empty
    text), [monitor_cultural_threats] returns the empty list: it does not
    raise, and the state is the one it started from, so nothing was sent
    to the news source. *)
Theorem no_api_key_no_monitoring (cfg : config) (keywords : option (list string))
    (e : env) (s : state) :
  truthy (news_api_key cfg) = false ->
  run (monitor_cultural_threats cfg keywords) e s = (Ok [], s).
Proof.
  intros H. unfold run, monitor_cultural_threats. now rewrite H.
Qed.

Lemma no_api_key_no_monitoring_witness :
  run (monitor_cultural_threats sample_config None) offline_env initial_state
  = (Ok [], initial_state).
Proof.
  exact (no_api_key_no_monitoring sample_config None offline_env initial_state eq_refl).
Defined.

(** With a key the news source is contacted. *)
Example keyed_monitoring_sends :
  map req_url (sent (snd (run (monitor_cultural_threats keyed_config None)
                              offline_env initial_state)))
  = ["https://newsapi.org/v2/everything"%string].
Proof. vm_compute. reflexivity. Qed.

(** ** The orchestrator *)

(** A block of [run_full_collection] ends as its collect-and-save
    statements do: it never raises, it leaves the state they leave, and it
    lists their failure in [errors] or their label in
    [sources_processed]. *)
Lemma heritage_stage_outcome (e : env) (label what : string)
    (collect : M (list HeritageItem)) (s : state * run_results) :
  wp (heritage_stage label what collect) e s
     (fun r s' =>
        r = Ok tt
        /\ fst s' = snd (run (items <- collect ;; save_to_database items) e (fst s))
        /\ errors (snd s')
           = errors (snd s)
             ++ stage_errors what
                  (failure (fst (run (items <- collect ;; save_to_database items)
                                     e (fst s))))
        /\ sources_processed (snd s')
           = sources_processed (snd s)
             ++ stage_label label
                  (failure (fst (run (items <- collect ;; save_to_database items)
                                     e (fst s))))).
Proof.
  unfold wp, heritage_stage, try_catch, bind, call, run, on_failure, get_local, set_local.
  destruct s as [st res]. cbn [fst snd].
  destruct (collect e (st, tt)) as [[items|ex] [st1 []]]; cbn [fst snd].
  - destruct (save_to_database items e (st1, tt)) as [[counts|ex] [st2 []]];
      cbn [fst snd errors sources_processed record_source record_error failure
           stage_errors stage_label];
      rewrite app_nil_r; auto.
  - cbn [errors sources_processed record_error failure stage_errors stage_label].
    rewrite app_nil_r. auto.
Qed.

Lemma threat_stage_outcome (e : env) (cfg : config) (s : state * run_results) :
  wp (threat_stage cfg) e s
     (fun r s' =>
        r = Ok tt
        /\ fst s' = snd (run (monitor_and_save_threats cfg) e (fst s))
        /\ errors (snd s')
           = errors (snd s)
             ++ stage_errors "Threat monitoring"
                  (failure (fst (run (monitor_and_save_threats cfg) e (fst s))))
        /\ sources_processed (snd s')
           = sources_processed (snd s)
             ++ stage_label "Threat Monitoring"
                  (failure (fst (run (monitor_and_save_threats cfg) e (fst s))))).
Proof.
  unfold wp, threat_stage, monitor_and_save_threats, try_catch, bind, call, run,
    on_failure, get_local, set_local.
  destruct s as [st res]. cbn [fst snd].
  destruct (monitor_cultural_threats cfg None e (st, tt)) as [[threats|ex] [st1 []]];
    cbn [fst snd].
  - destruct (save_threats_to_database threats e (st1, tt)) as [[n|ex] [st2 []]];
      cbn [fst snd errors sources_processed record_threats record_error failure
           stage_errors stage_label];
      rewrite app_nil_r; auto.
  - cbn [errors sources_processed record_error failure stage_errors stage_label].
    rewrite app_nil_r. auto.
Qed.

Lemma collect_met_museum_data_never_raises (e : env) (cfg : config) ids (s0 : state) :
  wp (collect_met_museum_data cfg ids) e (s0, tt)
     (fun r s' => same_store s0 (fst s') /\ exists items, r = Ok items).
Proof.
  eapply wp_conseq; [apply collect_met_museum_data_spec|].
  intros r s' (H & items & -> & _). split; [exact H | now exists items].
Qed.

Lemma collect_unesco_data_never_raises (e : env) (cfg : config) (s0 : state) :
  wp (collect_unesco_data cfg) e (s0, tt)
     (fun r s' => same_store s0 (fst s') /\ exists items, r = Ok items).
Proof.
  eapply wp_conseq; [apply collect_unesco_data_spec|].
  intros r s' (H & items & -> & _). split; [exact H | now exists items].
Qed.

(** A heritage block fails exactly as its save step does, and opens one
    connection. *)
Lemma collect_and_save_outcome (e : env) (collect : M (list HeritageItem)) (s : state) :
  (forall s0, wp collect e (s0, tt)
                 (fun r s' => same_store s0 (fst s') /\ exists items, r = Ok items)) ->
  connects (snd (run (items <- collect ;; save_to_database items) e s)) = S (connects s)
  /\ failure (fst (run (items <- collect ;; save_to_database items) e s))
     = save_failure e s (result_or [] (fst (run collect e s))).
Proof.
  intros Hc.
  pose proof (wp_run _ e s _ (Hc s)) as W.
  unfold run, bind in *.
  destruct (collect e (s, tt)) as [r [s1 []]]. cbn [fst snd] in W.
  destruct W as ([Hdb Hcon] & items & ->). cbn [fst snd result_or].
  pose proof (wp_run _ e s1 _ (save_to_database_spec e items s1)) as W.
  unfold run in W.
  destruct (save_to_database items e (s1, tt)) as [r [s2 []]]. cbn [fst snd] in *.
  destruct W as (C & _ & _ & _ & _ & W). rewrite Hcon in C.
  split; [exact C|].
  unfold save_failure. rewrite <- Hcon, <- Hdb.
  destruct (db_fault e (connects s1)) as [msg|]; [destruct W as [-> _]; reflexivity|].
  destruct (save_items items (heritage_items (db s1))) as [saved|ex];
    destruct W as [-> _]; reflexivity.
Qed.

Lemma save_threats_loop_failure (e : env) (threats : list pydict) : forall s (k : nat),
  wp (for_each threats (fun threat =>
        t <- now ;;
        lift_result (insert_threat_check threat) ;;;
        d <- get_db ;;
        put_db (insert_threat threat t d) ;;;
        saved_threats <- get_local ;;
        set_local (S saved_threats))) e (s, k)
     (fun r _ => failure r = failure (insert_threats_check threats)).
Proof.
  induction threats as [|threat threats IH]; intros s k; simpl for_each.
  - wp_step. reflexivity.
  - cbn [insert_threats_check]. unfold rbind.
    wp_step. wp_step. wp_step. wp_step. wp_step.
    destruct (insert_threat_check threat) as [[]|ex]; [|reflexivity].
    repeat wp_step. apply IH.
Qed.

(** The threat block fails exactly as its save step does, and opens one
    connection. *)
Lemma monitor_and_save_outcome (e : env) (cfg : config) (s : state) :
  connects (snd (run (monitor_and_save_threats cfg) e s)) = S (connects s)
  /\ failure (fst (run (monitor_and_save_threats cfg) e s))
     = save_threats_failure e s
         (result_or [] (fst (run (monitor_cultural_threats cfg None) e s))).
Proof.
  pose proof (wp_run _ e s _ (monitor_cultural_threats_spec e cfg None s)) as W.
  unfold monitor_and_save_threats, run, bind in *.
  destruct (monitor_cultural_threats cfg None e (s, tt)) as [r [s1 []]].
  cbn [fst snd] in W. destruct W as ([Hdb Hcon] & threats & ->). cbn [fst snd result_or].
  assert (K : wp (save_threats_to_database threats) e (s1, tt)
                 (fun r s' =>
                    connects (fst s') = S (connects s1)
                    /\ failure r = save_threats_failure e s1 threats)).
  { unfold save_threats_to_database, save_threats_failure.
    wp_step. wp_step. apply wp_with_connection. cbv zeta. cbn [fst snd].
    destruct (db_fault e (connects s1)) as [msg|].
    - cbn [fst connects failure exn_msg]. auto.
    - eapply wp_conseq;
        [apply wp_and; [apply save_threats_loop_rows | apply save_threats_loop_failure]|].
      intros r s' ((Hn & _) & Hf). cbn [fst connects] in Hn.
      destruct r as [[]|ex].
      + wp_step. cbn [fst snd]. split; [exact Hn | exact Hf].
      + cbn [fst snd set_db connects]. split; [exact Hn | exact Hf]. }
  apply wp_run in K. unfold run in K.
  destruct (save_threats_to_database threats e (s1, tt)) as [r [s2 []]].
  cbn [fst snd] in *. destruct K as [C F]. rewrite Hcon in C.
  split; [exact C|]. rewrite F. unfold save_threats_failure. now rewrite Hcon.
Qed.

(** The three blocks run one after the other whatever happens in each;
    the outcome of the whole is decided by the final insert. *)
Lemma run_full_collection_body_spec (e : env) (cfg : config) (s : state * run_results) :
  let b1 := run (collect_and_save_met cfg) e (fst s) in
  let b2 := run (collect_and_save_unesco cfg) e (snd b1) in
  let b3 := run (monitor_and_save_threats cfg) e (snd b2) in
  let c := connects (fst s) in
  wp (run_full_collection_body cfg) e s
     (fun r s' =>
        connects (fst s') = (c + 4)%nat
        /\ match db_fault e (c + 3) with
           | Some msg => r = Raise (Exn SqliteError msg)
           | None =>
               r = Ok tt
               /\ errors (snd s')
                  = errors (snd s)
                    ++ stage_errors "Met Museum collection" (failure (fst b1))
                    ++ stage_errors "UNESCO collection" (failure (fst b2))
                    ++ stage_errors "Threat monitoring" (failure (fst b3))
               /\ sources_processed (snd s')
                  = sources_processed (snd s)
                    ++ stage_label "Metropolitan Museum" (failure (fst b1))
                    ++ stage_label "UNESCO" (failure (fst b2))
                    ++ stage_label "Threat Monitoring" (failure (fst b3))
           end).
Proof.
  intros b1 b2 b3 c. unfold run_full_collection_body.
  wp_step.
  eapply wp_conseq; [apply heritage_stage_outcome|].
  intros r s1 (-> & S1 & E1 & P1). cbv beta iota.
  wp_step.
  eapply wp_conseq; [apply heritage_stage_outcome|].
  intros r s2 (-> & S2 & E2 & P2). cbv beta iota.
  wp_step.
  eapply wp_conseq; [apply threat_stage_outcome|].
  intros r s3 (-> & S3 & E3 & P3). cbv beta iota.
  fold (collect_and_save_met cfg) in S1, E1, P1. fold b1 in S1, E1, P1.
  rewrite S1 in S2, E2, P2.
  fold (collect_and_save_unesco cfg) in S2, E2, P2. fold b2 in S2, E2, P2.
  rewrite S2 in S3, E3, P3. fold b3 in S3, E3, P3.
  assert (C1 : connects (snd b1) = (c + 1)%nat).
  { unfold b1, collect_and_save_met.
    rewrite (proj1 (collect_and_save_outcome e _ (fst s)
                      (fun s0 => collect_met_museum_data_never_raises e cfg _ s0))).
    unfold c. lia. }
  assert (C2 : connects (snd b2) = (c + 2)%nat).
  { unfold b2, collect_and_save_unesco.
    rewrite (proj1 (collect_and_save_outcome e _ (snd b1)
                      (fun s0 => collect_unesco_data_never_raises e cfg s0))).
    rewrite C1. lia. }
  assert (C3 : connects (snd b3) = (c + 3)%nat).
  { unfold b3. rewrite (proj1 (monitor_and_save_outcome e cfg (snd b2))).
    rewrite C2. lia. }
  wp_step. apply wp_with_connection. cbv zeta. cbn [fst snd].
  rewrite S3, C3.
  destruct (db_fault e (c + 3)) as [msg|].
  - cbn [fst connects]. split; [lia | reflexivity].
  - repeat wp_step.
    cbn [fst snd set_db connects errors sources_processed record_end].
    split; [lia|]. split; [reflexivity|].
    rewrite E3, E2, E1, P3, P2, P1, <- !app_assoc. auto.
Qed.



(** A site without a name: the INSERT of the registry block fails on the
    constraint of the column, the block lists the failure, the site saved
    before it in the same call is rolled back, and the threat block still
    runs. *)
Example nameless_site_run :
  exists res,
    fst (run (run_full_collection sample_config) (registry_env nameless_sites)
             initial_state) = Ok res
    /\ errors res
       = ["UNESCO collection failed: NOT NULL constraint failed: heritage_items.name"%string]
    /\ sources_processed res = ["Metropolitan Museum"; "Threat Monitoring"]%string
    /\ heritage_items
         (db (snd (run (run_full_collection sample_config) (registry_env nameless_sites)
                       initial_state))) = [].
Proof.
  eexists. split; [vm_compute; reflexivity|].
  cbn [errors sources_processed]. split; [reflexivity|]. split; [reflexivity|].
  vm_compute. reflexivity.
Qed.

(** A failure of the store at the final insert escapes the run. *)
Lemma run_full_collection_store_failure (cfg : config) (e : env) (s : state) (msg : string) :
  db_fault e (connects s + 3) = Some msg ->
  fst (run (run_full_collection cfg) e s) = Raise (Exn SqliteError msg).
Proof.
  intros F.
  assert (W : wp (run_full_collection cfg) e (s, tt)
                 (fun r _ => r = Raise (Exn SqliteError msg))).
  { unfold run_full_collection.
    wp_step. wp_step. wp_step. wp_step.
    eapply wp_conseq; [apply run_full_collection_body_spec|].
    cbn [fst snd connects]. rewrite F.
    intros r s' (_ & ->). reflexivity. }
  now apply wp_run in W.
Qed.

(** The scenario with the store down at the end: the second block's
    failure was caught, and the run still raises. *)
Example stats_down_run :
  fst (run (run_full_collection sample_config) stats_down_env initial_state)
  = Raise (Exn SqliteError "unable to open database file").
Proof. vm_compute. reflexivity. Qed.


(** * Further properties of the code *)

(** ** Threat level of a museum payload *)

(** X1.  For a payload whose country is a text, [_assess_threat_level]
    answers High when the lower-cased country contains the lower-cased
    name of a high-risk location, and this beats the on-view flag;
    otherwise Low when the work is on view, otherwise Medium.  The
    lowering [lo] is [str.lower]; the property does not depend on what it
    maps a text to, so it holds of every country, in ASCII or not. *)
Theorem threat_level_precedence (lo : string -> string) (data : pydict)
    (country : string) :
  get_or data "country" (PStr "") = PStr country ->
  let risky := exists loc,
    In loc [ "Syria"; "Iraq"; "Afghanistan"; "Yemen"; "Libya";
             "Ukraine"; "Myanmar"; "Mali" ]%string
    /\ Substring (lo loc) (lo country) in
  (risky -> _assess_threat_level lo data = Ok "High"%string)
  /\ (~ risky -> truthy (get_or data "isOnView" (PBool false)) = true ->
      _assess_threat_level lo data = Ok "Low"%string)
  /\ (~ risky -> truthy (get_or data "isOnView" (PBool false)) = false ->
      _assess_threat_level lo data = Ok "Medium"%string).
Proof.
  intros Hc risky.
  assert (Hr : any_in (map lo high_risk_locations) (lo country) = true <-> risky).
  { rewrite any_in_spec. unfold risky. split.
    - intros [k [Hin Hsub]]. apply in_map_iff in Hin as [loc [<- Hin]]. now exists loc.
    - intros [loc [Hin Hsub]]. exists (lo loc). split; [|exact Hsub].
      apply in_map_iff. now exists loc. }
  unfold _assess_threat_level, rbind. rewrite Hc. cbn [py_lower].
  destruct (any_in (map lo high_risk_locations) (lo country)).
  - repeat split; intros; try reflexivity; exfalso; tauto.
  - assert (~ risky) by (intros H; apply Hr in H; discriminate).
    repeat split; intros; try tauto.
    + now rewrite H1.
    + now rewrite H1.
Qed.

Lemma threat_level_precedence_witness :
  _assess_threat_level lower
    [ ("country"%string, PStr "SYRIA (Arab Republic)"); ("isOnView"%string, PBool true) ]
  = Ok "High"%string.
Proof.
  apply (proj1 (threat_level_precedence lower
                  [ ("country"%string, PStr "SYRIA (Arab Republic)");
                    ("isOnView"%string, PBool true) ]
                  "SYRIA (Arab Republic)" eq_refl)).
  exists "Syria"%string. split; [simpl; tauto|].
  apply contains_spec. reflexivity.
Defined.

(** ** The museum score, exactly *)

(** X2.  The cap of [_calculate_significance_score] never cuts: the five
    bonuses add up to 5 at most, so the score returned is the plain sum of
    the base 5 and the bonuses that apply, and it is 10 exactly when all
    five apply. *)
Theorem museum_score_is_the_sum (data : pydict) (artist date : string) :
  get_or data "artistDisplayName" (PStr "") = PStr artist ->
  get_or data "objectDate" (PStr "") = PStr date ->
  exists s,
    _calculate_significance_score data = Ok s
    /\ (s == museum_rules_total
               (any_in famous_artists artist)
               (any_in age_markers (lower date))
               (truthy (get data "isPublicDomain"))
               (truthy (get data "primaryImage"))
               (truthy (get data "isOnView")))%Q
    /\ ((s == 10)%Q <->
        any_in famous_artists artist = true
        /\ any_in age_markers (lower date) = true
        /\ truthy (get data "isPublicDomain") = true
        /\ truthy (get data "primaryImage") = true
        /\ truthy (get data "isOnView") = true).
Proof.
  intros Ha Hd. unfold _calculate_significance_score, rbind.
  rewrite Ha, Hd. cbn [py_any_in py_lower].
  destruct (any_in famous_artists artist), (any_in age_markers (lower date)),
    (truthy (get data "isPublicDomain")), (truthy (get data "primaryImage")),
    (truthy (get data "isOnView")).
  all: eexists; split; [reflexivity|].
  all: split; [vm_compute; reflexivity|].
  all: split; [intros H; vm_compute in H; try discriminate H; auto
              | intros (? & ? & ? & ? & ?); try discriminate; reflexivity].
Qed.

Lemma museum_score_is_the_sum_witness :
  exists s, _calculate_significance_score mona_payload = Ok s /\ (s == 6)%Q.
Proof.
  destruct (museum_score_is_the_sum mona_payload "" "" eq_refl eq_refl)
    as (s & E & V & _).
  exists s. split; [exact E|]. rewrite V. vm_compute. reflexivity.
Defined.

(** X3.  Of the scalars a payload can hold as artistDisplayName and as
    objectDate (a null, a boolean, an integer or a text; arrays and
    objects are outside the model), [_calculate_significance_score]
    returns a score exactly for the texts, a missing member standing for
    the empty text: a null, a boolean or an integer in either of the two
    makes it raise. *)
Theorem museum_score_domain (data : pydict) :
  (exists s, _calculate_significance_score data = Ok s)
  <-> is_text (get_or data "artistDisplayName" (PStr "")) = true
      /\ is_text (get_or data "objectDate" (PStr "")) = true.
Proof.
  unfold _calculate_significance_score, rbind. split.
  - intros [s H].
    destruct (get_or data "artistDisplayName" (PStr "")) as [|b|z|a];
      try discriminate H.
    destruct (get_or data "objectDate" (PStr "")) as [|b|z|d];
      try discriminate H.
    now split.
  - intros [Ha Hd].
    destruct (get_or data "artistDisplayName" (PStr "")) as [|b|z|a];
      try discriminate Ha.
    destruct (get_or data "objectDate" (PStr "")) as [|b|z|d];
      try discriminate Hd.
    cbn [py_any_in py_lower]. eexists. reflexivity.
Qed.

(** A null artist makes the score raise. *)
Example museum_score_null_artist :
  _calculate_significance_score
    [ ("title"%string, PStr "Vase"); ("isPublicDomain"%string, PBool true);
      ("artistDisplayName"%string, PNone) ]
  = Raise (Exn TypeError "argument is not iterable").
Proof. reflexivity. Qed.

(** ** The separator of the identity key *)

(** X4.  The identity key joins name, location and source with an
    underscore that is not escaped: a text cut off the end of the name,
    after an underscore, and put in front of the location gives the same
    key, so two such items are taken for one. *)
Theorem hash_id_separator_ambiguity (a b : HeritageItem) (n x l : string) :
  name a = PStr (n ++ "_" ++ x) -> location a = l ->
  name b = PStr n -> location b = (x ++ "_" ++ l)%string ->
  source a = source b ->
  hash_id a = hash_id b.
Proof.
  intros Ha La Hb Lb Hs. unfold hash_id, item_data.
  rewrite Ha, La, Hb, Lb, Hs. cbn [py_str].
  now rewrite !append_assoc.
Qed.

Lemma hash_id_separator_ambiguity_witness : hash_id vase_a = hash_id vase_b.
Proof.
  exact (hash_id_separator_ambiguity vase_a vase_b "Vase" "A" "Paris"
           eq_refl eq_refl eq_refl eq_refl eq_refl).
Defined.

(** ** The table under [save_to_database] *)

Lemma update_row_immutable (item : HeritageItem) (h : string) (r : heritage_row) :
  immutable_columns (update_row item h r) = immutable_columns r.
Proof. unfold update_row. now destruct (col_hash_id r =? h)%string. Qed.

Lemma update_row_other (item : HeritageItem) (h : string) (r : heritage_row) :
  col_hash_id r <> h -> update_row item h r = r.
Proof.
  intros N. unfold update_row.
  destruct (String.eqb_spec (col_hash_id r) h); [contradiction | reflexivity].
Qed.

Lemma save_item_immutable (item : HeritageItem) rows n u :
  exists added,
    map immutable_columns (fst (upsert item (rows, (n, u))))
    = map immutable_columns rows ++ added
    /\ (List.length added + n = fst (snd (upsert item (rows, (n, u)))))%nat.
Proof.
  unfold upsert. destruct (select_id (hash_id item) rows); cbn [fst snd].
  - exists []. rewrite app_nil_r, map_map. split; [|reflexivity].
    apply map_ext. intros r. apply update_row_immutable.
  - eexists [_]. unfold insert_row. rewrite map_app. split; reflexivity.
Qed.

Lemma save_items_fold_immutable (items : list HeritageItem) : forall rows n u,
  let out := fold_left (fun acc item => upsert item acc) items (rows, (n, u)) in
  exists added,
    map immutable_columns (fst out) = map immutable_columns rows ++ added
    /\ (List.length added + n = fst (snd out))%nat.
Proof.
  induction items as [|item items IH]; intros rows n u; cbv zeta.
  - exists []. now rewrite app_nil_r.
  - cbn [fold_left].
    destruct (save_item_immutable item rows n u) as (add1 & E1 & L1).
    destruct (upsert item (rows, (n, u))) as [rows1 [n1 u1]] eqn:Es.
    cbn [fst snd] in E1, L1.
    destruct (IH rows1 n1 u1) as (add2 & E2 & L2). cbv zeta in E2, L2.
    exists (add1 ++ add2). rewrite E2, E1, <- app_assoc. split; [reflexivity|].
    rewrite length_app. lia.
Qed.

(** The tables after a successful [save_to_database]. *)
Lemma save_to_database_db (e : env) (items : list HeritageItem) (s s' : state) counts :
  run (save_to_database items) e s = (Ok counts, s') ->
  db s' = set_heritage_items (fst (upsert_all items (heritage_items (db s)))) (db s)
  /\ counts = snd (upsert_all items (heritage_items (db s)))
  /\ connects s' = S (connects s) /\ sent s' = sent s /\ ticks s' = ticks s.
Proof.
  intros H.
  pose proof (wp_run _ e s _ (save_to_database_spec e items s)) as W.
  rewrite H in W. cbn [fst snd] in W. destruct W as (C & S1 & T & _ & _ & W).
  destruct (db_fault e (connects s)); [destruct W as [W1 W2]; discriminate|].
  destruct (save_items items (heritage_items (db s))) as [saved|ex] eqn:E;
    destruct W as [W1 W2]; [|discriminate].
  apply save_items_ok in E. subst saved.
  injection W1 as ->. auto.
Qed.

(** X5.  [save_to_database] never removes a row and never touches the
    columns id, name, location, type, period, source and hash_id of a
    stored row: seen through these columns the table after a call is the
    table before it followed by the rows of the new items, as many as the
    count of new items returned.  The two other tables are left as they
    were. *)
Theorem save_keeps_stored_rows (e : env) (s s' : state) (items : list HeritageItem)
    (new updated : nat) :
  run (save_to_database items) e s = (Ok (new, updated), s') ->
  (exists added,
     map immutable_columns (heritage_items (db s'))
     = map immutable_columns (heritage_items (db s)) ++ added
     /\ List.length added = new)
  /\ threat_monitoring (db s') = threat_monitoring (db s)
  /\ collection_stats (db s') = collection_stats (db s).
Proof.
  intros R. apply save_to_database_db in R as (D & C & _).
  rewrite D. cbn [heritage_items threat_monitoring collection_stats set_heritage_items].
  split; [|now split].
  destruct (save_items_fold_immutable items (heritage_items (db s)) 0 0)
    as (added & E & L). cbv zeta in E, L.
  fold (upsert_all items (heritage_items (db s))) in E, L.
  rewrite <- C in L. cbn [fst snd] in L.
  exists added. split; [exact E | lia].
Qed.

Lemma save_keeps_stored_rows_witness :
  exists added,
    map immutable_columns (heritage_items (db after_second_sighting))
    = map immutable_columns (heritage_items (db after_first_sighting)) ++ added
    /\ List.length added = 0%nat.
Proof.
  refine (proj1 (save_keeps_stored_rows offline_env after_first_sighting
                   after_second_sighting [mona_in_storage] 0 1 _)).
  vm_compute. reflexivity.
Defined.

Lemma next_id_above (ids : list Z) (i : Z) : In i ids -> i < next_id ids.
Proof.
  unfold next_id. induction ids as [|j ids IH]; cbn [fold_right In]; intros Hin;
    [contradiction|].
  destruct Hin as [->|Hin]; [lia|]. specialize (IH Hin). lia.
Qed.

Lemma save_item_ids (item : HeritageItem) rows counts :
  NoDup (map col_id rows) -> NoDup (map col_id (fst (upsert item (rows, counts)))).
Proof.
  unfold upsert. destruct counts as [n u].
  destruct (select_id (hash_id item) rows); cbn [fst]; intros Hnd.
  - rewrite map_map.
    erewrite map_ext; [exact Hnd|].
    intros r. unfold update_row. now destruct (col_hash_id r =? hash_id item)%string.
  - unfold insert_row. rewrite map_app. cbn [map col_id].
    apply NoDup_app; [exact Hnd | repeat constructor; simpl; tauto|].
    intros x Hx [<-|[]]. apply next_id_above in Hx. lia.
Qed.

Lemma save_items_fold_ids (items : list HeritageItem) : forall acc,
  NoDup (map col_id (fst acc)) ->
  NoDup (map col_id (fst (fold_left (fun acc item => upsert item acc) items acc))).
Proof.
  induction items as [|item items IH]; intros [rows counts] H; simpl; [exact H|].
  apply IH. now apply save_item_ids.
Qed.

(** X6.  [save_to_database] keeps the two keys of the table: when no two
    rows share an id and no two rows share a hash_id before a call, the
    same holds after it, whatever the items saved. *)
Theorem save_keeps_keys (e : env) (s s' : state) (items : list HeritageItem)
    (counts : nat * nat) :
  run (save_to_database items) e s = (Ok counts, s') ->
  NoDup (map col_id (heritage_items (db s))) ->
  unique_hash_id (heritage_items (db s)) ->
  NoDup (map col_id (heritage_items (db s')))
  /\ unique_hash_id (heritage_items (db s')).
Proof.
  intros R Hi Hh. apply save_to_database_ok in R as [_ R]. rewrite R. split.
  - unfold upsert_all. now apply save_items_fold_ids.
  - now apply save_items_unique.
Qed.

Lemma save_keeps_keys_witness :
  NoDup (map col_id (heritage_items (db eleven_store)))
  /\ unique_hash_id (heritage_items (db eleven_store)).
Proof.
  refine (save_keeps_keys offline_env initial_state eleven_store eleven_places
            (11, 0)%nat _ _ _).
  - vm_compute. reflexivity.
  - constructor.
  - constructor.
Defined.

Lemma last_with_key_snoc (h : string) (items : list HeritageItem) (x : HeritageItem) :
  last_with_key h (items ++ [x])
  = if (hash_id x =? h)%string then Some x else last_with_key h items.
Proof. unfold last_with_key. now rewrite rev_unit. Qed.

Lemma last_with_key_hash (h : string) (items : list HeritageItem) (i : HeritageItem) :
  last_with_key h items = Some i -> hash_id i = h /\ In i items.
Proof.
  unfold last_with_key. intros H. apply find_some in H as [Hin E].
  apply String.eqb_eq in E. split; [exact E | now apply in_rev].
Qed.

Lemma last_with_key_some (items : list HeritageItem) (i : HeritageItem) :
  In i items -> exists j, last_with_key (hash_id i) items = Some j.
Proof.
  intros Hin. unfold last_with_key.
  destruct (find _ (rev items)) as [j|] eqn:E; [now exists j|].
  apply in_rev in Hin. apply (find_none _ _ E i) in Hin.
  now rewrite String.eqb_refl in Hin.
Qed.

Lemma keyed_app (h : string) (l1 l2 : list heritage_row) :
  keyed h (l1 ++ l2) = keyed h l1 ++ keyed h l2.
Proof. apply filter_app. Qed.

Lemma keyed_update_other (item : HeritageItem) (h h' : string) (rows : list heritage_row) :
  h <> h' -> keyed h (map (update_row item h') rows) = keyed h rows.
Proof.
  intros N. unfold keyed. induction rows as [|r rows IH]; simpl; [reflexivity|].
  rewrite update_row_hash, IH.
  destruct (String.eqb_spec (col_hash_id r) h) as [E|_]; [|reflexivity].
  rewrite update_row_other; [reflexivity | congruence].
Qed.

(** After its turn an item has one row, with its own values. *)
Lemma save_item_keyed_self (item : HeritageItem) rows counts :
  unique_hash_id rows ->
  exists r, keyed (hash_id item) (fst (upsert item (rows, counts))) = [r]
            /\ mutable_columns r = item_mutable_columns item.
Proof.
  intros Hu. unfold upsert. destruct counts as [n u].
  destruct (select_id (hash_id item) rows) eqn:E; cbn [fst].
  - assert (Hin : In (hash_id item) (map col_hash_id rows)).
    { destruct (in_dec string_dec (hash_id item) (map col_hash_id rows)) as [H|H];
        [exact H|]. apply select_id_none in H. congruence. }
    destruct (keyed_unique _ _ Hu Hin) as [r0 Hr0].
    exists (update_row item (hash_id item) r0).
    rewrite keyed_update, Hr0. split; [reflexivity|].
    assert (Hk : col_hash_id r0 = hash_id item).
    { assert (Hm : In r0 (keyed (hash_id item) rows)) by (rewrite Hr0; now left).
      apply filter_In in Hm as [_ Hm]. now apply String.eqb_eq. }
    unfold update_row, mutable_columns, item_mutable_columns.
    now rewrite Hk, String.eqb_refl.
  - apply select_id_none in E. unfold insert_row.
    rewrite keyed_app, (keyed_absent _ _ E). unfold keyed. cbn [filter col_hash_id].
    rewrite String.eqb_refl. eexists. split; reflexivity.
Qed.

(** The turn of an item leaves the rows of the other keys alone. *)
Lemma save_item_keyed_other (item : HeritageItem) (h : string) rows counts :
  h <> hash_id item ->
  keyed h (fst (upsert item (rows, counts))) = keyed h rows.
Proof.
  intros N. unfold upsert. destruct counts as [n u].
  destruct (select_id (hash_id item) rows); cbn [fst].
  - now apply keyed_update_other.
  - unfold insert_row. rewrite keyed_app. unfold keyed at 2. cbn [filter col_hash_id].
    destruct (String.eqb_spec (hash_id item) h) as [E|_]; [congruence|].
    apply app_nil_r.
Qed.

Lemma save_items_fold_last (items : list HeritageItem) : forall acc h,
  unique_hash_id (fst acc) ->
  match last_with_key h items with
  | Some i =>
      exists r,
        keyed h (fst (fold_left (fun acc item => upsert item acc) items acc)) = [r]
        /\ mutable_columns r = item_mutable_columns i
  | None =>
      keyed h (fst (fold_left (fun acc item => upsert item acc) items acc))
      = keyed h (fst acc)
  end.
Proof.
  induction items as [|x items IH] using rev_ind; intros acc h Hu.
  - reflexivity.
  - rewrite fold_left_app, last_with_key_snoc. cbn [fold_left].
    pose proof (save_items_fold_unique items acc Hu) as Hu'.
    specialize (IH acc h Hu).
    destruct (fold_left _ items acc) as [rows counts]. cbn [fst] in *.
    destruct (String.eqb_spec (hash_id x) h) as [<-|N].
    + now apply save_item_keyed_self.
    + rewrite save_item_keyed_other by congruence. exact IH.
Qed.

(** X7.  Within one call of [save_to_database] the last item wins: after
    a successful call on a table with unique keys, a key borne by items
    of the list has one row, and its score, threat level, update time and
    metadata are those of the last item of the list with that key; the
    rows of every other key are as they were. *)
Theorem save_last_write_wins (e : env) (s s' : state) (items : list HeritageItem)
    (counts : nat * nat) (h : string) :
  run (save_to_database items) e s = (Ok counts, s') ->
  unique_hash_id (heritage_items (db s)) ->
  match last_with_key h items with
  | Some i =>
      exists r, keyed h (heritage_items (db s')) = [r]
                /\ mutable_columns r = item_mutable_columns i
  | None => keyed h (heritage_items (db s')) = keyed h (heritage_items (db s))
  end.
Proof.
  intros R Hu. apply save_to_database_ok in R as [_ R]. rewrite R.
  exact (save_items_fold_last items (heritage_items (db s), (0, 0)%nat) h Hu).
Qed.

Lemma save_last_write_wins_witness :
  exists r, keyed (hash_id mona_on_display) (heritage_items (db after_double_sighting)) = [r]
            /\ mutable_columns r = item_mutable_columns mona_in_storage.
Proof.
  assert (R : run (save_to_database [mona_on_display; mona_in_storage])
                  offline_env initial_state
              = (Ok (1, 1)%nat, after_double_sighting))
    by (vm_compute; reflexivity).
  pose proof (save_last_write_wins offline_env initial_state after_double_sighting
                [mona_on_display; mona_in_storage] (1, 1)%nat
                (hash_id mona_on_display) R) as H.
  assert (L : last_with_key (hash_id mona_on_display)
                [mona_on_display; mona_in_storage] = Some mona_in_storage)
    by (vm_compute; reflexivity).
  rewrite L in H. apply H. constructor.
Defined.

Lemma apply_last_hash (items : list HeritageItem) (r : heritage_row) :
  col_hash_id (apply_last items r) = col_hash_id r.
Proof.
  unfold apply_last. destruct (last_with_key _ items); [apply update_row_hash | reflexivity].
Qed.

Lemma update_row_twice (x i : HeritageItem) (h h' : string) (r : heritage_row) :
  col_hash_id r = h -> update_row x h (update_row i h' r) = update_row x h r.
Proof.
  intros E. unfold update_row at 1 3. rewrite update_row_hash, E, String.eqb_refl.
  unfold update_row. now destruct (col_hash_id r =? h')%string.
Qed.

Lemma update_row_settled (i : HeritageItem) (r : heritage_row) :
  mutable_columns r = item_mutable_columns i -> update_row i (hash_id i) r = r.
Proof.
  unfold mutable_columns, item_mutable_columns, update_row. intros E.
  injection E as E1 E2 E3 E4.
  destruct (col_hash_id r =? hash_id i)%string; [|reflexivity].
  destruct r. cbn in *. now subst.
Qed.

(** On a table that has the keys of all the items, the loop only updates:
    each row ends with the values of the last item of its key. *)
Lemma save_items_fold_stored (items : list HeritageItem) : forall rows counts,
  (forall i, In i items -> In (hash_id i) (map col_hash_id rows)) ->
  fst (fold_left (fun acc item => upsert item acc) items (rows, counts))
  = map (apply_last items) rows.
Proof.
  induction items as [|x items IH] using rev_ind; intros rows counts Hin.
  - cbn [fold_left fst]. symmetry. erewrite map_ext; [apply map_id|]. reflexivity.
  - rewrite fold_left_app. cbn [fold_left].
    assert (IH' := IH rows counts (fun i H => Hin i (in_or_app _ _ _ (or_introl H)))).
    destruct (fold_left _ items (rows, counts)) as [rows1 [n u]]. cbn [fst] in IH'.
    subst rows1. unfold upsert.
    assert (Hx : In (hash_id x) (map col_hash_id (map (apply_last items) rows))).
    { rewrite map_map. erewrite map_ext; [|apply apply_last_hash].
      apply Hin, in_or_app. right. now left. }
    destruct (select_id_some _ _ Hx) as [j ->]. cbn [fst].
    rewrite map_map. apply map_ext. intros r.
    unfold apply_last at 2. rewrite last_with_key_snoc.
    destruct (String.eqb_spec (hash_id x) (col_hash_id r)) as [E|N].
    + unfold apply_last. destruct (last_with_key (col_hash_id r) items).
      * now apply update_row_twice.
      * reflexivity.
    + fold (apply_last items r).
      apply update_row_other. rewrite apply_last_hash. congruence.
Qed.

(** X8.  [save_to_database] is idempotent on a whole list: saving the
    same list a second time leaves the table exactly as the first call
    left it, and counts every item as updated and none as new. *)
Theorem save_twice_changes_nothing (e : env) (s s1 s2 : state)
    (items : list HeritageItem) (c1 c2 : nat * nat) :
  unique_hash_id (heritage_items (db s)) ->
  run (save_to_database items) e s = (Ok c1, s1) ->
  run (save_to_database items) e s1 = (Ok c2, s2) ->
  heritage_items (db s2) = heritage_items (db s1)
  /\ c2 = (0%nat, List.length items).
Proof.
  intros Hu R1 R2.
  apply save_to_database_ok in R1 as [_ R1], R2 as [C2 R2].
  set (rows := heritage_items (db s)) in *.
  set (rows1 := heritage_items (db s1)) in *.
  assert (Hlast : forall h,
             match last_with_key h items with
             | Some i => exists r, keyed h rows1 = [r]
                                   /\ mutable_columns r = item_mutable_columns i
             | None => keyed h rows1 = keyed h rows
             end).
  { intros h. rewrite R1.
    exact (save_items_fold_last items (rows, (0, 0)%nat) h Hu). }
  assert (Hstored : forall i, In i items -> In (hash_id i) (map col_hash_id rows1)).
  { intros i Hi. destruct (last_with_key_some items i Hi) as [j Hj].
    specialize (Hlast (hash_id i)). rewrite Hj in Hlast.
    destruct Hlast as (r & Hr & _).
    assert (Hm : In r (keyed (hash_id i) rows1)) by (rewrite Hr; now left).
    apply filter_In in Hm as [Hm E]. apply String.eqb_eq in E.
    rewrite <- E. now apply in_map. }
  assert (Hrows : fst (upsert_all items rows1) = rows1).
  { unfold upsert_all. rewrite save_items_fold_stored by exact Hstored.
    erewrite map_ext_in; [apply map_id|].
    intros r Hr. unfold apply_last.
    specialize (Hlast (col_hash_id r)).
    destruct (last_with_key (col_hash_id r) items) as [i|]; [|reflexivity].
    destruct Hlast as (r' & Hk & Hm).
    assert (Hin : In r (keyed (col_hash_id r) rows1)).
    { apply filter_In. split; [exact Hr | apply String.eqb_refl]. }
    rewrite Hk in Hin. destruct Hin as [<-|[]].
    now apply update_row_settled. }
  split; [now rewrite R2|].
  destruct (save_items_fold_counts items rows1 0 0) as [H1 H2].
  fold (upsert_all items rows1) in H1, H2.
  rewrite C2. destruct (snd (upsert_all items rows1)) as [n u]. cbn [fst snd] in *.
  assert (Hn : first_sightings (map col_hash_id rows1) (map hash_id items) = []).
  { destruct (first_sightings _ _) as [|k l] eqn:E; [reflexivity|].
    assert (Hk : In k (first_sightings (map col_hash_id rows1) (map hash_id items)))
      by (rewrite E; now left).
    apply first_sightings_In in Hk as [Hk1 Hk2].
    apply in_map_iff in Hk1 as [i [<- Hi]]. exfalso. apply Hk2. now apply Hstored. }
  rewrite Hn in H1. cbn in H1. subst n. f_equal. lia.
Qed.

Lemma save_twice_changes_nothing_witness :
  heritage_items
    (db (snd (run (save_to_database [mona_on_display; mona_in_storage])
                  offline_env after_double_sighting)))
  = heritage_items (db after_double_sighting).
Proof.
  refine (proj1 (save_twice_changes_nothing offline_env initial_state
                   after_double_sighting
                   (snd (run (save_to_database [mona_on_display; mona_in_storage])
                             offline_env after_double_sighting))
                   [mona_on_display; mona_in_storage] (1, 1)%nat (0, 2)%nat _ _ _)).
  - constructor.
  - vm_compute. reflexivity.
  - vm_compute. reflexivity.
Defined.

(** ** When saving fails *)





(** An integer title beyond 64 bits cannot be bound. *)
Example oversized_name_fails :
  insert_row_check
    {| name := PInt (2 ^ 63); location := ""; type := PStr "artwork";
       period := PStr "Unknown"; significance_score := 5; threat_level := "Medium";
       last_updated := noon; source := "Metropolitan Museum"; metadata := [] |}
  = Raise (Exn OverflowError "Python int too large to convert to SQLite INTEGER").
Proof. vm_compute. reflexivity. Qed.



(** ** The table of threats *)

(** X9.  [save_threats_to_database] only appends: after a successful
    call the threat table is the table before it followed by one row for
    each threat passed, in order and without any deduplication, holding
    the threat's keyword, severity, title (in the column description) and
    source, with 'unknown', 'unknown', '' and 'news' for missing keys;
    the number returned is the number of threats passed, and the two
    other tables are untouched. *)
Theorem save_threats_appends (e : env) (s s' : state) (threats : list pydict) (n : nat) :
  run (save_threats_to_database threats) e s = (Ok n, s') ->
  n = List.length threats
  /\ heritage_items (db s') = heritage_items (db s)
  /\ collection_stats (db s') = collection_stats (db s)
  /\ exists added,
       threat_monitoring (db s') = threat_monitoring (db s) ++ added
       /\ map threat_row_values added = map threat_values threats.
Proof.
  intros R.
  pose proof (wp_run _ e s _ (save_threats_to_database_spec e threats s)) as W.
  rewrite R in W. cbn [fst snd] in W.
  destruct W as (_ & _ & Hh & Hc & Hn & added & Ht & Hv).
  split; [exact Hn|]. split; [exact Hh|]. split; [exact Hc|]. now exists added.
Qed.

Lemma save_threats_appends_witness :
  2%nat = List.length [headline_both; headline_both].
Proof.
  refine (proj1 (save_threats_appends offline_env initial_state
                   (snd (run (save_threats_to_database [headline_both; headline_both])
                             offline_env initial_state))
                   [headline_both; headline_both] 2 _)).
  vm_compute. reflexivity.
Defined.

(** The same threat saved twice makes two rows. *)
Example threats_not_deduplicated :
  map threat_row_values
      (threat_monitoring
         (db (snd (run (save_threats_to_database [headline_both; headline_both])
                       offline_env initial_state))))
  = [ (PStr "unknown", PStr "unknown", PStr "Temple DESTROYED, museum damaged",
       PStr "news");
      (PStr "unknown", PStr "unknown", PStr "Temple DESTROYED, museum damaged",
       PStr "news") ].
Proof. vm_compute. reflexivity. Qed.

(** ** The report: what the ten entries are *)

Lemma StronglySorted_app_order {A} (R : A -> A -> Prop) (l1 l2 : list A) :
  StronglySorted R (l1 ++ l2) -> forall x y, In x l1 -> In y l2 -> R x y.
Proof.
  induction l1 as [|a l1 IH]; simpl; intros Hs x y Hx Hy; [contradiction|].
  inversion Hs as [|a' l' Hs' Hall]; subst.
  destruct Hx as [->|Hx].
  - rewrite Forall_forall in Hall. apply Hall, in_or_app. now right.
  - now apply IH.
Qed.

(** X10.  With at most ten distinct non-empty locations in the store the
    report lists them all: [top_locations] is then the full set of
    locations with their counts, in some order, so two reports of the
    same store hold the same entries. *)
Theorem top_locations_complete (d : database) (top top' : list (string * nat)) :
  (List.length (location_groups (heritage_items d)) <= 10)%nat ->
  report_top_locations d top ->
  report_top_locations d top' ->
  Permutation top (location_groups (heritage_items d))
  /\ Permutation top top'
  /\ forall loc, In loc (located (heritage_items d)) ->
       In (loc, count_occ string_dec (located (heritage_items d)) loc) top.
Proof.
  intros Hlen H H'.
  assert (P : forall t, report_top_locations d t ->
                        Permutation t (location_groups (heritage_items d))).
  { intros t (fetched & Hq & ->).
    rewrite (dict_of_pairs_distinct _ (top_locations_query_keys _ _ Hq)).
    destruct Hq as (ordered & Hp & _ & ->).
    rewrite firstn_all2; [exact Hp|].
    now rewrite (Permutation_length Hp). }
  pose proof (P top H) as Pt. pose proof (P top' H') as Pt'.
  split; [exact Pt|]. split.
  - eapply perm_trans; [exact Pt | now apply Permutation_sym].
  - intros loc Hin. apply (Permutation_in _ (Permutation_sym Pt)).
    now apply location_groups_In.
Qed.

Lemma top_locations_complete_witness :
  Permutation
    (dict_of_pairs (top_locations_stable (heritage_items (db after_double_sighting))))
    (location_groups (heritage_items (db after_double_sighting))).
Proof.
  assert (R : report_top_locations (db after_double_sighting)
                (dict_of_pairs
                   (top_locations_stable (heritage_items (db after_double_sighting))))).
  { eexists. split; [apply top_locations_stable_admissible | reflexivity]. }
  refine (proj1 (top_locations_complete (db after_double_sighting) _ _ _ R R)).
  vm_compute. repeat constructor.
Defined.

(** X11.  [top_locations] is a top: no location left out of it has more
    rows than a location listed in it. *)
Theorem top_locations_are_largest (d : database) (top : list (string * nat))
    (loc loc' : string) (n : nat) :
  report_top_locations d top ->
  In (loc, n) top ->
  In loc' (located (heritage_items d)) ->
  ~ In loc' (map fst top) ->
  (count_occ string_dec (located (heritage_items d)) loc' <= n)%nat.
Proof.
  intros (fetched & Hq & ->) Hin Hloc Hout.
  rewrite (dict_of_pairs_distinct _ (top_locations_query_keys _ _ Hq)) in Hin, Hout.
  destruct Hq as (ordered & Hp & Hs & ->).
  apply (Sorted_StronglySorted count_desc_transitive) in Hs.
  rewrite <- (firstn_skipn 10 ordered) in Hs.
  set (m := count_occ string_dec (located (heritage_items d)) loc').
  assert (Hg : In (loc', m) ordered).
  { apply (Permutation_in _ (Permutation_sym Hp)). now apply location_groups_In. }
  rewrite <- (firstn_skipn 10 ordered) in Hg. apply in_app_or in Hg as [Hg|Hg].
  - exfalso. apply Hout. apply in_map_iff. now exists (loc', m).
  - exact (StronglySorted_app_order _ _ _ Hs _ _ Hin Hg).
Qed.

Lemma top_locations_are_largest_witness :
  (count_occ string_dec (located (heritage_items (db eleven_store))) "Athens"%string
   <= 1)%nat.
Proof.
  refine (top_locations_are_largest (db eleven_store)
            (dict_of_pairs (top_locations_stable (heritage_items (db eleven_store))))
            "Kyoto"%string "Athens"%string 1%nat _ _ _ _).
  - eexists. split; [apply top_locations_stable_admissible | reflexivity].
  - vm_compute. tauto.
  - vm_compute. tauto.
  - vm_compute. intros H.
    repeat (destruct H as [H|H]; [discriminate H|]). exact H.
Defined.

(** ** The report: the counts *)

Lemma fold_left_add {A} (f : A -> nat) (l : list A) : forall a,
  fold_left (fun acc p => (acc + f p)%nat) l a = (a + list_sum (map f l))%nat.
Proof.
  induction l as [|x l IH]; intros a; simpl; [lia|]. rewrite IH. lia.
Qed.

Lemma list_sum_perm (l l' : list nat) : Permutation l l' -> list_sum l = list_sum l'.
Proof. induction 1; simpl; lia. Qed.

Lemma list_sum_indicator (a : string) (ks : list string) :
  NoDup ks -> In a ks ->
  list_sum (map (fun k => if (a =? k)%string then 1 else 0)%nat ks) = 1%nat.
Proof.
  induction ks as [|k ks IH]; simpl; intros Hnd Hin; [contradiction|].
  inversion Hnd as [|k' ks' Hk Hnd']; subst.
  destruct (String.eqb_spec a k) as [->|N].
  - assert (E : list_sum (map (fun k0 => if (k =? k0)%string then 1 else 0)%nat ks) = 0%nat).
    { clear IH Hnd Hnd' Hin. induction ks as [|x ks IHk]; simpl; [reflexivity|].
      destruct (String.eqb_spec k x) as [->|_]; [exfalso; apply Hk; now left|].
      apply IHk. intros H. apply Hk. now right. }
    rewrite E. reflexivity.
  - destruct Hin as [->|Hin]; [contradiction|]. now rewrite IH.
Qed.

(** Grouping by a column splits the rows: the sizes of the groups add up to
    the number of rows. *)
Lemma group_sizes_sum {A} (key : A -> string) (l : list A) (ks : list string) :
  NoDup ks -> (forall x, In x l -> In (key x) ks) ->
  list_sum (map (fun k => List.length (filter (fun x => (key x =? k)%string) l)) ks)
  = List.length l.
Proof.
  intros Hnd. induction l as [|x l IH]; intros Hin.
  - clear Hnd Hin. induction ks as [|k ks IHk]; simpl; [reflexivity | exact IHk].
  - assert (E : forall k,
               List.length (filter (fun y => (key y =? k)%string) (x :: l))
               = ((if (key x =? k)%string then 1 else 0)
                  + List.length (filter (fun y => (key y =? k)%string) l))%nat).
    { intros k. simpl. now destruct (key x =? k)%string. }
    erewrite map_ext; [|exact E].
    assert (S : forall (f g : string -> nat) ks,
               list_sum (map (fun k => (f k + g k)%nat) ks)
               = (list_sum (map f ks) + list_sum (map g ks))%nat).
    { intros f g ks0. induction ks0; simpl; lia. }
    rewrite S, IH, list_sum_indicator.
    + reflexivity.
    + exact Hnd.
    + apply Hin. now left.
    + intros y Hy. apply Hin. now right.
Qed.

(** X12.  The counts of the report add up: [total_items], the sum of the
    per-source counts, is the number of rows of [heritage_items], and so
    is the sum of the counts of [threat_distribution]; the report has one
    entry for each source and one for each threat level in the store. *)
Theorem report_counts_add_up (d : database) (r : report_counts) :
  report_counts_of d r ->
  report_total_items r = List.length (heritage_items d)
  /\ list_sum (map snd (report_threat_distribution r)) = List.length (heritage_items d)
  /\ (forall src, In src (map fst (report_sources r))
                  <-> In src (map col_source (heritage_items d)))
  /\ (forall lvl, In lvl (map fst (report_threat_distribution r))
                  <-> In lvl (map col_threat_level (heritage_items d))).
Proof.
  intros (sources & threats & Hs & Ht & -> & -> & ->).
  unfold sources_query in Hs. unfold threats_query in Ht.
  set (rows := heritage_items d) in *.
  assert (Ks : NoDup (map fst (map (fun p : string * nat * Q =>
                                      (fst (fst p), (snd (fst p), snd p))) sources))).
  { rewrite map_map. cbn [fst].
    eapply Permutation_NoDup;
      [apply Permutation_sym, (Permutation_map (fun p => fst (fst p))), Hs|].
    unfold source_groups. rewrite map_map. cbn [fst]. rewrite map_id.
    apply NoDup_nodup. }
  assert (Kt : NoDup (map fst threats)).
  { eapply Permutation_NoDup; [apply Permutation_sym, Permutation_map, Ht|].
    unfold threat_groups. rewrite map_map. cbn [fst]. rewrite map_id.
    apply NoDup_nodup. }
  rewrite (dict_of_pairs_distinct _ Ks), (dict_of_pairs_distinct _ Kt).
  split; [|split; [|split]].
  - unfold total_items. rewrite fold_left_add. cbn [Nat.add].
    rewrite (list_sum_perm _ _ (Permutation_map (fun p => snd (fst p)) Hs)).
    unfold source_groups. rewrite map_map. cbn [fst snd].
    erewrite map_ext; [|intros src; apply length_map].
    apply (group_sizes_sum col_source rows); [apply NoDup_nodup|].
    intros x Hx. apply nodup_In. now apply in_map.
  - rewrite (list_sum_perm _ _ (Permutation_map snd Ht)).
    unfold threat_groups. rewrite map_map. cbn [snd].
    apply (group_sizes_sum col_threat_level rows); [apply NoDup_nodup|].
    intros x Hx. apply nodup_In. now apply in_map.
  - intros src. rewrite map_map. cbn [fst].
    assert (E : map (fun p : string * nat * Q => fst (fst p)) (source_groups rows)
                = nodup string_dec (map col_source rows)).
    { unfold source_groups. rewrite map_map. cbn [fst]. apply map_id. }
    split; intros H.
    + apply (nodup_In string_dec). rewrite <- E.
      exact (Permutation_in _ (Permutation_map _ Hs) H).
    + apply (nodup_In string_dec) in H. rewrite <- E in H.
      exact (Permutation_in _ (Permutation_sym (Permutation_map _ Hs)) H).
  - intros lvl.
    assert (E : map fst (threat_groups rows)
                = nodup string_dec (map col_threat_level rows)).
    { unfold threat_groups. rewrite map_map. cbn [fst]. apply map_id. }
    split; intros H.
    + apply (nodup_In string_dec). rewrite <- E.
      exact (Permutation_in _ (Permutation_map _ Ht) H).
    + apply (nodup_In string_dec) in H. rewrite <- E in H.
      exact (Permutation_in _ (Permutation_sym (Permutation_map _ Ht)) H).
Qed.

Lemma report_counts_in_order_admissible (d : database) :
  report_counts_of d (report_counts_in_order d).
Proof.
  exists (source_groups (heritage_items d)), (threat_groups (heritage_items d)).
  repeat split; apply Permutation_refl.
Qed.

Lemma report_counts_add_up_witness :
  report_total_items (report_counts_in_order (db eleven_store)) = 11%nat.
Proof.
  exact (proj1 (report_counts_add_up (db eleven_store)
                  (report_counts_in_order (db eleven_store))
                  (report_counts_in_order_admissible (db eleven_store)))).
Defined.

(** ** The ledger of a run *)

Lemma save_items_counts_sum (items : list HeritageItem) (rows : list heritage_row) :
  (fst (snd (upsert_all items rows)) + snd (snd (upsert_all items rows))
   = List.length items)%nat.
Proof.
  destruct (save_items_fold_counts items rows 0 0) as [_ H]. exact H.
Qed.

Lemma heritage_stage_ledger (e : env) (label what : string)
    (collect : M (list HeritageItem)) (s : state * run_results) :
  (forall s0, wp collect e (s0, tt)
                 (fun r s' => same_store s0 (fst s') /\ exists items, r = Ok items)) ->
  wp (heritage_stage label what collect) e s
     (fun _ s' =>
        collection_stats (db (fst s')) = collection_stats (db (fst s))
        /\ start_time (snd s') = start_time (snd s)
        /\ (balanced (snd s) -> balanced (snd s'))).
Proof.
  intros Hc. unfold heritage_stage.
  wp_step. wp_step. wp_step.
  eapply wp_conseq; [apply Hc|].
  intros r s1 ([Hdb Hcon] & items & ->). cbv beta iota.
  wp_step. wp_step.
  eapply wp_conseq; [apply save_to_database_spec|].
  intros r s2 (_ & _ & _ & _ & Hst & Hf). cbn [fst snd] in *.
  rewrite Hdb in Hst.
  assert (K : match r with
              | Ok counts => (fst counts + snd counts = List.length items)%nat
              | Raise _ => True
              end).
  { destruct (db_fault e (connects (fst s1))) as [msg|]; [now destruct Hf as [-> _]|].
    destruct (save_items items (heritage_items (db (fst s1)))) as [saved|ex] eqn:E;
      destruct Hf as [-> _]; [|exact I].
    apply save_items_ok in E. subst saved. apply save_items_counts_sum. }
  destruct r as [counts|ex].
  - repeat wp_step. cbn [fst snd]. repeat split; auto.
    unfold balanced. cbn [new_items updated_items total_items_collected record_source].
    lia.
  - unfold on_failure. repeat wp_step. cbn [fst snd]. repeat split; auto.
Qed.

Lemma threat_stage_ledger (e : env) (cfg : config) (s : state * run_results) :
  wp (threat_stage cfg) e s
     (fun _ s' =>
        collection_stats (db (fst s')) = collection_stats (db (fst s))
        /\ start_time (snd s') = start_time (snd s)
        /\ (balanced (snd s) -> balanced (snd s'))).
Proof.
  unfold threat_stage.
  wp_step. wp_step. wp_step.
  eapply wp_conseq; [apply monitor_cultural_threats_spec|].
  intros r s1 ([Hdb Hcon] & threats & ->). cbv beta iota.
  wp_step. wp_step.
  eapply wp_conseq; [apply save_threats_to_database_spec|].
  intros r s2 (_ & _ & _ & Hst & _). cbn [fst snd] in *. rewrite Hdb in Hst.
  destruct r as [n|ex].
  - repeat wp_step. cbn [fst snd]. auto.
  - unfold on_failure. repeat wp_step. cbn [fst snd]. auto.
Qed.

Lemma stage_split (what label : string) (fault : option string) :
  (List.length (stage_errors what fault) + List.length (stage_label label fault) = 1)%nat.
Proof. now destruct fault. Qed.

Lemma run_full_collection_body_ledger (e : env) (cfg : config) (s : state * run_results) :
  wp (run_full_collection_body cfg) e s
     (fun r s' =>
        r = Ok tt ->
        start_time (snd s') = start_time (snd s)
        /\ (balanced (snd s) -> balanced (snd s'))
        /\ exists row,
             collection_stats (db (fst s')) = collection_stats (db (fst s)) ++ [row]
             /\ records_run row (snd s')).
Proof.
  unfold run_full_collection_body.
  wp_step.
  eapply wp_conseq;
    [apply heritage_stage_ledger; intros s0; apply collect_met_museum_data_never_raises|].
  intros r1 s1 (C1 & T1 & B1). destruct r1 as [[]|ex]; [|discriminate].
  wp_step.
  eapply wp_conseq;
    [apply heritage_stage_ledger; intros s0; apply collect_unesco_data_never_raises|].
  intros r2 s2 (C2 & T2 & B2). destruct r2 as [[]|ex]; [|discriminate].
  wp_step.
  eapply wp_conseq; [apply threat_stage_ledger|].
  intros r3 s3 (C3 & T3 & B3). destruct r3 as [[]|ex]; [|discriminate].
  wp_step. apply wp_with_connection. cbv zeta. cbn [fst snd].
  destruct (db_fault e (connects (fst s3))) as [msg|]; [discriminate|].
  repeat wp_step. cbn [fst snd set_db db]. intros _.
  split; [cbn [start_time record_end]; congruence|].
  split; [intros B; unfold balanced in *;
          cbn [new_items updated_items total_items_collected record_end]; auto|].
  eexists. cbn [collection_stats insert_stats]. split.
  - rewrite C3, C2, C1. reflexivity.
  - unfold records_run. cbn. repeat split.
Qed.

(** X13.  The ledger of a run is consistent.  In the result of a run that
    returns, new_items + updated_items = total_items_collected; each of
    the three blocks is either in sources_processed or in errors; and
    the run has added one row to collection_stats, which holds the start
    time, the label 'full_collection', the three counters and the number
    of errors of the result. *)
Theorem run_full_collection_ledger (cfg : config) (e : env) (s s' : state)
    (res : run_results) :
  run (run_full_collection cfg) e s = (Ok res, s') ->
  balanced res
  /\ (List.length (errors res) + List.length (sources_processed res) = 3)%nat
  /\ start_time res = clock e (ticks s)
  /\ exists row,
       collection_stats (db s') = collection_stats (db s) ++ [row]
       /\ records_run row res.
Proof.
  intros R.
  assert (W : wp (run_full_collection cfg) e (s, tt)
                 (fun r s1 =>
                    forall res1, r = Ok res1 ->
                      balanced res1
                      /\ (List.length (errors res1)
                          + List.length (sources_processed res1) = 3)%nat
                      /\ start_time res1 = clock e (ticks s)
                      /\ exists row,
                           collection_stats (db (fst s1))
                           = collection_stats (db s) ++ [row]
                           /\ records_run row res1)).
  { unfold run_full_collection.
    wp_step. wp_step. wp_step. wp_step.
    eapply wp_conseq;
      [apply wp_and;
       [apply run_full_collection_body_spec | apply run_full_collection_body_ledger]|].
    cbn [fst snd connects db].
    intros r s1 ((_ & Hspec) & Hled).
    destruct r as [[]|ex]; [|cbv beta iota; intros res1 H; discriminate H].
    cbv beta iota. wp_step. cbn [fst snd]. intros res1 H. injection H as <-.
    destruct (Hled eq_refl) as (Hst & Hb & row & Hrow & Hrec).
    destruct (db_fault e (connects s + 3)) as [msg|]; [discriminate Hspec|].
    destruct Hspec as (_ & He & Hp).
    split; [apply Hb; reflexivity|]. split; [|split; [exact Hst | now exists row]].
    rewrite He, Hp. cbn [errors sources_processed initial_results app].
    rewrite !length_app.
    match goal with
    | |- context [stage_errors "Met Museum collection" ?f] =>
        pose proof (stage_split "Met Museum collection" "Metropolitan Museum" f)
    end.
    match goal with
    | |- context [stage_errors "UNESCO collection" ?f] =>
        pose proof (stage_split "UNESCO collection" "UNESCO" f)
    end.
    match goal with
    | |- context [stage_errors "Threat monitoring" ?f] =>
        pose proof (stage_split "Threat monitoring" "Threat Monitoring" f)
    end.
    lia. }
  apply wp_run in W. rewrite R in W. cbn [fst snd] in W. now apply W.
Qed.

Lemma run_full_collection_ledger_witness :
  balanced museum_down_result
  /\ (List.length (errors museum_down_result)
      + List.length (sources_processed museum_down_result) = 3)%nat.
Proof.
  assert (R : run (run_full_collection sample_config) museum_down_env initial_state
              = (Ok museum_down_result, museum_down_final))
    by (vm_compute; reflexivity).
  pose proof (run_full_collection_ledger sample_config museum_down_env initial_state
                museum_down_final museum_down_result R) as (B & L & _).
  split; [exact B | exact L].
Defined.

(** ** Loops that count *)

Section Counting.

Context {V : Type}.
Variable e : env.

(** [for_each] over a concatenation. *)
Lemma for_each_app {A} (l1 l2 : list A) (body : A -> SE V unit) s :
  for_each (l1 ++ l2) body e s
  = bind (for_each l1 body) (fun _ => for_each l2 body) e s.
Proof.
  revert s. induction l1 as [|x l1 IH]; intros s; simpl.
  - reflexivity.
  - unfold bind in *. destruct (body x e s) as [[[]|ex] s1]; [apply IH | reflexivity].
Qed.

(** A measure that grows by at most [B] in each turn grows by at most
    [B] times the number of turns. *)
Lemma wp_for_each_bound {A} (l : list A) (body : A -> SE V unit)
    (f : state * V -> nat) (B : nat) :
  (forall x s, In x l -> wp (body x) e s (fun _ s' => (f s' <= f s + B)%nat)) ->
  forall s, wp (for_each l body) e s
               (fun _ s' => (f s' <= f s + List.length l * B)%nat).
Proof.
  induction l as [|x l IH]; intros Hb s; simpl.
  - unfold wp, ret. simpl. lia.
  - apply wp_bind.
    eapply wp_conseq; [apply Hb; now left|].
    intros [[]|ex] s1 H1; [|lia].
    eapply wp_conseq; [apply IH; intros y s0 Hy; apply Hb; now right|].
    cbv beta. intros _ s2 H2. lia.
Qed.

End Counting.

(** ** Stripping *)

Lemma lstrip_head (cs s : string) (c : ascii) (rest : string) :
  lstrip cs s = String c rest -> mem_ascii c cs = false.
Proof.
  induction s as [|a s IH]; simpl; [discriminate|].
  destruct (mem_ascii a cs) eqn:E; [exact IH|].
  intros H. injection H as <- _. exact E.
Qed.

Lemma rstrip_head (cs s : string) (c : ascii) (rest : string) :
  rstrip cs s = String c rest -> exists s', s = String c s'.
Proof.
  destruct s as [|a s]; simpl; [discriminate|].
  destruct (rstrip cs s); [destruct (mem_ascii a cs); [discriminate|]|];
    intros H; injection H as <- _; now exists s.
Qed.

Lemma rstrip_last (cs s : string) : forall pre c,
  rstrip cs s = (pre ++ String c "")%string -> mem_ascii c cs = false.
Proof.
  induction s as [|a s IH]; intros pre c; simpl.
  - destruct pre; discriminate.
  - destruct (rstrip cs s) as [|b r] eqn:E.
    + destruct (mem_ascii a cs) eqn:Ea; [destruct pre; discriminate|].
      destruct pre as [|p pre]; simpl; intros H.
      * injection H as <-. exact Ea.
      * injection H as _ H. destruct pre; discriminate.
    + destruct pre as [|p pre]; simpl; intros H.
      * discriminate.
      * injection H as _ H. now apply (IH pre c).
Qed.

(** [strip] leaves no character of the set at either end. *)
Lemma strip_clean_ends (cs s : string) : clean_ends cs (strip cs s).
Proof.
  unfold clean_ends, strip. split.
  - intros c rest H. apply rstrip_head in H as [s' H]. now apply lstrip_head in H.
  - intros pre c H. now apply rstrip_last in H.
Qed.

(** ** The museum adapter *)

Lemma truthy_get_or (d : pydict) (k : string) (dflt : pyval) :
  truthy (get d k) = true -> get_or d k dflt = get d k.
Proof.
  unfold get, get_or. destruct (lookup d k); [reflexivity | discriminate].
Qed.

Lemma assess_threat_level_values (lo : string -> string) (data : pydict) (t : string) :
  _assess_threat_level lo data = Ok t -> In t ["High"; "Low"; "Medium"]%string.
Proof.
  unfold _assess_threat_level, rbind.
  destruct (py_lower _) as [location|]; [|discriminate].
  destruct (any_in _ location); [|destruct (truthy _)];
    intros H; injection H as <-; simpl; tauto.
Qed.

Lemma museum_score_public_domain (data : pydict) (s : Q) :
  truthy (get data "isPublicDomain") = true ->
  _calculate_significance_score data = Ok s -> (5.5 <= s)%Q /\ (s <= 10)%Q.
Proof.
  intros Hpd. unfold _calculate_significance_score, rbind. rewrite Hpd.
  destruct (py_any_in famous_artists _) as [famous|]; [|discriminate].
  destruct (py_lower _) as [lowered|]; [|discriminate].
  destruct famous, (any_in age_markers lowered),
    (truthy (get data "primaryImage")), (truthy (get data "isOnView")).
  all: intros H; injection H as <-; split; [|apply py_min_le_r].
  all: apply py_min_glb; lra.
Qed.

Lemma process_met_object_outcome (e : env) (cfg : config) (obj_id : Z) s :
  wp (process_met_object cfg obj_id) e s
     (fun _ s' =>
        sent (fst s') = sent (fst s) ++ [object_request cfg obj_id]
        /\ same_store (fst s) (fst s')
        /\ (snd s' = snd s
            \/ exists item, snd s' = snd s ++ [item] /\ met_item_ok item)).
Proof.
  unfold process_met_object. cbv zeta.
  assert (G : forall (s1 : state * list HeritageItem),
             s1 = ({| db := db (fst s); sent := sent (fst s) ++ [object_request cfg obj_id];
                      ticks := ticks (fst s); connects := connects (fst s) |}, snd s) ->
             sent (fst s1) = sent (fst s) ++ [object_request cfg obj_id]
             /\ same_store (fst s) (fst s1)
             /\ (snd s1 = snd s
                 \/ exists item, snd s1 = snd s ++ [item] /\ met_item_ok item)).
  { intros s1 ->. cbn [fst snd sent]. split; [reflexivity|]. split; [now split | now left]. }
  wp_step. wp_step; [|now apply G].
  wp_step. wp_step; [|now apply G].
  wp_step. wp_step; [|now apply G].
  destruct (negb (truthy (get data "title"))
            || negb (truthy (get data "isPublicDomain")))%bool eqn:Efilter.
  - wp_step. now apply G.
  - apply orb_false_iff in Efilter as [H1 H2]. apply negb_false_iff in H1, H2.
    wp_step. wp_step.
    destruct (_calculate_significance_score data) as [sig|ex] eqn:Esig; [|now apply G].
    wp_step. wp_step. wp_step. wp_step.
    destruct (_assess_threat_level (str_lower e) data) as [threat|ex] eqn:Ethreat;
      [|now apply G].
    wp_step. wp_step. wp_step. wp_step. wp_step.
    cbn [fst snd sent]. split; [reflexivity|]. split; [now split|].
    right. eexists. split; [reflexivity|].
    unfold met_item_ok.
    cbn [source name threat_level significance_score location metadata].
    split; [reflexivity|].
    split; [now rewrite (truthy_get_or _ _ _ H1)|].
    split; [now apply (assess_threat_level_values (str_lower e) data)|].
    split; [now apply (museum_score_public_domain data)|].
    split; [now apply (museum_score_public_domain data)|].
    split; [apply strip_clean_ends | exact H2].
Qed.

Lemma met_batch_loop (e : env) (cfg : config) (ids : list Z) : forall s,
  wp (for_each ids (fun obj_id =>
        try_catch (process_met_object cfg obj_id) (fun _ => ret tt))) e s
     (fun r s' =>
        r = Ok tt
        /\ sent (fst s') = sent (fst s) ++ map (object_request cfg) ids
        /\ same_store (fst s) (fst s')
        /\ exists added,
             snd s' = snd s ++ added
             /\ (List.length added <= List.length ids)%nat
             /\ Forall met_item_ok added).
Proof.
  induction ids as [|obj_id ids IH]; intros s; simpl for_each.
  - wp_step. cbn [map]. rewrite app_nil_r.
    repeat split. exists []. rewrite app_nil_r. repeat split; auto.
  - wp_step. wp_step.
    eapply wp_conseq; [apply process_met_object_outcome|].
    intros r s1 (Hsent & Hst & Hitems).
    assert (K : wp (for_each ids (fun obj_id0 =>
                      try_catch (process_met_object cfg obj_id0) (fun _ => ret tt))) e s1
                   (fun r0 s' =>
                      r0 = Ok tt
                      /\ sent (fst s') = sent (fst s) ++ map (object_request cfg) (obj_id :: ids)
                      /\ same_store (fst s) (fst s')
                      /\ exists added,
                           snd s' = snd s ++ added
                           /\ (List.length added <= List.length (obj_id :: ids))%nat
                           /\ Forall met_item_ok added)).
    { eapply wp_conseq; [apply IH|].
      intros r0 s2 (-> & Hsent2 & Hst2 & added & Ha & Hl & Hok).
      split; [reflexivity|]. split.
      { rewrite Hsent2, Hsent, <- app_assoc. reflexivity. }
      split; [destruct Hst, Hst2; split; congruence|].
      destruct Hitems as [E|(item & E & Hitem)]; rewrite E in Ha.
      - exists added. cbn [List.length]. repeat split; auto.
      - exists (item :: added). rewrite <- app_assoc in Ha.
        cbn [List.length]. repeat split; auto with arith. }
    destruct r as [[]|ex]; [exact K | wp_step; exact K].
Qed.

(** X14.  [_process_met_batch] never raises and asks for every object of
    the batch, one request each and in order, whatever the answers: an
    object that fails, is filtered out or cannot be scored is skipped
    and the batch goes on.  It returns at most one item per object and
    leaves the store alone. *)
Theorem met_batch_requests_each_object (cfg : config) (e : env) (s : state)
    (object_ids : list Z) :
  (exists items,
     fst (run (_process_met_batch cfg object_ids) e s) = Ok items
     /\ (List.length items <= List.length object_ids)%nat)
  /\ sent (snd (run (_process_met_batch cfg object_ids) e s))
     = sent s ++ map (object_request cfg) object_ids
  /\ db (snd (run (_process_met_batch cfg object_ids) e s)) = db s.
Proof.
  assert (W : wp (_process_met_batch cfg object_ids) e (s, tt)
                 (fun r s' =>
                    (exists items, r = Ok items
                                   /\ (List.length items <= List.length object_ids)%nat)
                    /\ sent (fst s') = sent s ++ map (object_request cfg) object_ids
                    /\ db (fst s') = db s)).
  { unfold _process_met_batch. wp_step. wp_step.
    eapply wp_conseq; [apply met_batch_loop|].
    intros r s' (-> & Hsent & [Hdb _] & added & Ha & Hl & _).
    cbv beta iota. wp_step. cbn [fst snd] in *.
    split; [exists added; split; [now rewrite Ha | exact Hl]|]. now split. }
  apply wp_run in W. exact W.
Qed.

Lemma met_batch_outcome (e : env) (cfg : config) (ids : list Z) (s : state) :
  wp (_process_met_batch cfg ids) e (s, tt)
     (fun r s' =>
        sent (fst s') = sent s ++ map (object_request cfg) ids
        /\ same_store s (fst s')
        /\ exists items, r = Ok items
                         /\ (List.length items <= List.length ids)%nat
                         /\ Forall met_item_ok items).
Proof.
  unfold _process_met_batch. wp_step. wp_step.
  eapply wp_conseq; [apply met_batch_loop|].
  intros r s' (-> & Hsent & Hst & added & Ha & Hl & Hok).
  cbv beta iota. wp_step. cbn [fst snd] in *.
  split; [exact Hsent|]. split; [exact Hst|].
  exists added. rewrite Ha. auto.
Qed.

Lemma slice_length {A} (l : list A) (i b : Z) :
  (List.length (slice l i (i + b)) <= Z.to_nat b)%nat.
Proof.
  unfold slice. replace (i + b - i) with b by lia. apply firstn_le_length.
Qed.

Lemma met_collect_loop (e : env) (cfg : config) (object_ids : list Z)
    (starts : list Z) : forall s,
  wp (for_each starts (fun i =>
        let batch_ids := slice object_ids i (i + batch_size cfg) in
        batch_items <- call (_process_met_batch cfg batch_ids) ;;
        heritage_items <- get_local ;;
        set_local (heritage_items ++ batch_items) ;;;
        sleep (rate_limit_delay cfg))) e s
     (fun _ s' =>
        (Forall met_item_ok (snd s) -> Forall met_item_ok (snd s'))
        /\ (starts = [] -> snd s' = snd s)
        /\ same_store (fst s) (fst s')
        /\ exists reqs,
             sent (fst s') = sent (fst s) ++ reqs
             /\ (List.length reqs
                 <= List.length starts * Z.to_nat (batch_size cfg))%nat).
Proof.
  induction starts as [|i starts IH]; intros s; simpl for_each.
  - wp_step. split; [auto|]. split; [auto|]. split; [apply same_store_refl|].
    exists []. now rewrite app_nil_r.
  - cbv zeta. wp_step. wp_step. wp_step.
    eapply wp_conseq; [apply met_batch_outcome|].
    intros r s1 (Hsent & Hst & items & -> & _ & Hok). cbv beta iota.
    wp_step. wp_step. wp_step. wp_step. cbn [fst snd] in *.
    pose proof (slice_length object_ids i (batch_size cfg)) as Hslice.
    wp_step.
    + eapply wp_conseq; [apply IH|].
      intros r s2 (Hf & _ & Hst2 & reqs & Hsent2 & Hlen). cbn [fst snd] in *.
      split; [intros H0; apply Hf, Forall_app; now split|].
      split; [discriminate|].
      split; [destruct Hst, Hst2; split; congruence|].
      exists (map (object_request cfg) (slice object_ids i (i + batch_size cfg)) ++ reqs).
      split; [rewrite Hsent2, Hsent, <- app_assoc; reflexivity|].
      rewrite length_app, length_map. cbn [List.length]. lia.
    + cbn [fst snd].
      split; [intros H0; apply Forall_app; now split|].
      split; [discriminate|].
      split; [exact Hst|].
      exists (map (object_request cfg) (slice object_ids i (i + batch_size cfg))).
      split; [exact Hsent|].
      rewrite length_map. cbn [List.length]. lia.
Qed.

Lemma py_range_turns (n b : Z) (starts : list Z) :
  n <= 1000 -> py_range n b = Ok starts ->
  (List.length starts * Z.to_nat b
   <= (if (0 <? b)%Z then Z.to_nat (999 + b) else 0))%nat.
Proof.
  intros Hn. unfold py_range.
  destruct (Z.eqb_spec b 0) as [->|Hb]; [discriminate|].
  destruct (Z.ltb_spec b 0) as [Hneg|Hpos]; cbn [orb].
  - intros H. injection H as <-.
    destruct (Z.ltb_spec 0 b); [lia | reflexivity].
  - destruct (Z.leb_spec n 0) as [Hn0|Hn0]; intros H; injection H as <-.
    + simpl. lia.
    + destruct (Z.ltb_spec 0 b); [|lia].
      rewrite length_map, length_seq.
      assert (Hq : 0 <= (n + b - 1) / b) by (apply Z.div_pos; lia).
      rewrite <- Z2Nat.inj_mul by lia.
      apply Z2Nat.inj_le; [nia | lia |].
      pose proof (Z.mul_div_le (n + b - 1) b ltac:(lia)). nia.
Qed.

Lemma collect_met_museum_body_outcome (e : env) (cfg : config) ids s :
  wp (collect_met_museum_body cfg ids) e s
     (fun _ s' =>
        (Forall met_item_ok (snd s) -> Forall met_item_ok (snd s'))
        /\ (batch_size cfg <= 0 -> snd s' = snd s)
        /\ exists reqs,
             sent (fst s') = sent (fst s) ++ listing_request cfg ids :: reqs
             /\ (List.length reqs
                 <= (if (0 <? batch_size cfg)%Z
                     then Z.to_nat (999 + batch_size cfg) else 0))%nat).
Proof.
  unfold collect_met_museum_body. cbv zeta.
  set (s1 := ({| db := db (fst s); sent := sent (fst s) ++ [listing_request cfg ids];
                 ticks := ticks (fst s); connects := connects (fst s) |}, snd s)).
  assert (G : forall s' : state * list HeritageItem,
             s' = s1 ->
             (Forall met_item_ok (snd s) -> Forall met_item_ok (snd s'))
             /\ (batch_size cfg <= 0 -> snd s' = snd s)
             /\ exists reqs,
                  sent (fst s') = sent (fst s) ++ listing_request cfg ids :: reqs
                  /\ (List.length reqs
                      <= (if (0 <? batch_size cfg)%Z
                          then Z.to_nat (999 + batch_size cfg) else 0))%nat).
  { intros s' ->. cbn [fst snd sent]. split; [auto|]. split; [auto|].
    exists []. split; [reflexivity|]. cbn [List.length]. lia. }
  wp_step.
  apply (wp_conseq e _ _ (fun _ s' => s' = s1)).
  { unfold listing_request in s1.
    destruct ids as [[|i ids]|]; apply wp_session_get; intros res; reflexivity. }
  intros [resp|ex] s' ->; [|now apply G].
  wp_step. wp_step; [|now apply G].
  wp_step. wp_step; [|now apply G].
  wp_step.
  apply (wp_conseq e _ _ (fun _ s' => s' = s1)).
  { destruct data; wp_step; reflexivity. }
  intros [object_ids|ex] s' ->; [|now apply G].
  wp_step. wp_step.
  destruct (py_range _ _) as [starts|ex] eqn:Er; [|now apply G].
  apply py_range_turns in Er as Hturns; [|lia].
  eapply wp_conseq; [apply met_collect_loop|].
  intros r s2 (Hf & Hnil & _ & reqs & Hsent & Hlen).
  subst s1. cbn [fst snd sent] in *.
  split; [exact Hf|]. split.
  - intros Hb. apply Hnil. unfold py_range in Er.
    destruct (Z.eqb_spec (batch_size cfg) 0); [discriminate|].
    destruct (Z.ltb_spec (batch_size cfg) 0); [|lia].
    cbn [orb] in Er. now injection Er.
  - exists reqs. split; [now rewrite Hsent, <- app_assoc|]. lia.
Qed.

Lemma collect_met_museum_data_outcome (e : env) (cfg : config) ids (s : state) :
  wp (collect_met_museum_data cfg ids) e (s, tt)
     (fun r s' =>
        exists items reqs,
          r = Ok items
          /\ Forall met_item_ok items
          /\ (batch_size cfg <= 0 -> items = [])
          /\ sent (fst s') = sent s ++ listing_request cfg ids :: reqs
          /\ (List.length reqs
              <= (if (0 <? batch_size cfg)%Z
                  then Z.to_nat (999 + batch_size cfg) else 0))%nat).
Proof.
  unfold collect_met_museum_data.
  wp_step. wp_step. wp_step.
  eapply wp_conseq; [apply collect_met_museum_body_outcome|].
  cbn [fst snd].
  intros r s' (Hf & Hb & reqs & Hsent & Hlen).
  destruct r as [[]|ex]; repeat wp_step; cbn [fst snd];
    exists (snd s'), reqs; (split; [reflexivity|]); auto.
Qed.

(** X15.  Every item [collect_met_museum_data] returns is well formed:
    its source is 'Metropolitan Museum', its name is a non-empty title,
    its threat level is High, Low or Medium, its score lies between 5.5
    and 10 (the public-domain bonus always applies), its location neither
    starts nor ends with a comma or a space, and its metadata record it
    as public domain.  The function itself never raises. *)
Theorem met_items_well_formed (cfg : config) (department_ids : option (list Z))
    (e : env) (s : state) :
  exists items,
    fst (run (collect_met_museum_data cfg department_ids) e s) = Ok items
    /\ Forall met_item_ok items.
Proof.
  pose proof (wp_run _ e s _ (collect_met_museum_data_outcome e cfg department_ids s))
    as (items & reqs & E & Hok & _).
  now exists items.
Qed.

(** One object accepted, one filtered out, one unreachable: one item. *)
Example museum_env_items :
  map (fun i => (name i, location i, threat_level i))
      (result_or [] (fst (run (collect_met_museum_data sample_config None)
                              museum_env initial_state)))
  = [ (PStr "Mona Lisa", "Paris, France", "Low")%string ]
  /\ List.length (sent (snd (run (collect_met_museum_data sample_config None)
                                 museum_env initial_state))) = 4%nat.
Proof. vm_compute. split; reflexivity. Qed.

(** X16.  With a batch size of zero or less [collect_met_museum_data]
    fetches no object: it sends the listing request alone and returns no
    item (a zero step makes [range] raise, which the function absorbs; a
    negative step makes the range empty). *)
Theorem met_nonpositive_batch_size (cfg : config) (department_ids : option (list Z))
    (e : env) (s : state) :
  batch_size cfg <= 0 ->
  fst (run (collect_met_museum_data cfg department_ids) e s) = Ok []
  /\ sent (snd (run (collect_met_museum_data cfg department_ids) e s))
     = sent s ++ [listing_request cfg department_ids].
Proof.
  intros Hb.
  pose proof (wp_run _ e s _ (collect_met_museum_data_outcome e cfg department_ids s))
    as (items & reqs & E & _ & Hnil & Hsent & Hlen).
  cbn [fst snd] in *.
  rewrite E, (Hnil Hb). split; [reflexivity|].
  destruct (Z.ltb_spec 0 (batch_size cfg)); [lia|].
  destruct reqs; [exact Hsent | simpl in Hlen; lia].
Qed.

Lemma met_nonpositive_batch_size_witness :
  fst (run (collect_met_museum_data no_batches None) museum_env initial_state) = Ok []
  /\ sent (snd (run (collect_met_museum_data no_batches None) museum_env initial_state))
     = [listing_request no_batches None].
Proof.
  refine (met_nonpositive_batch_size no_batches None museum_env initial_state _).
  vm_compute. discriminate.
Defined.

(** X17.  The cap of [collect_met_museum_data] is 999 objects plus one
    batch: with a positive batch size it sends the listing request and
    then at most 999 + batch_size object requests, however long the
    listing is.  (The cap is 1000 objects only when the batch size
    divides 1000.) *)
Theorem met_request_cap (cfg : config) (department_ids : option (list Z))
    (e : env) (s : state) :
  0 < batch_size cfg ->
  (List.length (sent (snd (run (collect_met_museum_data cfg department_ids) e s)))
   <= List.length (sent s) + 1 + Z.to_nat (999 + batch_size cfg))%nat.
Proof.
  intros Hb.
  pose proof (wp_run _ e s _ (collect_met_museum_data_outcome e cfg department_ids s))
    as (items & reqs & _ & _ & _ & Hsent & Hlen).
  cbn [fst snd] in *. rewrite Hsent, length_app. cbn [List.length].
  destruct (Z.ltb_spec 0 (batch_size cfg)); lia.
Qed.

Lemma met_request_cap_witness :
  (List.length (sent (snd (run (collect_met_museum_data batches_of_300 None)
                               large_museum_env initial_state)))
   <= 0 + 1 + Z.to_nat (999 + 300))%nat.
Proof.
  refine (met_request_cap batches_of_300 None large_museum_env initial_state _).
  reflexivity.
Defined.

(** Batches of 300 fetch 1200 objects of a listing of 1200. *)
Example met_cap_exceeds_1000 :
  List.length (sent (snd (run (collect_met_museum_data batches_of_300 None)
                              large_museum_env initial_state)))
  = 1201%nat.
Proof. vm_compute. reflexivity. Qed.

(** ** The registry adapter *)

Lemma registry_term_ge_9 (y : Z) :
  y <= 2024 -> (9 <= 9 + inject_Z (2024 - y) / 100)%Q.
Proof.
  intros Hy.
  assert (E : (inject_Z 0 <= inject_Z (2024 - y))%Q) by (rewrite <- Zle_Qle; lia).
  change (inject_Z 0) with 0%Q in E.
  unfold Qdiv. change (/ 100)%Q with (1 # 100)%Q. lra.
Qed.

Lemma process_unesco_site_outcome (e : env) (site : pydict) s :
  wp (process_unesco_site site) e s
     (fun r s' =>
        sent (fst s') = sent (fst s)
        /\ same_store (fst s) (fst s')
        /\ if date_readable site
           then r = Ok tt
                /\ exists item, snd s' = snd s ++ [item]
                                /\ name item = site_name site
                                /\ unesco_item_ok item
           else (exists ex, r = Raise ex) /\ snd s' = snd s).
Proof.
  unfold process_unesco_site, date_readable.
  wp_step. wp_step.
  destruct (unesco_significance site) as [sig|ex] eqn:Esig.
  - apply registry_score_inv in Esig as (y0 & Ey & _ & ->).
    repeat wp_step. cbn [fst snd sent].
    split; [reflexivity|]. split; [now split|]. split; [reflexivity|].
    eexists. split; [reflexivity|]. split; [reflexivity|].
    unfold unesco_item_ok.
    cbn [source type threat_level significance_score metadata].
    split; [reflexivity|]. split; [reflexivity|].
    split; [destruct (is_one _); simpl; tauto|].
    split.
    { change (get _ "danger_list") with (PBool (is_one (get_or site "danger" (PStr "0")))).
      destruct (is_one _); split; intros H; try reflexivity; discriminate H. }
    split; [apply py_min_le_r|].
    intros y Hy Hle.
    assert (y = y0); [|subst y; apply py_min_glb; [now apply registry_term_ge_9 | lra]].
    unfold inscription_year in Hy. cbn [period] in Hy.
    unfold get_or in Hy, Ey. destruct (lookup site "date_inscribed") as [v|].
    + destruct Hy as [[Hu ->]|Hy]; [|congruence].
      rewrite Hu in Ey. vm_compute in Ey. discriminate.
    + injection Ey as <-. destruct Hy as [[_ ->]|Hy]; [reflexivity|].
      vm_compute in Hy. discriminate.
  - cbn [fst snd]. split; [reflexivity|]. split; [now split|].
    split; [now exists ex | reflexivity].
Qed.

Lemma unesco_loop_outcome (e : env) (data : list pydict) : forall s,
  wp (for_each data process_unesco_site) e s
     (fun _ s' =>
        sent (fst s') = sent (fst s)
        /\ same_store (fst s) (fst s')
        /\ exists added,
             snd s' = snd s ++ added
             /\ map name added = map site_name (readable_prefix data)
             /\ Forall unesco_item_ok added).
Proof.
  induction data as [|site data IH]; intros s; simpl for_each.
  - wp_step. split; [reflexivity|]. split; [apply same_store_refl|].
    exists []. rewrite app_nil_r. repeat split. constructor.
  - wp_step.
    eapply wp_conseq; [apply process_unesco_site_outcome|].
    intros r s1 (Hsent & Hst & H). cbn [readable_prefix].
    destruct (date_readable site).
    + destruct H as (-> & item & Ei & En & Hok).
      eapply wp_conseq; [apply IH|].
      intros r s2 (Hsent2 & Hst2 & added & Ea & Em & Hf).
      split; [congruence|]. split; [destruct Hst, Hst2; split; congruence|].
      exists (item :: added). rewrite Ea, Ei, <- app_assoc.
      split; [reflexivity|]. cbn [map]. rewrite En, Em. split; [reflexivity|].
      now constructor.
    + destruct H as ([ex ->] & Ei).
      split; [exact Hsent|]. split; [exact Hst|].
      exists []. rewrite app_nil_r. repeat split; [exact Ei | constructor].
Qed.

Lemma collect_unesco_data_outcome (e : env) (cfg : config) (s : state) :
  wp (collect_unesco_data cfg) e (s, tt)
     (fun r s' =>
        sent (fst s') = sent s ++ [plain_request (unesco_api cfg)]
        /\ exists items,
             r = Ok items
             /\ Forall unesco_item_ok items
             /\ forall code data,
                  unesco_list e (List.length (sent s)) (plain_request (unesco_api cfg))
                  = Response code (Some data) ->
                  ((code <? 400) || (600 <=? code))%bool = true ->
                  map name items = map site_name (readable_prefix data)).
Proof.
  unfold collect_unesco_data.
  wp_step. wp_step. wp_step.
  unfold collect_unesco_body. wp_step.
  unfold wp at 1, session_get. cbn [fst snd].
  destruct (unesco_list e (List.length (sent s)) (plain_request (unesco_api cfg)))
    as [msg|code payload] eqn:Er; cbn [fst snd].
  - repeat wp_step. cbn [fst snd sent]. split; [reflexivity|].
    exists []. repeat split; [constructor | discriminate].
  - wp_step. unfold raise_for_status. cbn [status_code].
    destruct ((400 <=? code) && (code <? 600))%bool eqn:Ec.
    + repeat wp_step. cbn [fst snd sent]. split; [reflexivity|].
      exists []. repeat split; [constructor|].
      intros code' data' H Hok. injection H as <- _.
      apply andb_true_iff in Ec as [E1 E2]. apply orb_true_iff in Hok as [Hok|Hok]; lia.
    + wp_step. wp_step. unfold json. cbn [body].
      destruct payload as [data|].
      * wp_step.
        eapply wp_conseq; [apply unesco_loop_outcome|].
        cbn [fst snd sent].
        intros r s' (Hsent & _ & added & Ea & Em & Hf).
        assert (K : sent (fst s') = sent s ++ [plain_request (unesco_api cfg)]
                    /\ exists items,
                         Ok (A := unit * list HeritageItem) (tt, snd s') = Ok (tt, items)
                         /\ Forall unesco_item_ok items
                         /\ forall code' data',
                              Response code (Some data) = Response code' (Some data') ->
                              ((code' <? 400) || (600 <=? code'))%bool = true ->
                              map name items = map site_name (readable_prefix data')).
        { split; [exact Hsent|]. exists (snd s'). split; [reflexivity|].
          rewrite Ea. cbn [app]. split; [exact Hf|].
          intros code' data' H _. injection H as _ <-. exact Em. }
        destruct K as (K1 & items & K2 & K3 & K4). injection K2 as <-.
        destruct r as [[]|ex]; repeat wp_step; cbn [fst snd];
          (split; [exact K1|]); exists (snd s'); auto.
      * repeat wp_step. cbn [fst snd sent]. split; [reflexivity|].
        exists []. repeat split; [constructor | discriminate].
Qed.

(** X18.  Let the registry answer with sites whose date_inscribed
    members are integers, booleans, nulls, ASCII texts or missing.  Then
    [collect_unesco_data] returns the items of the sites that come before
    the first site for which no score can be computed, because [int] does
    not read its date_inscribed (a text that is no integer literal, a
    null) or because the year is too far from 2024 for the division to
    fit a float: that site makes the loop raise, the function absorbs the
    exception, and the sites after it are lost together with it.  When
    every site has a score, there is one item per site, in order. *)
Theorem unesco_items_until_unreadable_date (cfg : config) (e : env) (s : state)
    (code : Z) (data : list pydict) :
  unesco_list e (List.length (sent s)) (plain_request (unesco_api cfg))
  = Response code (Some data) ->
  ((code <? 400) || (600 <=? code))%bool = true ->
  Forall (fun site => ascii_date site = true) data ->
  exists items,
    fst (run (collect_unesco_data cfg) e s) = Ok items
    /\ map name items = map site_name (readable_prefix data).
Proof.
  intros Hr Hc _.
  pose proof (wp_run _ e s _ (collect_unesco_data_outcome e cfg s))
    as (_ & items & E & _ & H).
  exists items. split; [exact E | now apply (H code data)].
Qed.

Lemma unesco_items_until_unreadable_date_witness :
  exists items,
    fst (run (collect_unesco_data sample_config) (registry_env broken_sites) initial_state)
    = Ok items
    /\ map name items = [PStr "Galapagos Islands"].
Proof.
  refine (unesco_items_until_unreadable_date sample_config (registry_env broken_sites)
            initial_state 200 broken_sites eq_refl eq_refl _).
  repeat constructor.
Defined.

(** A date behind the control character U+001F, and a year of 401 digits:
    neither site has a score, so neither is readable. *)
Example unreadable_dates :
  date_readable [("date_inscribed"%string, PStr (String (ascii_of_nat 31) "1978"))] = false
  /\ date_readable [("date_inscribed"%string, PInt (10 ^ 400))] = false
  /\ date_readable [("date_inscribed"%string, PStr " 1_978 ")] = true.
Proof. repeat split; vm_compute; reflexivity. Qed.

(** X19.  [collect_unesco_data] never raises and sends exactly one
    request.  Every item it returns has the source 'UNESCO' and the type
    'heritage_site'; its threat level is High when the site is on the
    danger list (danger == '1') and Medium otherwise, as its metadata
    record; and its score is at most 10, and at least 9 when the site
    was inscribed in 2024 or before. *)
Theorem unesco_items_well_formed (cfg : config) (e : env) (s : state) :
  sent (snd (run (collect_unesco_data cfg) e s))
  = sent s ++ [plain_request (unesco_api cfg)]
  /\ exists items,
       fst (run (collect_unesco_data cfg) e s) = Ok items
       /\ Forall unesco_item_ok items.
Proof.
  pose proof (wp_run _ e s _ (collect_unesco_data_outcome e cfg s))
    as (Hsent & items & E & Hok & _).
  split; [exact Hsent | now exists items].
Qed.

(** The three sites of the scenario: levels and scores. *)
Example three_sites_items :
  map (fun i => (name i, threat_level i))
      (result_or [] (fst (run (collect_unesco_data sample_config)
                              museum_down_env initial_state)))
  = [ (PStr "Galapagos Islands", "Medium"); (PStr "Old City of Sana'a", "High");
      (PStr "Rapa Nui National Park", "Medium") ]%string.
Proof. vm_compute. reflexivity. Qed.

(** ** Threat monitoring with a key *)

Lemma severity_values (lo : string -> string) (a : pydict) :
  In (_assess_threat_severity lo a) ["High"; "Medium"; "Low"]%string.
Proof.
  unfold _assess_threat_severity.
  destruct (any_in high_severity_keywords _); [simpl; tauto|].
  destruct (any_in medium_severity_keywords _); simpl; tauto.
Qed.

Lemma process_article_outcome (e : env) (kws : list string) (keyword : string)
    (a : article) s :
  In keyword kws ->
  wp (process_article keyword a) e s
     (fun _ s' =>
        sent (fst s') = sent (fst s)
        /\ (Forall (threat_ok kws) (snd s) -> Forall (threat_ok kws) (snd s'))).
Proof.
  intros Hk. unfold process_article.
  wp_step. wp_step.
  destruct (article_source_name a) as [src|ex]; [|now split].
  repeat wp_step. cbn [fst snd]. split; [reflexivity|].
  intros H. apply Forall_app. split; [exact H|].
  constructor; [|constructor].
  unfold threat_ok. split; [reflexivity|]. split.
  - exists keyword. split; [exact Hk | reflexivity].
  - change (get _ "severity")
      with (PStr (_assess_threat_severity (str_lower e) (article_fields a))).
    pose proof (severity_values (str_lower e) (article_fields a)) as Hs.
    simpl in Hs |- *. intuition congruence.
Qed.

Lemma search_keyword_outcome (e : env) (cfg : config) (kws : list string)
    (keyword : string) s :
  In keyword kws ->
  wp (search_keyword cfg keyword) e s
     (fun _ s' =>
        (List.length (sent (fst s')) <= List.length (sent (fst s)) + 1)%nat
        /\ (Forall (threat_ok kws) (snd s) -> Forall (threat_ok kws) (snd s'))).
Proof.
  intros Hk. unfold search_keyword. cbv zeta.
  assert (G : forall (l : list request) (r : request),
             (List.length (l ++ [r]) <= List.length l + 1)%nat)
    by (intros; rewrite length_app; simpl; lia).
  wp_step. wp_step. wp_step. wp_step.
  destruct (thirty_days_before _) as [from|ex];
    [|cbn [fst snd sent]; split; [lia | auto]].
  wp_step. wp_step; [|cbn [fst snd sent]; split; [apply G | auto]].
  wp_step. wp_step; [|cbn [fst snd sent]; split; [apply G | auto]].
  wp_step. wp_step; [|cbn [fst snd sent]; split; [apply G | auto]].
  wp_step.
  apply (wp_conseq e _ _
           (fun _ s' =>
              (List.length (sent (fst s')) <= List.length (sent (fst s)) + 1)%nat
              /\ snd s' = snd s)).
  { destruct data; wp_step; cbn [fst snd sent]; (split; [apply G | reflexivity]). }
  intros [articles|ex] s1 [H1 H2]; [|split; [exact H1 | now rewrite H2]].
  wp_step.
  eapply wp_conseq.
  - apply (wp_for_each e articles _
             (fun s' => sent (fst s') = sent (fst s1)
                        /\ (Forall (threat_ok kws) (snd s) ->
                            Forall (threat_ok kws) (snd s')))).
    + intros a s2 _ [Hs2 Hf2].
      eapply wp_conseq; [apply (process_article_outcome e kws keyword a s2 Hk)|].
      intros r s3 [Hs3 Hf3]. split; [congruence | auto].
    + split; [reflexivity | now rewrite H2].
  - intros r s2 [Hs2 Hf2]. cbv beta in *.
    assert (K : (List.length (sent (fst s2)) <= List.length (sent (fst s)) + 1)%nat
                /\ (Forall (threat_ok kws) (snd s) -> Forall (threat_ok kws) (snd s2)))
      by (split; [now rewrite Hs2 | exact Hf2]).
    destruct r as [[]|ex]; [|exact K].
    apply wp_sleep. intros _. exact K.
Qed.

(** X20.  [monitor_cultural_threats] never raises and sends at most one
    request per keyword searched (the eight built-in keywords when none
    are given).  Every threat it returns is a dict with the seven keys
    title, description, source, published_at, url, keyword and severity,
    whose keyword is one of those searched and whose severity is High,
    Medium or Low. *)
Theorem monitor_threats_well_formed (cfg : config) (keywords : option (list string))
    (e : env) (s : state) :
  (exists threats,
     fst (run (monitor_cultural_threats cfg keywords) e s) = Ok threats
     /\ Forall (threat_ok (keywords_used keywords)) threats)
  /\ (List.length (sent (snd (run (monitor_cultural_threats cfg keywords) e s)))
      <= List.length (sent s) + List.length (keywords_used keywords))%nat.
Proof.
  assert (W : wp (monitor_cultural_threats cfg keywords) e (s, tt)
                 (fun r s' =>
                    (exists threats,
                       r = Ok threats
                       /\ Forall (threat_ok (keywords_used keywords)) threats)
                    /\ (List.length (sent (fst s'))
                        <= List.length (sent s) + List.length (keywords_used keywords))%nat)).
  { unfold monitor_cultural_threats.
    destruct (negb (truthy (news_api_key cfg))).
    - wp_step. cbn [fst snd]. split; [exists []; split; [reflexivity | constructor] | lia].
    - cbv zeta. fold (keywords_used keywords).
      wp_step. wp_step. wp_step.
      eapply wp_conseq.
      + apply wp_and.
        * apply (wp_for_each e (keywords_used keywords) (search_keyword cfg)
                   (fun s' => Forall (threat_ok (keywords_used keywords)) (snd s'))).
          -- intros k s1 Hk H1.
             eapply wp_conseq; [apply (search_keyword_outcome e cfg _ k s1 Hk)|].
             intros r s2 [_ Hf]. now apply Hf.
          -- constructor.
        * apply (wp_for_each_bound e (keywords_used keywords) (search_keyword cfg)
                   (fun s' => List.length (sent (fst s'))) 1).
          intros k s1 Hk.
          eapply wp_conseq; [apply (search_keyword_outcome e cfg _ k s1 Hk)|].
          intros r s2 [Hl _]. exact Hl.
      + cbn [fst snd]. intros r s' [Hf Hl].
        destruct r as [[]|ex]; repeat wp_step; cbn [fst snd];
          (split; [exists (snd s'); split; [reflexivity | exact Hf] | lia]). }
  apply wp_run in W. exact W.
Qed.

(** One answer, then the source goes down: two threats, two requests. *)
Example news_env_threats :
  map (fun t => (get t "keyword", get t "severity", get t "source"))
      (result_or [] (fst (run (monitor_cultural_threats keyed_config None)
                              news_env initial_state)))
  = [ (PStr "museum destroyed", PStr "High", PStr "Daily");
      (PStr "museum destroyed", PStr "Low", PNone) ]
  /\ List.length (sent (snd (run (monitor_cultural_threats keyed_config None)
                                 news_env initial_state))) = 2%nat.
Proof. vm_compute. split; reflexivity. Qed.

(** ** A run without a news key *)

Lemma heritage_stage_threats (e : env) (label what : string)
    (collect : M (list HeritageItem)) (s : state * run_results) :
  (forall s0, wp collect e (s0, tt)
                 (fun r s' => same_store s0 (fst s') /\ exists items, r = Ok items)) ->
  wp (heritage_stage label what collect) e s
     (fun _ s' =>
        threat_monitoring (db (fst s')) = threat_monitoring (db (fst s))
        /\ threats_detected (snd s') = threats_detected (snd s)).
Proof.
  intros Hc. unfold heritage_stage.
  wp_step. wp_step. wp_step.
  eapply wp_conseq; [apply Hc|].
  intros r s1 ([Hdb Hcon] & items & ->). cbv beta iota.
  wp_step. wp_step.
  eapply wp_conseq; [apply save_to_database_spec|].
  intros r s2 (_ & _ & _ & Htm & _ & _). cbn [fst snd] in *. rewrite Hdb in Htm.
  destruct r as [counts|ex].
  - repeat wp_step. cbn [fst snd]. now split.
  - unfold on_failure. repeat wp_step. cbn [fst snd]. now split.
Qed.

Lemma threat_stage_without_key (e : env) (cfg : config) (s : state * run_results) :
  truthy (news_api_key cfg) = false ->
  wp (threat_stage cfg) e s
     (fun _ s' =>
        threat_monitoring (db (fst s')) = threat_monitoring (db (fst s))
        /\ sent (fst s') = sent (fst s)
        /\ (threats_detected (snd s) = 0%nat -> threats_detected (snd s') = 0%nat)).
Proof.
  intros Hk. unfold threat_stage, monitor_cultural_threats. rewrite Hk. cbn [negb].
  wp_step. wp_step. wp_step. wp_step. cbn [fst snd].
  wp_step. wp_step. unfold save_threats_to_database.
  wp_step. wp_step. apply wp_with_connection. cbv zeta. cbn [fst snd for_each].
  destruct (db_fault e (connects (fst s))) as [msg|].
  - unfold on_failure. repeat wp_step. cbn [fst snd db sent]. auto.
  - repeat wp_step. cbn [fst snd db sent]. auto.
Qed.

(** X21.  Without a news API key a full run detects nothing: the result
    has threats_detected = 0, and the table of threats after the run is
    the one before it. *)
Theorem run_without_key_detects_nothing (cfg : config) (e : env) (s s' : state)
    (res : run_results) :
  truthy (news_api_key cfg) = false ->
  run (run_full_collection cfg) e s = (Ok res, s') ->
  threats_detected res = 0%nat
  /\ threat_monitoring (db s') = threat_monitoring (db s).
Proof.
  intros Hk R.
  assert (W : wp (run_full_collection cfg) e (s, tt)
                 (fun r s1 =>
                    forall res1, r = Ok res1 ->
                      threats_detected res1 = 0%nat
                      /\ threat_monitoring (db (fst s1)) = threat_monitoring (db s))).
  { unfold run_full_collection, run_full_collection_body.
    wp_step. wp_step. wp_step. wp_step. cbn [fst snd].
    wp_step.
    eapply wp_conseq;
      [apply heritage_stage_threats; intros s0; apply collect_met_museum_data_never_raises|].
    cbn [fst snd db].
    intros r1 s1 (T1 & D1). destruct r1 as [[]|ex]; [|intros res1 H; discriminate H].
    wp_step.
    eapply wp_conseq;
      [apply heritage_stage_threats; intros s0; apply collect_unesco_data_never_raises|].
    intros r2 s2 (T2 & D2). destruct r2 as [[]|ex]; [|intros res1 H; discriminate H].
    wp_step.
    eapply wp_conseq; [apply (threat_stage_without_key e cfg s2 Hk)|].
    intros r3 s3 (T3 & _ & D3). destruct r3 as [[]|ex]; [|intros res1 H; discriminate H].
    wp_step. apply wp_with_connection. cbv zeta. cbn [fst snd].
    destruct (db_fault e (connects (fst s3))) as [msg|];
      [intros res1 H; discriminate H|].
    repeat wp_step. cbn [fst snd set_db db]. intros res1 H. injection H as <-.
    cbn [threats_detected record_end threat_monitoring insert_stats].
    split; [apply D3; rewrite D2, D1; reflexivity | congruence]. }
  apply wp_run in W. rewrite R in W. cbn [fst snd] in W. now apply W.
Qed.

Lemma run_without_key_detects_nothing_witness :
  threats_detected museum_down_result = 0%nat
  /\ threat_monitoring (db museum_down_final) = [].
Proof.
  refine (run_without_key_detects_nothing sample_config museum_down_env initial_state
            museum_down_final museum_down_result eq_refl _).
  vm_compute. reflexivity.
Defined.

(** ** The registry score as a function of the year *)

(** X22.  The registry score never grows with the inscription year: of
    two sites the one inscribed earlier scores at least as much; the
    score is 10 exactly for the sites inscribed in 1924 or before, and a
    site without a date_inscribed member scores 9. *)
Theorem registry_score_monotone (site1 site2 : pydict) (y1 y2 : Z) (s1 s2 : Q) :
  py_int (get_or site1 "date_inscribed" (PInt 2024)) = Ok y1 ->
  py_int (get_or site2 "date_inscribed" (PInt 2024)) = Ok y2 ->
  unesco_significance site1 = Ok s1 ->
  unesco_significance site2 = Ok s2 ->
  (y1 <= y2 -> (s2 <= s1)%Q)
  /\ ((s1 == 10)%Q <-> y1 <= 1924)
  /\ (lookup site1 "date_inscribed" = None -> (s1 == 9)%Q).
Proof.
  intros H1 H2 E1 E2.
  apply registry_score_inv in E1 as (y1' & H1' & _ & S1).
  apply registry_score_inv in E2 as (y2' & H2' & _ & S2).
  assert (y1' = y1) by congruence. assert (y2' = y2) by congruence.
  subst y1' y2' s1 s2. clear H1' H2'.
  assert (I : forall a b, a <= b -> (inject_Z a <= inject_Z b)%Q)
    by (intros a b H; rewrite <- Zle_Qle; exact H).
  split; [|split].
  - intros Hy. rewrite !py_min_Qmin.
    apply Q.min_le_compat_r.
    assert (inject_Z (2024 - y2) <= inject_Z (2024 - y1))%Q by (apply I; lia).
    unfold Qdiv. change (/ 100)%Q with (1 # 100)%Q.
    set (a := inject_Z (2024 - y2)) in *. set (b := inject_Z (2024 - y1)) in *.
    clear I. lra.
  - rewrite py_min_Qmin. split.
    + intros Hs.
      destruct (Z_le_gt_dec y1 1924) as [Hle|Hgt]; [exact Hle|]. exfalso.
      assert (inject_Z (2024 - y1) <= inject_Z 99)%Q by (apply I; lia).
      change (inject_Z 99) with 99%Q in H.
      assert (M : (Qmin (9 + inject_Z (2024 - y1) / 100) 10
                   <= 9 + inject_Z (2024 - y1) / 100)%Q) by apply Q.le_min_l.
      unfold Qdiv in M, Hs. change (/ 100)%Q with (1 # 100)%Q in M, Hs.
      set (a := inject_Z (2024 - y1)) in *. clear I. lra.
    + intros Hy. apply Q.min_r.
      assert (inject_Z 100 <= inject_Z (2024 - y1))%Q by (apply I; lia).
      change (inject_Z 100) with 100%Q in H.
      unfold Qdiv. change (/ 100)%Q with (1 # 100)%Q.
      set (a := inject_Z (2024 - y1)) in *. clear I. lra.
  - intros Hn. unfold get_or in H1. rewrite Hn in H1. injection H1 as <-.
    vm_compute. reflexivity.
Qed.

Lemma registry_score_monotone_witness :
  (result_or 0%Q (unesco_significance site_far_future)
   <= result_or 0%Q (unesco_significance site_1978))%Q.
Proof.
  refine (proj1 (registry_score_monotone site_1978 site_far_future 1978 3000
                   (result_or 0%Q (unesco_significance site_1978))
                   (result_or 0%Q (unesco_significance site_far_future))
                   eq_refl eq_refl eq_refl eq_refl) _).
  vm_compute. discriminate.
Defined.

(** ** Saving and reporting *)

Lemma total_items_rows (rows : list heritage_row) (fetched : list (string * nat * Q)) :
  sources_query rows fetched -> total_items fetched = List.length rows.
Proof.
  unfold sources_query. intros Hs.
  unfold total_items. rewrite fold_left_add. cbn [Nat.add].
  rewrite (list_sum_perm _ _ (Permutation_map (fun p => snd (fst p)) Hs)).
  unfold source_groups. rewrite map_map. cbn [fst snd].
  erewrite map_ext; [|intros src; apply length_map].
  apply (group_sizes_sum col_source rows); [apply NoDup_nodup|].
  intros x Hx. apply nodup_In. now apply in_map.
Qed.

(** X23.  Saving shows in the report: the [total_items] of a report made
    after a successful [save_to_database] is the [total_items] of a
    report made before it plus the number of new items the call
    returned; updated items do not change it. *)
Theorem report_total_after_save (e : env) (s s' : state) (items : list HeritageItem)
    (new updated : nat) (before after : report_counts) :
  run (save_to_database items) e s = (Ok (new, updated), s') ->
  report_counts_of (db s) before ->
  report_counts_of (db s') after ->
  report_total_items after = (report_total_items before + new)%nat.
Proof.
  intros R (src & _ & Hs & _ & Eb & _) (src' & _ & Hs' & _ & Ea & _).
  rewrite Ea, Eb, (total_items_rows _ _ Hs), (total_items_rows _ _ Hs').
  apply save_to_database_db in R as (D & C & _). rewrite D.
  cbn [heritage_items set_heritage_items].
  destruct (save_items_fold_immutable items (heritage_items (db s)) 0 0)
    as (added & E & L). cbv zeta in E, L.
  fold (upsert_all items (heritage_items (db s))) in E, L.
  rewrite <- C in L. cbn [fst snd] in L.
  apply (f_equal (@List.length _)) in E.
  rewrite length_app, !length_map in E. lia.
Qed.

Lemma report_total_after_save_witness :
  report_total_items (report_counts_in_order (db after_second_sighting))
  = (report_total_items (report_counts_in_order (db after_first_sighting)) + 0)%nat.
Proof.
  refine (report_total_after_save offline_env after_first_sighting after_second_sighting
            [mona_in_storage] 0 1 _ _ _
            (report_counts_in_order_admissible _)
            (report_counts_in_order_admissible _)).
  vm_compute. reflexivity.
Defined.
